(** * specgraph: artifact store, slugs and the four LangGraph pipelines

    A shallow embedding of [specgraph/utils/file_manager.py] and of the
    workflows in [specgraph/workflows/] (specify, plan, tasks, clarify),
    with the properties of the specification stated over it.

    Python [str] values are sequences of Unicode code points; dictionaries
    are finite maps; the file system and the model gateway are explicit. *)

From Stdlib Require Import ZArith NArith List Bool Lia String Ascii DecimalString DecimalN.
From stdpp Require Import base option list gmap strings.

Local Open Scope N_scope.

(** ** Text *)

(** A Python [str] is a list of code points. *)
Definition char := N.
Definition str := list char.

(** An ASCII literal of the source, as code points. *)
Definition lit (s : string) : str :=
  List.map N_of_ascii (list_ascii_of_string s).

Definition dquote : char := 34.
Definition newline : char := 10.

Definition between (lo hi c : char) : bool := (lo <=? c) && (c <=? hi).

(** The parts of the Python runtime that are data tables or numeric
    routines outside the repository: Unicode case mapping and decimal
    values beyond ASCII, the value of a floating-point literal, and the
    wording of a decoder's error message. *)
Record runtime := {
  (** full lowercase mapping of one non-ASCII code point; the text before
      it (reversed) and after it is supplied because the mapping of capital
      sigma depends on its neighbours *)
  lower_full : str -> char -> str -> str;
  (** decimal value of a non-ASCII code point of category Nd *)
  decimal : char -> option N;
  (** the integer a float literal is equal to, if it is equal to one *)
  float_int_value : str -> option Z;
  (** [str(e)] for the [json.JSONDecodeError] raised on a payload *)
  json_error_msg : str -> str
}.

(** A runtime whose tables are empty outside ASCII. *)
Definition ascii_runtime : runtime :=
  {| lower_full := fun _ c _ => [c];
     decimal := fun _ => None;
     float_int_value := fun _ => None;
     json_error_msg := fun _ => lit "Expecting value" |}.

(** [Py_UNICODE_ISSPACE]: what [str.strip()] removes and what [\s] matches
    in a [str] pattern. *)
Definition is_space (c : char) : bool :=
  between 9 13 c || between 28 32 c || (c =? 133) || (c =? 160)
  || (c =? 5760) || between 8192 8202 c || (c =? 8232) || (c =? 8233)
  || (c =? 8239) || (c =? 8287) || (c =? 12288).

Definition is_hyphen (c : char) : bool := c =? 45.

(** [[\s_]] *)
Definition is_space_or_underscore (c : char) : bool := is_space c || (c =? 95).

(** [[a-z0-9-]] *)
Definition is_slug_char (c : char) : bool :=
  between 97 122 c || between 48 57 c || is_hyphen c.

Section Text.
Context (rt : runtime).

(** [str.lower()] at one position. *)
Definition lower_char (before_rev : str) (c : char) (after : str) : str :=
  if c <? 128 then [if between 65 90 c then c + 32 else c]
  else lower_full rt before_rev c after.

Fixpoint lower_from (before_rev s : str) : str :=
  match s with
  | [] => []
  | c :: t => lower_char before_rev c t ++ lower_from (c :: before_rev) t
  end.

(** [text.lower()] *)
Definition lower (s : str) : str := lower_from [] s.
End Text.

Fixpoint drop_while {A} (p : A -> bool) (l : list A) : list A :=
  match l with
  | [] => []
  | x :: t => if p x then drop_while p t else l
  end.

(** [s.strip(chars)], and [s.strip()] when [p] is [is_space]. *)
Definition strip_chars (p : char -> bool) (s : str) : str :=
  rev (drop_while p (rev (drop_while p s))).

Definition strip (s : str) : str := strip_chars is_space s.

(** [re.sub(r"[p]+", repl, s)]: each maximal run of characters of the class
    is replaced by [repl]; [in_run] tells that the run was already replaced. *)
Fixpoint sub_runs_from (p : char -> bool) (repl : str) (in_run : bool) (s : str) : str :=
  match s with
  | [] => []
  | c :: t =>
      if p c then (if in_run then [] else repl) ++ sub_runs_from p repl true t
      else c :: sub_runs_from p repl false t
  end.

Definition re_sub_runs (p : char -> bool) (repl : str) (s : str) : str :=
  sub_runs_from p repl false s.

(** [slugify] of file_manager.py. *)
Definition slugify (rt : runtime) (text : str) : str :=
  let text := lower rt text in
  let text := re_sub_runs is_space_or_underscore (lit "-") text in
  let text := List.filter is_slug_char text in
  let text := re_sub_runs is_hyphen (lit "-") text in
  let text := strip_chars is_hyphen text in
  take 50 text.

(** Shape of a slug. *)
Fixpoint no_double_hyphen (s : str) : bool :=
  match s with
  | a :: (b :: _) as t => negb (is_hyphen a && is_hyphen b) && no_double_hyphen t
  | _ => true
  end.

Definition no_leading_hyphen (s : str) : bool :=
  match s with c :: _ => negb (is_hyphen c) | [] => true end.

Definition no_trailing_hyphen (s : str) : bool := no_leading_hyphen (rev s).

(** [^[a-z0-9-]{0,50}$] (the input holds no newline once every character
    is of the class, so [$] is the end of the text). *)
Definition matches_slug_pattern (s : str) : bool :=
  forallb is_slug_char s && (length s <=? 50)%nat.

(** ** Searching and slicing *)

(** [s.startswith(p)] *)
Fixpoint startswith (p s : str) : bool :=
  match p, s with
  | [], _ => true
  | a :: p', b :: s' => (a =? b) && startswith p' s'
  | _ :: _, [] => false
  end.

(** [s.endswith(p)] *)
Definition endswith (p s : str) : bool := startswith (rev p) (rev s).

(** First index, counted from [i], at which [sub] occurs in [s]. *)
Fixpoint find_from (sub s : str) (i : nat) : option nat :=
  if startswith sub s then Some i
  else match s with
       | [] => None
       | _ :: t => find_from sub t (S i)
       end.

(** [s.find(sub, start)] for [start >= 0]: the lowest index at or after
    [start] where [sub] occurs, or [-1]. *)
Definition find (sub s : str) (start : nat) : Z :=
  if (length s <? start)%nat then (-1)%Z
  else match find_from sub (drop start s) start with
       | Some i => Z.of_nat i
       | None => (-1)%Z
       end.

(** [sub in s] *)
Definition contains (sub s : str) : bool :=
  match find_from sub s 0 with Some _ => true | None => false end.

(** A slice bound as Python normalises it: negative bounds count from the
    end, and both are clipped to the text. *)
Definition slice_bound (len i : Z) : nat :=
  Z.to_nat (if (i <? 0)%Z then Z.max 0 (i + len) else Z.min i len).

(** [s[a:b]] *)
Definition slice (s : str) (a b : Z) : str :=
  let len := Z.of_nat (length s) in
  let a' := slice_bound len a in
  let b' := slice_bound len b in
  take (b' - a') (drop a' s).

(** [s[a:]] *)
Definition slice_from (s : str) (a : Z) : str :=
  drop (slice_bound (Z.of_nat (length s)) a) s.

(** [s[:b]] *)
Definition slice_to (s : str) (b : Z) : str :=
  take (slice_bound (Z.of_nat (length s)) b) s.

(** ** JSON values and [json.loads] *)

#[local] Set Warnings "-register-all".

(** What [json.loads] builds: [None], [bool], [int], [float] (kept as its
    literal), [str], [list] and [dict] (insertion-ordered, keys unique). *)
Inductive json :=
| JNull
| JBool (b : bool)
| JInt (n : Z)
| JFloat (tok : str)
| JStr (s : str)
| JList (l : list json)
| JDict (kvs : list (str * json)).

Definition str_eqb (a b : str) : bool := bool_decide (a = b).

(** [d[k] = v] on an insertion-ordered dictionary. *)
Fixpoint dict_set {V} (d : list (str * V)) (k : str) (v : V) : list (str * V) :=
  match d with
  | [] => [(k, v)]
  | (k', v') :: d' =>
      if str_eqb k' k then (k', v) :: d' else (k', v') :: dict_set d' k v
  end.

(** [d.get(k)] *)
Fixpoint dict_get {V} (d : list (str * V)) (k : str) : option V :=
  match d with
  | [] => None
  | (k', v) :: d' => if str_eqb k' k then Some v else dict_get d' k
  end.

(** Outcome of scanning a prefix of a text: a value and the text left, a
    decoding error, or the recursion budget of the scanner used up. *)
Inductive scan (A : Type) :=
| Found (a : A) (rest : str)
| Invalid
| Exhausted.
Arguments Found {A} a rest.
Arguments Invalid {A}.
Arguments Exhausted {A}.

Definition is_json_ws (c : char) : bool :=
  (c =? 32) || (c =? 9) || (c =? 10) || (c =? 13).

Definition skip_ws (s : str) : str := drop_while is_json_ws s.

Definition is_digit (c : char) : bool := between 48 57 c.

Definition hex_value (c : char) : option N :=
  if between 48 57 c then Some (c - 48)
  else if between 97 102 c then Some (c - 87)
  else if between 65 70 c then Some (c - 55)
  else None.

Definition hex4 (a b c d : char) : option N :=
  match hex_value a, hex_value b, hex_value c, hex_value d with
  | Some x, Some y, Some z, Some w => Some (((x * 16 + y) * 16 + z) * 16 + w)
  | _, _, _, _ => None
  end.

(** The one-character escapes of a JSON string. *)
Definition unescape (e : char) : option char :=
  if (e =? 34) || (e =? 92) || (e =? 47) then Some e
  else if e =? 98 then Some 8
  else if e =? 102 then Some 12
  else if e =? 110 then Some 10
  else if e =? 114 then Some 13
  else if e =? 116 then Some 9
  else None.

Definition join_surrogates (hi lo : N) : N :=
  65536 + N.lor (N.shiftl (hi - 55296) 10) (lo - 56320).

(** [scanstring], strict: the text after the opening quote, up to the
    closing one. *)
Fixpoint scanstring (s acc : str) : scan str :=
  match s with
  | [] => Invalid
  | c :: t =>
      if c =? 34 then Found (rev acc) t
      else if c =? 92 then
        match t with
        | [] => Invalid
        | e :: t1 =>
            if e =? 117 then
              match t1 with
              | h1 :: h2 :: h3 :: h4 :: t2 =>
                  match hex4 h1 h2 h3 h4 with
                  | None => Invalid
                  | Some u =>
                      if between 55296 56319 u then
                        match t2 with
                        | b :: v :: l1 :: l2 :: l3 :: l4 :: t3 =>
                            if (b =? 92) && (v =? 117) then
                              match hex4 l1 l2 l3 l4 with
                              | None => Invalid
                              | Some u2 =>
                                  if between 56320 57343 u2
                                  then scanstring t3 (join_surrogates u u2 :: acc)
                                  else scanstring t2 (u :: acc)
                              end
                            else scanstring t2 (u :: acc)
                        | _ => scanstring t2 (u :: acc)
                        end
                      else scanstring t2 (u :: acc)
                  end
              | _ => Invalid
              end
            else match unescape e with
                 | Some ch => scanstring t1 (ch :: acc)
                 | None => Invalid
                 end
        end
      else if c <=? 31 then Invalid
      else scanstring t (c :: acc)
  end.

Fixpoint span_digits (s : str) : str * str :=
  match s with
  | c :: t => if is_digit c then let '(ds, r) := span_digits t in (c :: ds, r)
              else ([], s)
  | [] => ([], [])
  end.

Definition digits_value (ds : str) : Z :=
  fold_left (fun acc d => (10 * acc + Z.of_N (d - 48))%Z) ds 0%Z.

(** The fraction of a number, when a dot and a digit follow. *)
Definition scan_fraction (r : str) : str * str :=
  match r with
  | dot :: ((f :: _) as t) =>
      if (dot =? 46) && is_digit f
      then let '(fs, r') := span_digits t in (dot :: fs, r')
      else ([], r)
  | _ => ([], r)
  end.

(** The exponent of a number, given up when no digit follows. *)
Definition scan_exponent (r : str) : str * str :=
  match r with
  | e :: t =>
      if (e =? 101) || (e =? 69) then
        let '(sign, t') :=
          match t with
          | sg :: t'' => if (sg =? 43) || (sg =? 45) then ([sg], t'') else ([], t)
          | [] => ([], t)
          end in
        let '(ds, r') := span_digits t' in
        match ds with
        | [] => ([], r)
        | _ :: _ => (e :: sign ++ ds, r')
        end
      else ([], r)
  | [] => ([], r)
  end.

(** A JSON number: an optional minus sign, an integer part without
    leading zeros, an optional fraction and an optional exponent. *)
Definition match_number (s : str) : option (json * str) :=
  let '(neg, s1) :=
    match s with
    | c :: t => if c =? 45 then (true, t) else (false, s)
    | [] => (false, s)
    end in
  let int_part :=
    match s1 with
    | d :: t =>
        if between 49 57 d then let '(ds, r) := span_digits t in Some (d :: ds, r)
        else if d =? 48 then Some ([d], t)
        else None
    | [] => None
    end in
  match int_part with
  | None => None
  | Some (ip, r) =>
      let '(frac, r1) := scan_fraction r in
      let '(ex, r2) := scan_exponent r1 in
      match frac, ex with
      | [], [] => Some (JInt (if neg then - digits_value ip else digits_value ip)%Z, r2)
      | _, _ => Some (JFloat ((if neg then [45] else []) ++ ip ++ frac ++ ex), r2)
      end
  end.

(** The literals [null], [true], [false], [NaN], [Infinity], [-Infinity]. *)
Definition scan_constant (s : str) : option (json * str) :=
  if startswith (lit "null") s then Some (JNull, drop 4 s)
  else if startswith (lit "true") s then Some (JBool true, drop 4 s)
  else if startswith (lit "false") s then Some (JBool false, drop 5 s)
  else if startswith (lit "NaN") s then Some (JFloat (lit "NaN"), drop 3 s)
  else if startswith (lit "Infinity") s then Some (JFloat (lit "Infinity"), drop 8 s)
  else if startswith (lit "-Infinity") s then Some (JFloat (lit "-Infinity"), drop 9 s)
  else None.

(** [scan_once], with the object and array loops; [fuel] bounds the depth
    of the recursion. *)
Fixpoint scan_once (fuel : nat) (s : str) : scan json :=
  match fuel with
  | O => Exhausted
  | S fuel =>
      match s with
      | [] => Invalid
      | c :: t =>
          if c =? 34 then
            match scanstring t [] with
            | Found k r => Found (JStr k) r
            | Invalid => Invalid
            | Exhausted => Exhausted
            end
          else if c =? 123 then
            match skip_ws t with
            | c1 :: t1 =>
                if c1 =? 125 then Found (JDict []) t1
                else if c1 =? 34 then scan_members fuel t1 []
                else Invalid
            | [] => Invalid
            end
          else if c =? 91 then
            match skip_ws t with
            | c1 :: t1 =>
                if c1 =? 93 then Found (JList []) t1
                else scan_elements fuel (c1 :: t1) []
            | [] => Invalid
            end
          else
            match scan_constant s with
            | Some (v, r) => Found v r
            | None =>
                match match_number s with
                | Some (v, r) => Found v r
                | None => Invalid
                end
            end
      end
  end
with scan_members (fuel : nat) (s : str) (acc : list (str * json)) : scan json :=
  match fuel with
  | O => Exhausted
  | S fuel =>
      match scanstring s [] with
      | Found key r =>
          match skip_ws r with
          | colon :: r1 =>
              if colon =? 58 then
                match scan_once fuel (skip_ws r1) with
                | Found v r2 =>
                    let acc := dict_set acc key v in
                    match skip_ws r2 with
                    | c :: r3 =>
                        if c =? 125 then Found (JDict acc) r3
                        else if c =? 44 then
                          match skip_ws r3 with
                          | q :: r4 =>
                              if q =? 34 then scan_members fuel r4 acc else Invalid
                          | [] => Invalid
                          end
                        else Invalid
                    | [] => Invalid
                    end
                | Invalid => Invalid
                | Exhausted => Exhausted
                end
              else Invalid
          | [] => Invalid
          end
      | Invalid => Invalid
      | Exhausted => Exhausted
      end
  end
with scan_elements (fuel : nat) (s : str) (acc : list json) : scan json :=
  match fuel with
  | O => Exhausted
  | S fuel =>
      match scan_once fuel s with
      | Found v r =>
          let acc := acc ++ [v] in
          match skip_ws r with
          | c :: r1 =>
              if c =? 93 then Found (JList acc) r1
              else if c =? 44 then scan_elements fuel (skip_ws r1) acc
              else Invalid
          | [] => Invalid
          end
      | Invalid => Invalid
      | Exhausted => Exhausted
      end
  end.

(** [json.loads(s)]: [None] stands for [json.JSONDecodeError]. Two units
    of fuel for each character are more than the scanner can use. *)
Definition json_loads (s : str) : option json :=
  if startswith [65279] s then None
  else match scan_once (S (2 * length s)) (skip_ws s) with
       | Found v r => match skip_ws r with [] => Some v | _ :: _ => None end
       | Invalid | Exhausted => None
       end.

(** ** The artifact store *)

(** A path is its list of components, relative to the working directory. *)
Definition path := list str.

Definition specs : str := lit "specs".

(** [str(p)] *)
Fixpoint path_str (p : path) : str :=
  match p with
  | [] => lit "."
  | [c] => c
  | c :: p' => c ++ lit "/" ++ path_str p'
  end.

(** What a name inside a feature directory refers to: a regular file, with
    the text [read_text] returns or the [str(e)] of the exception it raises,
    or a directory, which can be neither read nor written as a file. *)
Inductive fnode :=
| File (read : str + str)
| Folder (why : str).

Inductive entry_kind :=
| NotDir
| Dir (children : list (str * fnode)).

(** An entry of the store root, in the order [iterdir] lists them. *)
Record entry := { ename : str; kind : entry_kind }.

(** The store root [specs/]: absent, or its entries. The file system
    outside the store root is not part of the model. *)
Definition store := option (list entry).

Definition is_dir (e : entry) : bool :=
  match kind e with Dir _ => true | NotDir => false end.

Section FileManager.
Context (rt : runtime).

(** [\d] of a [str] pattern, with the value [int] gives the digit. *)
Definition digit_value (c : char) : option Z :=
  if c <? 128 then (if is_digit c then Some (Z.of_N (c - 48)) else None)
  else Z.of_N <$> decimal rt c.

Fixpoint leading_digits (s : str) : list Z * str :=
  match s with
  | [] => ([], [])
  | c :: t =>
      match digit_value c with
      | Some d => let '(ds, r) := leading_digits t in (d :: ds, r)
      | None => ([], s)
      end
  end.

(** [int] of a run of decimal digits. *)
Definition int_of_digits (ds : list Z) : Z :=
  fold_left (fun acc d => 10 * acc + d)%Z ds 0%Z.

(** [re.match(r"^(\d+)-", name)] and, when it matches,
    [int(match.group(1))]. *)
Definition match_spec_number (name : str) : option Z :=
  match leading_digits name with
  | (d :: ds, c :: _) => if is_hyphen c then Some (int_of_digits (d :: ds)) else None
  | _ => None
  end.

(** [max(best :: l, key=key)]: the first of the greatest elements. *)
Fixpoint max_by {A} (key : A -> Z) (best : A) (l : list A) : A :=
  match l with
  | [] => best
  | x :: t => max_by key (if (key best <? key x)%Z then x else best) t
  end.

(** [get_next_spec_number] *)
Definition get_next_spec_number (specs_dir : store) : Z :=
  match specs_dir with
  | None => 1
  | Some entries =>
      let existing_specs := List.filter is_dir entries in
      match existing_specs with
      | [] => 1
      | _ :: _ =>
          let numbers := omap (fun d => match_spec_number (ename d)) existing_specs in
          match numbers with
          | n :: ns => max_by id n ns + 1
          | [] => 1
          end
      end
  end%Z.

(** The local function [get_spec_number] of [find_latest_spec]. *)
Definition get_spec_number (spec_dir : entry) : Z :=
  match match_spec_number (ename spec_dir) with
  | Some n => n
  | None => 0%Z
  end.

(** [max(existing_specs, key=get_spec_number)] in [find_latest_spec]. *)
Definition latest_entry (specs_dir : store) : option entry :=
  match specs_dir with
  | None => None
  | Some entries =>
      match List.filter is_dir entries with
      | [] => None
      | d :: ds => Some (max_by get_spec_number d ds)
      end
  end.

(** [find_latest_spec] *)
Definition find_latest_spec (specs_dir : store) : option path :=
  (fun d => [specs; ename d]) <$> latest_entry specs_dir.

End FileManager.

(** [f"{n:03d}"] for a number that is not negative. *)
Definition format_03d (n : Z) : str :=
  let ds := lit (NilEmpty.string_of_uint (N.to_uint (Z.to_N n))) in
  let ds := match ds with [] => lit "0" | _ :: _ => ds end in
  repeat 48 (3 - length ds)%nat ++ ds.

Definition entry_named (d : str) (e : entry) : bool := str_eqb (ename e) d.

(** The node a path of the store refers to, if any. *)
Definition children_of (st : store) (d : str) : option (list (str * fnode)) :=
  match st with
  | None => None
  | Some entries =>
      match List.find (entry_named d) entries with
      | Some {| kind := Dir ch |} => Some ch
      | _ => None
      end
  end.

Definition file_at (st : store) (p : path) : option fnode :=
  match p with
  | [r; d; f] =>
      if str_eqb r specs
      then match children_of st d with Some ch => dict_get ch f | None => None end
      else None
  | _ => None
  end.

(** [read_text] on an existing node. *)
Definition read_text (n : fnode) : str + str :=
  match n with
  | File r => r
  | Folder why => inr why
  end.

Fixpoint update_entry (d : str) (k : entry_kind) (entries : list entry) : list entry :=
  match entries with
  | [] => []
  | e :: es =>
      if entry_named d e then {| ename := d; kind := k |} :: es
      else e :: update_entry d k es
  end.

(** ** Exceptions and effects *)

Inductive exn :=
| KeyError | TypeError | AttributeError   (* raised by the interpreter *)
| OSError                                 (* raised by the file system *)
| GatewayError.                           (* raised by the model client *)

Inductive res (A : Type) :=
| Ret (a : A)
| Raise (e : exn).
Arguments Ret {A} a.
Arguments Raise {A} e.

(** A computation that reads and writes the store and may raise. *)
Definition M (A : Type) : Type := store -> res A * store.

Definition ret {A} (a : A) : M A := fun st => (Ret a, st).
Definition raise {A} (e : exn) : M A := fun st => (Raise e, st).
Definition bind {A B} (c : M A) (k : A -> M B) : M B :=
  fun st => match c st with
            | (Ret a, st') => k a st'
            | (Raise e, st') => (Raise e, st')
            end.
Definition get_store : M store := fun st => (Ret st, st).
Definition put_store (st : store) : M unit := fun _ => (Ret tt, st).

Notation "'let!' x ':=' c 'in' k" := (bind c (fun x => k))
  (at level 10, x pattern, c at level 100, k at level 200, only parsing).

(** [d.mkdir(parents=True, exist_ok=True)] for the store root. *)
Definition mkdir_root : M unit :=
  let! st := get_store in
  match st with
  | None => put_store (Some [])
  | Some _ => ret tt
  end.

(** [p.mkdir(parents=True, exist_ok=True)] for [p = specs/d]. *)
Definition mkdir_spec (d : str) : M unit :=
  let! _ := mkdir_root in
  let! st := get_store in
  let entries := default [] st in
  match List.find (entry_named d) entries with
  | Some e => if is_dir e then ret tt else raise OSError
  | None => put_store (Some (entries ++ [{| ename := d; kind := Dir [] |}]))
  end.

(** [p.write_text(content)] for [p = specs/d/f], the directory existing. *)
Definition write_text (d f content : str) : M unit :=
  let! st := get_store in
  match children_of st d with
  | None => raise OSError
  | Some ch =>
      match dict_get ch f with
      | Some (Folder _) => raise OSError
      | _ => put_store (Some (update_entry d (Dir (dict_set ch f (File (inl content))))
                                (default [] st)))
      end
  end.

(** ** Pipeline state *)

(** A question-and-answer pair as [update_specification] builds it: the
    dictionary with the keys [id], [question] and [answer]. *)
Record qa_pair := { qa_id : json; qa_question : json; qa_answer : str }.

(** The values a state dictionary holds. *)
Inductive value :=
| VNone
| VStr (s : str)
| VInt (n : Z)
| VPath (p : path)
| VJson (j : json)
| VAnswers (m : gmap Z str).

(** A pipeline state and the update a node returns are dictionaries from
    field names to values. *)
Abbreviation pstate := (gmap string value).

Definition item (k : string) (v : value) : string * value := (k, v).

(** A dictionary display [{k1: v1, ...}]. *)
Definition dict (items : list (string * value)) : pstate := list_to_map items.

(** [state.get(k)] *)
Definition get (state : pstate) (k : string) : value := default VNone (state !! k).

(** [state.get(k, d)] *)
Definition get_or (state : pstate) (k : string) (d : value) : value :=
  default d (state !! k).

(** [state[k]] *)
Definition getitem (state : pstate) (k : string) : M value :=
  match state !! k with
  | Some v => ret v
  | None => raise KeyError
  end.

(** The state after a node returned [update]: its keys are overwritten. *)
Definition merge (update state : pstate) : pstate := update ∪ state.

(** The prompt handed to the model, by the function of [specgraph/prompts]
    that builds it and the values it formats into its template. *)
Inductive prompt :=
| get_specify_prompt (feature_description : value)
| get_plan_prompt (specification technical_constraints : value)
| get_tasks_prompt (specification plan : value)
| get_analysis_prompt (specification : value)
| get_update_prompt (specification : value) (qa_pairs : list qa_pair).

(** [v / name] *)
Definition path_div (v : value) (name : str) : M path :=
  match v with
  | VPath p => ret (p ++ [name])
  | _ => raise TypeError
  end.

(** [save_markdown] of file_manager.py. *)
Definition save_markdown (content : value) (file_path : path) : M unit :=
  match file_path with
  | [r; d; f] =>
      if str_eqb r specs then
        let! _ := mkdir_spec d in
        match content with
        | VStr text => write_text d f text
        | _ => raise TypeError
        end
      else raise OSError
  | _ => raise OSError
  end.

(** A node of a workflow graph with its outgoing edge: the node function,
    and whether the edge leads on to the next node of the pipeline ([true])
    or to [END]. The four graphs are paths from [START] to [END] whose
    conditional edges have [END] as their other target. *)
Record node := {
  node_name : string;
  node_fn : pstate -> M pstate;
  node_next : pstate -> bool
}.

(** An unconditional edge. *)
Definition always (state : pstate) : bool := true.

(** [workflow.invoke]: the final state and the names of the nodes run. *)
Fixpoint run_chain (nodes : list node) (state : pstate) (visited : list string)
  : M (pstate * list string) :=
  match nodes with
  | [] => ret (state, visited)
  | n :: rest =>
      let! update := node_fn n state in
      let state := merge update state in
      let visited := visited ++ [node_name n] in
      if node_next n state then run_chain rest state visited
      else ret (state, visited)
  end.

Section Common.
Context (rt : runtime).
(** The model client: the text of the first content block of the response
    to a prompt, or [None] when the call raises. *)
Context (gateway : prompt -> option str).

Definition invoke (p : prompt) : M str :=
  match gateway p with
  | Some text => ret text
  | None => raise GatewayError
  end.

(** Truth value of a decoded JSON value. *)
Definition json_truthy (j : json) : bool :=
  match j with
  | JNull => false
  | JBool b => b
  | JInt n => negb (n =? 0)%Z
  | JFloat tok => negb (bool_decide (float_int_value rt tok = Some 0%Z))
  | JStr s => negb (bool_decide (s = []))
  | JList l => negb (bool_decide (length l = 0%nat))
  | JDict d => negb (bool_decide (length d = 0%nat))
  end.

(** Truth value of a state field. *)
Definition truthy (v : value) : bool :=
  match v with
  | VNone => false
  | VStr s => negb (bool_decide (s = []))
  | VInt n => negb (n =? 0)%Z
  | VPath _ => true
  | VJson j => json_truthy j
  | VAnswers m => negb (bool_decide (m = ∅))
  end.

(** [create_spec_directory] of file_manager.py. *)
Definition create_spec_directory (feature_name : value) : M (path * Z) :=
  let! _ := mkdir_root in
  let! st := get_store in
  let spec_number := get_next_spec_number rt st in
  let! slug := match feature_name with
               | VStr text => ret (slugify rt text)
               | _ => raise AttributeError
               end in
  let dir_name := format_03d spec_number ++ lit "-" ++ slug in
  let! _ := mkdir_spec dir_name in
  ret ([specs; dir_name], spec_number).

End Common.

(** ** specify.py *)

Module Specify.
Section Workflow.
Context (rt : runtime) (gateway : prompt -> option str).

Definition analyze_input (state : pstate) : M pstate :=
  match get_or state "feature_description" (VStr []) with
  | VStr text =>
      let feature_desc := strip text in
      if bool_decide (feature_desc = []) then
        ret (dict [item "error" (VStr (lit "Feature description cannot be empty"))])
      else if (length feature_desc <? 10)%nat then
        ret (dict [item "error"
          (VStr (lit "Feature description is too short (minimum 10 characters)"))])
      else ret (dict [item "error" VNone])
  | _ => raise AttributeError
  end.

Definition generate_specification (state : pstate) : M pstate :=
  if truthy rt (get state "error") then ret (dict [])
  else
    let! feature_description := getitem state "feature_description" in
    let user_prompt := get_specify_prompt feature_description in
    let! specification := invoke gateway user_prompt in
    ret (dict [item "specification" (VStr specification)]).

Definition save_specification (state : pstate) : M pstate :=
  if truthy rt (get state "error") then ret (dict [])
  else
    let! feature_description := getitem state "feature_description" in
    let! (spec_path, spec_number) := create_spec_directory rt feature_description in
    let spec_file := spec_path ++ [lit "specification.md"] in
    let! specification := getitem state "specification" in
    let! _ := save_markdown specification spec_file in
    ret (dict [item "spec_path" (VPath spec_path); item "spec_number" (VInt spec_number)]).

(** [should_continue] of specify.py, plan.py and tasks.py. *)
Definition should_continue (state : pstate) : bool :=
  negb (truthy rt (get state "error")).

Definition build_specify_workflow : list node :=
  [ {| node_name := "analyze"; node_fn := analyze_input; node_next := should_continue |};
    {| node_name := "generate"; node_fn := generate_specification; node_next := always |};
    {| node_name := "save"; node_fn := save_specification; node_next := always |} ].

Definition run_specify (feature_description : str) : M (pstate * list string) :=
  let initial_state :=
    dict [item "feature_description" (VStr feature_description);
          item "specification" (VStr []);
          item "spec_path" (VPath []);
          item "spec_number" (VInt 0);
          item "error" VNone] in
  run_chain build_specify_workflow initial_state [].

End Workflow.
End Specify.

(** ** plan.py *)

Module Plan.
Section Workflow.
Context (rt : runtime) (gateway : prompt -> option str).

Definition load_specification (state : pstate) : M pstate :=
  let! st := get_store in
  match find_latest_spec rt st with
  | None =>
      ret (dict [item "error"
        (VStr (lit "No specifications found. Run 'acpctl specify' first."))])
  | Some spec_path =>
      let spec_file := spec_path ++ [lit "specification.md"] in
      match file_at st spec_file with
      | None =>
          ret (dict [item "error"
            (VStr (lit "Specification file not found at " ++ path_str spec_file
                   ++ lit ". Run 'acpctl specify' first."))])
      | Some spec_node =>
          match read_text spec_node with
          | inr e =>
              ret (dict [item "error" (VStr (lit "Failed to read specification: " ++ e))])
          | inl specification =>
              ret (dict [item "spec_path" (VPath spec_path);
                         item "specification" (VStr specification);
                         item "error" VNone])
          end
      end
  end.

Definition generate_plan (state : pstate) : M pstate :=
  if truthy rt (get state "error") then ret (dict [])
  else
    let! specification := getitem state "specification" in
    let user_prompt :=
      get_plan_prompt specification (get_or state "technical_constraints" (VStr [])) in
    let! plan := invoke gateway user_prompt in
    ret (dict [item "plan" (VStr plan)]).

Definition save_plan (state : pstate) : M pstate :=
  if truthy rt (get state "error") then ret (dict [])
  else
    let! spec_path := getitem state "spec_path" in
    let! plan_file := path_div spec_path (lit "plan.md") in
    let! plan := getitem state "plan" in
    let! _ := save_markdown plan plan_file in
    ret (dict [item "plan_file" (VPath plan_file)]).

Definition should_continue (state : pstate) : bool :=
  negb (truthy rt (get state "error")).

Definition build_plan_workflow : list node :=
  [ {| node_name := "load"; node_fn := load_specification; node_next := should_continue |};
    {| node_name := "generate"; node_fn := generate_plan; node_next := always |};
    {| node_name := "save"; node_fn := save_plan; node_next := always |} ].

Definition run_plan (technical_constraints : str) : M (pstate * list string) :=
  let initial_state :=
    dict [item "technical_constraints" (VStr technical_constraints);
          item "spec_path" VNone;
          item "specification" (VStr []);
          item "plan" (VStr []);
          item "plan_file" VNone;
          item "error" VNone] in
  run_chain build_plan_workflow initial_state [].

End Workflow.
End Plan.

(** ** tasks.py *)

Module Tasks.
Section Workflow.
Context (rt : runtime) (gateway : prompt -> option str).

Definition load_plan (state : pstate) : M pstate :=
  let! st := get_store in
  match find_latest_spec rt st with
  | None =>
      ret (dict [item "error"
        (VStr (lit "No specifications found. Run 'acpctl specify' first."))])
  | Some spec_path =>
      let spec_file := spec_path ++ [lit "specification.md"] in
      let plan_file := spec_path ++ [lit "plan.md"] in
      match file_at st spec_file with
      | None =>
          ret (dict [item "error"
            (VStr (lit "Specification file not found at " ++ path_str spec_file
                   ++ lit ". Run 'acpctl specify' first."))])
      | Some spec_node =>
          match file_at st plan_file with
          | None =>
              ret (dict [item "error"
                (VStr (lit "Plan file not found at " ++ path_str plan_file
                       ++ lit ". Run 'acpctl plan' first."))])
          | Some plan_node =>
              match read_text spec_node, read_text plan_node with
              | inl specification, inl plan =>
                  ret (dict [item "spec_path" (VPath spec_path);
                             item "specification" (VStr specification);
                             item "plan" (VStr plan);
                             item "error" VNone])
              | inr e, _ | inl _, inr e =>
                  ret (dict [item "error"
                    (VStr (lit "Failed to read specification or plan: " ++ e))])
              end
          end
      end
  end.

Definition generate_tasks (state : pstate) : M pstate :=
  if truthy rt (get state "error") then ret (dict [])
  else
    let! specification := getitem state "specification" in
    let! plan := getitem state "plan" in
    let user_prompt := get_tasks_prompt specification plan in
    let! tasks := invoke gateway user_prompt in
    ret (dict [item "tasks" (VStr tasks)]).

Definition save_tasks (state : pstate) : M pstate :=
  if truthy rt (get state "error") then ret (dict [])
  else
    let! spec_path := getitem state "spec_path" in
    let! tasks_file := path_div spec_path (lit "tasks.md") in
    let! tasks := getitem state "tasks" in
    let! _ := save_markdown tasks tasks_file in
    ret (dict [item "tasks_file" (VPath tasks_file)]).

Definition should_continue (state : pstate) : bool :=
  negb (truthy rt (get state "error")).

Definition build_tasks_workflow : list node :=
  [ {| node_name := "load"; node_fn := load_plan; node_next := should_continue |};
    {| node_name := "generate"; node_fn := generate_tasks; node_next := always |};
    {| node_name := "save"; node_fn := save_tasks; node_next := always |} ].

Definition run_tasks : M (pstate * list string) :=
  let initial_state :=
    dict [item "spec_path" VNone;
          item "specification" (VStr []);
          item "plan" (VStr []);
          item "tasks" (VStr []);
          item "tasks_file" VNone;
          item "error" VNone] in
  run_chain build_tasks_workflow initial_state [].

End Workflow.
End Tasks.

(** ** clarify.py *)

Module Clarify.
Section Workflow.
Context (rt : runtime) (gateway : prompt -> option str).

Definition load_specification (state : pstate) : M pstate :=
  let! st := get_store in
  match find_latest_spec rt st with
  | None =>
      ret (dict [item "error"
        (VStr (lit "No specifications found. Run 'acpctl specify' first."))])
  | Some spec_path =>
      let spec_file := spec_path ++ [lit "specification.md"] in
      match file_at st spec_file with
      | None =>
          ret (dict [item "error"
            (VStr (lit "Specification file not found at " ++ path_str spec_file
                   ++ lit ". Run 'acpctl specify' first."))])
      | Some spec_node =>
          match read_text spec_node with
          | inr e =>
              ret (dict [item "error" (VStr (lit "Failed to read specification: " ++ e))])
          | inl specification =>
              ret (dict [item "spec_path" (VPath spec_path);
                         item "specification" (VStr specification);
                         item "error" VNone])
          end
      end
  end.

(** The extraction of the JSON payload in [analyze_and_generate_questions]. *)
Definition extract_json (response_text : str) : str :=
  if contains (lit "```json") response_text then
    let json_start := (find (lit "```json") response_text 0 + 7)%Z in
    let json_end := find (lit "```") response_text (Z.to_nat json_start) in
    strip (slice response_text json_start json_end)
  else if contains (lit "```") response_text then
    let json_start := (find (lit "```") response_text 0 + 3)%Z in
    let json_end := find (lit "```") response_text (Z.to_nat json_start) in
    strip (slice response_text json_start json_end)
  else response_text.

Definition analyze_and_generate_questions (state : pstate) : M pstate :=
  if truthy rt (get state "error") then ret (dict [])
  else
    let! specification := getitem state "specification" in
    let prompt := get_analysis_prompt specification in
    let! response_text := invoke gateway prompt in
    let response_text := extract_json response_text in
    match json_loads response_text with
    | None =>
        ret (dict [item "error"
          (VStr (lit "Failed to parse questions from Claude response: "
                 ++ json_error_msg rt response_text))])
    | Some (JDict questions_data) =>
        let questions := default (JList []) (dict_get questions_data (lit "questions")) in
        ret (dict [item "questions" (VJson questions)])
    | Some _ => raise AttributeError
    end.

(** [for question in questions]: the elements of a list, the keys of a
    dictionary, the characters of a string. *)
Definition json_iter (questions : value) : M (list json) :=
  match questions with
  | VJson (JList l) => ret l
  | VJson (JDict d) => ret (List.map (fun kv => JStr (fst kv)) d)
  | VJson (JStr s) => ret (List.map (fun c => JStr [c]) s)
  | _ => raise TypeError
  end.

(** [question[k]] *)
Definition json_getitem (question : json) (k : str) : M json :=
  match question with
  | JDict d =>
      match dict_get d k with
      | Some v => ret v
      | None => raise KeyError
      end
  | _ => raise TypeError
  end.

(** [answers[question_id]] when [question_id in answers], for an Answer Map
    with integer keys: an id is found under the integer it is equal to. *)
Definition answer_for (question_id : json) (answers : value) : M (option str) :=
  match answers with
  | VAnswers m =>
      match question_id with
      | JInt n => ret (m !! n)
      | JBool b => ret (m !! (if b then 1 else 0)%Z)
      | JFloat tok =>
          ret (match float_int_value rt tok with Some n => m !! n | None => None end)
      | JNull | JStr _ => ret None
      | JList _ | JDict _ => raise TypeError
      end
  | _ => raise TypeError
  end.

(** The loop of [update_specification] that builds [qa_pairs]. *)
Fixpoint build_qa_pairs (questions : list json) (answers : value) : M (list qa_pair) :=
  match questions with
  | [] => ret []
  | question :: rest =>
      let! question_id := json_getitem question (lit "id") in
      let! answer := answer_for question_id answers in
      match answer with
      | Some a =>
          let! text := json_getitem question (lit "question") in
          let! qa_pairs := build_qa_pairs rest answers in
          ret ({| qa_id := question_id; qa_question := text; qa_answer := a |} :: qa_pairs)
      | None => build_qa_pairs rest answers
      end
  end.

(** The removal of a wrapping code fence in [update_specification]. *)
Definition strip_fence (updated_spec : str) : str :=
  let updated_spec :=
    if startswith (lit "```markdown") updated_spec then
      let updated_spec := slice_from updated_spec 11 in
      if endswith (lit "```") updated_spec then slice_to updated_spec (-3)
      else updated_spec
    else if startswith (lit "```") updated_spec then
      let updated_spec := slice_from updated_spec 3 in
      if endswith (lit "```") updated_spec then slice_to updated_spec (-3)
      else updated_spec
    else updated_spec in
  strip updated_spec.

Definition update_specification (state : pstate) : M pstate :=
  if truthy rt (get state "error") || negb (truthy rt (get state "answers"))
  then ret (dict [])
  else
    let! questions := getitem state "questions" in
    let! questions := json_iter questions in
    let! qa_pairs := build_qa_pairs questions (get state "answers") in
    match qa_pairs with
    | [] =>
        ret (dict [item "error"
          (VStr (lit "No answers provided to update specification"))])
    | _ :: _ =>
        let! specification := getitem state "specification" in
        let prompt := get_update_prompt specification qa_pairs in
        let! updated_spec := invoke gateway prompt in
        ret (dict [item "updated_spec" (VStr (strip_fence updated_spec))])
    end.

Definition save_specification (state : pstate) : M pstate :=
  if truthy rt (get state "error") then ret (dict [])
  else
    let! spec_path := getitem state "spec_path" in
    let! spec_file := path_div spec_path (lit "specification.md") in
    let! updated_spec := getitem state "updated_spec" in
    let! _ := save_markdown updated_spec spec_file in
    ret (dict []).

Definition should_continue_after_load (state : pstate) : bool :=
  negb (truthy rt (get state "error")).

Definition should_continue_after_analyze (state : pstate) : bool :=
  if truthy rt (get state "error") then false
  else if negb (truthy rt (get state "questions")) then false
  else if truthy rt (get state "answers") then true
  else false.

Definition should_continue_after_update (state : pstate) : bool :=
  negb (truthy rt (get state "error")).

Definition build_clarify_workflow : list node :=
  [ {| node_name := "load"; node_fn := load_specification;
       node_next := should_continue_after_load |};
    {| node_name := "analyze"; node_fn := analyze_and_generate_questions;
       node_next := should_continue_after_analyze |};
    {| node_name := "update"; node_fn := update_specification;
       node_next := should_continue_after_update |};
    {| node_name := "save"; node_fn := save_specification; node_next := always |} ].

Definition run_clarify (answers : option (gmap Z str)) : M (pstate * list string) :=
  let initial_state :=
    dict [item "spec_path" VNone;
          item "specification" (VStr []);
          item "questions" VNone;
          item "answers" (match answers with Some m => VAnswers m | None => VNone end);
          item "updated_spec" (VStr []);
          item "error" VNone] in
  run_chain build_clarify_workflow initial_state [].

End Workflow.
End Clarify.

(** ** Statements about slugs *)

(** The text [slugify] truncates: everything but the last step. *)
Definition slug_before_truncation (rt : runtime) (text : str) : str :=
  strip_chars is_hyphen
    (re_sub_runs is_hyphen (lit "-")
       (List.filter is_slug_char
          (re_sub_runs is_space_or_underscore (lit "-") (lower rt text)))).

(** A 51-character name, 49 times [a] then [-b], and a 51-character title,
    49 times [A], a space and [B]. *)
Definition long_name : str := repeat 97 49 ++ lit "-b".
Definition long_title : str := repeat 65 49 ++ lit " B".


(** ** Statements about the store *)

(** The leading integers of the directories of a store root. *)
Definition spec_numbers (rt : runtime) (specs_dir : store) : list Z :=
  omap (fun d => match_spec_number rt (ename d)) (List.filter is_dir (default [] specs_dir)).

Definition dir_named (name : string) : entry := {| ename := lit name; kind := Dir [] |}.

(** The reading of "never preferred" under which an unnumbered directory
    is never returned while a directory with a leading integer exists. *)
Definition never_prefers_unnumbered (rt : runtime) : Prop :=
  forall entries d e,
    latest_entry rt (Some entries) = Some d ->
    In e entries -> is_dir e = true ->
    match_spec_number rt (ename e) <> None ->
    match_spec_number rt (ename d) <> None.

(** A store root with two numbered directories, a plain file and an
    unnumbered directory. *)
Definition sample_store : store :=
  Some [ dir_named "002-login";
         {| ename := lit "README.md"; kind := NotDir |};
         dir_named "notes";
         dir_named "007-search" ].

(** A scan settles below [n]: it did not run out of fuel, and what it left
    of the text is shorter than [n]. *)
Definition settles {A} (x : scan A) (n : nat) : Prop :=
  x <> Exhausted /\ forall v r, x = Found v r -> (length r < n)%nat.

(** ** Statements about the pipelines *)

(** The four workflow graphs. *)
Definition pipelines (rt : runtime) (gateway : prompt -> option str) : list (list node) :=
  [ Specify.build_specify_workflow rt gateway;
    Plan.build_plan_workflow rt gateway;
    Tasks.build_tasks_workflow rt gateway;
    Clarify.build_clarify_workflow rt gateway ].

(** The error field of a state is set. *)
Definition error_set (rt : runtime) (state : pstate) : bool :=
  truthy rt (get state "error").

(** A node that does nothing once the error field is set: it returns the
    empty update, leaves the store alone and calls nothing. *)
Definition skips_on_error (rt : runtime) (n : node) : Prop :=
  forall state st, error_set rt state = true -> node_fn n state st = (Ret (dict []), st).

(** A gateway whose every call raises. *)
Definition silent_gateway : prompt -> option str := fun _ => None.

Definition empty_message : str := lit "Feature description cannot be empty".
Definition too_short_message : str :=
  lit "Feature description is too short (minimum 10 characters)".

(** ** Statements about Clarify *)

Definition fence_json : str := lit "```json".
Definition fence : str := lit "```".

(** The payload [{"questions":[]}]. *)
Definition no_questions_payload : str :=
  lit "{" ++ [dquote] ++ lit "questions" ++ [dquote] ++ lit ":[]}".

Definition parse_error (rt : runtime) (payload : str) : str :=
  lit "Failed to parse questions from Claude response: " ++ json_error_msg rt payload.

Definition spec_file_of (spec_path : path) : path := spec_path ++ [lit "specification.md"].

(** What the analyze node returns on a response text [r]. *)
Definition analysis_of (rt : runtime) (r : str) : res pstate :=
  match json_loads (Clarify.extract_json r) with
  | None => Ret (dict [item "error" (VStr (parse_error rt (Clarify.extract_json r)))])
  | Some (JDict d) =>
      Ret (dict [item "questions" (VJson (default (JList []) (dict_get d (lit "questions"))))])
  | Some _ => Raise AttributeError
  end.

(** The state of a Clarify run after a successful load. *)
Definition loaded_state (answers : option (gmap Z str)) (spec_path : path) (spec : str)
  : pstate :=
  merge (dict [item "spec_path" (VPath spec_path);
               item "specification" (VStr spec);
               item "error" VNone])
    (dict [item "spec_path" VNone;
           item "specification" (VStr []);
           item "questions" VNone;
           item "answers" (match answers with Some m => VAnswers m | None => VNone end);
           item "updated_spec" (VStr []);
           item "error" VNone]).

(** A response that wraps the payload [{"questions":[]}] in a json fence. *)
Definition no_questions_response (pre post : str) : str :=
  pre ++ fence_json ++ ([newline] ++ no_questions_payload ++ [newline]) ++ fence ++ post.

(** A store whose latest artifact set holds a readable specification. *)
Definition spec_store : store :=
  Some [{| ename := lit "001-export";
           kind := Dir [(lit "specification.md", File (inl (lit "SPEC")))] |}].

(** A gateway that answers every prompt with the same text. *)
Definition stub_gateway (text : str) : prompt -> option str := fun _ => Some text.

(** The id and the text of a well-formed Clarification Question: an object
    with an integer [id] and a [question]. *)
Definition question_parts (q : json) : option (Z * json) :=
  match q with
  | JDict d =>
      match dict_get d (lit "id"), dict_get d (lit "question") with
      | Some (JInt n), Some text => Some (n, text)
      | _, _ => None
      end
  | _ => None
  end.

Definition is_question (q : json) : bool :=
  match question_parts q with Some _ => true | None => false end.

(** The pair of a question, when its id is a key of the Answer Map. *)
Definition answered_pair (m : gmap Z str) (q : json) : option qa_pair :=
  match question_parts q with
  | Some (n, text) =>
      match m !! n with
      | Some a => Some {| qa_id := JInt n; qa_question := text; qa_answer := a |}
      | None => None
      end
  | None => None
  end.

(** One pair for each question whose id is a key of the Answer Map, in the
    order of the questions. *)
Definition answered_pairs (questions : list json) (m : gmap Z str) : list qa_pair :=
  omap (answered_pair m) questions.

(** The ids of the questions, and those of them the Answer Map answers. *)
Definition question_ids (questions : list json) : list Z :=
  omap (fun q => fst <$> question_parts q) questions.

Definition answered_ids (questions : list json) (m : gmap Z str) : list Z :=
  List.filter (fun n => bool_decide (is_Some (m !! n))) (question_ids questions).

Definition no_answers_message : str := lit "No answers provided to update specification".

(** What the update node returns once the pairs are built. *)
Definition update_of (gateway : prompt -> option str) (spec : value)
    (qa_pairs : list qa_pair) : res pstate :=
  match qa_pairs with
  | [] => Ret (dict [item "error" (VStr no_answers_message)])
  | _ :: _ =>
      match gateway (get_update_prompt spec qa_pairs) with
      | Some text => Ret (dict [item "updated_spec" (VStr (Clarify.strip_fence text))])
      | None => Raise GatewayError
      end
  end.

(** The claim read with every Answer Map, the empty one included: the
    update node fails whenever no pair is built. *)
Definition update_fails_without_pairs (rt : runtime) (gateway : prompt -> option str)
  : Prop :=
  forall state st questions m,
    error_set rt state = false ->
    state !! "questions"%string = Some (VJson (JList questions)) ->
    state !! "answers"%string = Some (VAnswers m) ->
    forallb is_question questions = true ->
    answered_pairs questions m = [] ->
    Clarify.update_specification rt gateway state st
    = (Ret (dict [item "error" (VStr no_answers_message)]), st).

Definition question (n : Z) (text : string) : json :=
  JDict [(lit "id", JInt n); (lit "question", JStr (lit text))].

(** A question list with the ids 1 and 2. *)
Definition two_questions : list json := [question 1 "Q1"; question 2 "Q2"].

(** The state of a Clarify run that reaches the update node. *)
Definition analyzed_state (questions : list json) (m : gmap Z str) : pstate :=
  merge (dict [item "questions" (VJson (JList questions))])
    (loaded_state (Some m) [specs; lit "001-export"] (lit "SPEC")).

(** ** Further statements about slugs and the store *)

(** [[a-z0-9]] *)
Definition is_slug_alnum (c : char) : bool := between 97 122 c || between 48 57 c.

(** The greatest of a list of numbers that are not negative, 0 when it is
    empty. *)
Definition greatest (l : list Z) : Z := fold_right Z.max 0%Z l.

(** The decimal digits of a number as [N.to_uint] lists them. *)
Fixpoint uint_digits (d : Decimal.uint) : list Z :=
  match d with
  | Decimal.Nil => []
  | Decimal.D0 d => 0 :: uint_digits d
  | Decimal.D1 d => 1 :: uint_digits d
  | Decimal.D2 d => 2 :: uint_digits d
  | Decimal.D3 d => 3 :: uint_digits d
  | Decimal.D4 d => 4 :: uint_digits d
  | Decimal.D5 d => 5 :: uint_digits d
  | Decimal.D6 d => 6 :: uint_digits d
  | Decimal.D7 d => 7 :: uint_digits d
  | Decimal.D8 d => 8 :: uint_digits d
  | Decimal.D9 d => 9 :: uint_digits d
  end%Z.

(** The entries of a store root, none when it is absent. *)
Definition entries_of (st : store) : list entry := default [] st.

(** A fresh, empty feature directory. *)
Definition new_dir (d : str) : entry := {| ename := d; kind := Dir [] |}.

(** Two listings of the store root agree on the names of their entries and
    on which of them are directories. *)
Definition same_listing (l l' : list entry) : Prop :=
  Forall2 (fun e e' => ename e = ename e' /\ is_dir e = is_dir e') l l'.

Definition plan_file_of (spec_path : path) : path := spec_path ++ [lit "plan.md"].
Definition tasks_file_of (spec_path : path) : path := spec_path ++ [lit "tasks.md"].

(** The text a node of the store is read as, if it is a readable file. *)
Definition readable (n : option fnode) : option str :=
  match n with
  | Some (File (inl text)) => Some text
  | _ => None
  end.

(** The specification of the latest feature directory, when the directory
    exists and the file can be read. *)
Definition latest_specification (rt : runtime) (st : store) : option str :=
  match find_latest_spec rt st with
  | Some spec_path => readable (file_at st (spec_file_of spec_path))
  | None => None
  end.

(** The name [create_spec_directory] gives the directory of a feature. *)
Definition next_dir_name (rt : runtime) (st : store) (feature_name : str) : str :=
  format_03d (get_next_spec_number rt st) ++ lit "-" ++ slugify rt feature_name.

(** A feature directory with the given files. *)
Definition dir_with (d : str) (files : list (str * str)) : entry :=
  {| ename := d; kind := Dir (List.map (fun kv => (fst kv, File (inl (snd kv)))) files) |}.

(** The plan of the latest feature directory, when the directory exists
    and the file can be read. *)
Definition latest_plan (rt : runtime) (st : store) : option str :=
  match find_latest_spec rt st with
  | Some spec_path => readable (file_at st (plan_file_of spec_path))
  | None => None
  end.

Definition spec_not_found_message (spec_path : path) : str :=
  lit "Specification file not found at " ++ path_str (spec_file_of spec_path)
  ++ lit ". Run 'acpctl specify' first.".

Definition plan_not_found_message (spec_path : path) : str :=
  lit "Plan file not found at " ++ path_str (plan_file_of spec_path)
  ++ lit ". Run 'acpctl plan' first.".

(** A store whose latest artifact set holds a specification and a plan. *)
Definition plan_store : store :=
  Some [dir_with (lit "001-export")
          [(lit "specification.md", lit "SPEC"); (lit "plan.md", lit "PLAN")]].

(** A gateway for Clarify: one answer to every analysis prompt, another to
    every update prompt, and an exception for the prompts of the other
    pipelines. *)
Definition clarify_gateway (analysis updated : str) : prompt -> option str :=
  fun p =>
    match p with
    | get_analysis_prompt _ => Some analysis
    | get_update_prompt _ _ => Some updated
    | _ => None
    end.

(** The payload of one question with the id 1 and the text [Q1]. *)
Definition one_question_payload : str :=
  lit "{" ++ [dquote] ++ lit "questions" ++ [dquote] ++ lit ":[{"
  ++ [dquote] ++ lit "id" ++ [dquote] ++ lit ":1,"
  ++ [dquote] ++ lit "question" ++ [dquote] ++ lit ":" ++ [dquote] ++ lit "Q1" ++ [dquote]
  ++ lit "}]}".

Definition fence_markdown : str := lit "```markdown".

(** * Properties *)

(** * Properties *)

(** ** Lists and text *)

Lemma drop_while_suffix {A} (p : A -> bool) (l : list A) :
  exists n, drop_while p l = drop n l.
Proof.
  induction l as [|x l [n IH]]; simpl.
  - exists 0%nat. reflexivity.
  - destruct (p x).
    + exists (S n). exact IH.
    + exists 0%nat. reflexivity.
Qed.

Lemma drop_while_head {A} (p : A -> bool) (l : list A) x t :
  drop_while p l = x :: t -> p x = false.
Proof.
  induction l as [|y l IH]; simpl; [discriminate|].
  destruct (p y) eqn:Hy; [exact IH|].
  intros [= -> _]. exact Hy.
Qed.

Lemma drop_while_id {A} (p : A -> bool) (l : list A) :
  match l with x :: _ => p x = false | [] => True end -> drop_while p l = l.
Proof. destruct l as [|x l]; simpl; [reflexivity|]. intros ->. reflexivity. Qed.

(** [strip_chars] keeps a contiguous part of the text. *)
Lemma strip_chars_infix p s :
  exists n m, strip_chars p s = take m (drop n s).
Proof.
  unfold strip_chars.
  destruct (drop_while_suffix p s) as [n ->].
  destruct (drop_while_suffix p (rev (drop n s))) as [k ->].
  exists n, (length (drop n s) - k)%nat.
  rewrite skipn_rev, rev_involutive. reflexivity.
Qed.

Lemma forallb_take {A} (p : A -> bool) n (l : list A) :
  forallb p l = true -> forallb p (take n l) = true.
Proof.
  revert n; induction l as [|x l IH]; intros [|n]; simpl; auto.
  intros [-> H]%andb_true_iff. simpl. auto.
Qed.

Lemma forallb_drop {A} (p : A -> bool) n (l : list A) :
  forallb p l = true -> forallb p (drop n l) = true.
Proof.
  revert n; induction l as [|x l IH]; intros [|n]; simpl; auto.
  intros [_ H]%andb_true_iff. auto.
Qed.

Lemma no_double_hyphen_tail c s :
  no_double_hyphen (c :: s) = true -> no_double_hyphen s = true.
Proof. destruct s; simpl; [reflexivity|]. intros [_ H]%andb_true_iff. exact H. Qed.

Lemma no_double_hyphen_drop n s :
  no_double_hyphen s = true -> no_double_hyphen (drop n s) = true.
Proof.
  revert s; induction n as [|n IH]; intros [|c s]; simpl; auto.
  intros H. apply IH. exact (no_double_hyphen_tail _ _ H).
Qed.

Lemma no_double_hyphen_take n s :
  no_double_hyphen s = true -> no_double_hyphen (take n s) = true.
Proof.
  revert s; induction n as [|n IH]; intros [|c s]; simpl; auto.
  intros H. specialize (IH s (no_double_hyphen_tail _ _ H)).
  destruct s as [|b s]; [destruct n; reflexivity|].
  destruct n as [|n]; [reflexivity|].
  simpl in *. apply andb_true_iff in H as [-> _]. exact IH.
Qed.

Lemma no_leading_hyphen_take n s :
  no_leading_hyphen s = true -> no_leading_hyphen (take n s) = true.
Proof. destruct n, s; simpl; auto. Qed.

(** ** slugify *)

Lemma sub_runs_hyphen_shape in_run s :
  let r := sub_runs_from is_hyphen (lit "-") in_run s in
  no_double_hyphen r = true /\ (in_run = true -> no_leading_hyphen r = true).
Proof.
  revert in_run; induction s as [|c s IH]; intros in_run; simpl; [auto|].
  destruct (is_hyphen c) eqn:Hc.
  - destruct (IH true) as [Hd Hl]. specialize (Hl eq_refl).
    destruct in_run; simpl; [auto|].
    split; [|discriminate].
    destruct (sub_runs_from is_hyphen (lit "-") true s) as [|b r]; [reflexivity|].
    simpl in Hl. change (lit "-" ++ b :: r) with (45 :: b :: r).
    apply negb_true_iff in Hl.
    change (negb (is_hyphen 45 && is_hyphen b) && no_double_hyphen (b :: r) = true).
    rewrite Hl, andb_false_r. exact Hd.
  - destruct (IH false) as [Hd _]. split.
    + destruct (sub_runs_from is_hyphen (lit "-") false s) as [|b r]; [reflexivity|].
      change (negb (is_hyphen c && is_hyphen b) && no_double_hyphen (b :: r) = true).
      rewrite Hc. exact Hd.
    + intros _. simpl. rewrite Hc. reflexivity.
Qed.

Lemma sub_runs_hyphen_slug_chars in_run s :
  forallb is_slug_char s = true ->
  forallb is_slug_char (sub_runs_from is_hyphen (lit "-") in_run s) = true.
Proof.
  revert in_run; induction s as [|c s IH]; intros in_run; simpl; [auto|].
  intros [Hc Hs]%andb_true_iff.
  destruct (is_hyphen c).
  - destruct in_run; [exact (IH true Hs)|].
    change (forallb is_slug_char (45 :: sub_runs_from is_hyphen (lit "-") true s) = true).
    cbn [forallb]. rewrite (IH true Hs). reflexivity.
  - cbn [forallb]. rewrite Hc, (IH false Hs). reflexivity.
Qed.

Lemma filter_slug_chars s : forallb is_slug_char (List.filter is_slug_char s) = true.
Proof.
  induction s as [|c s IH]; simpl; [reflexivity|].
  destruct (is_slug_char c) eqn:Hc; simpl; [rewrite Hc|]; exact IH.
Qed.

Lemma strip_hyphen_no_leading s :
  no_leading_hyphen (strip_chars is_hyphen s) = true.
Proof.
  unfold strip_chars.
  destruct (drop_while_suffix is_hyphen (rev (drop_while is_hyphen s))) as [k Hk].
  rewrite Hk, skipn_rev, rev_involutive.
  apply no_leading_hyphen_take.
  destruct (drop_while is_hyphen s) as [|c t] eqn:Hd; [reflexivity|].
  simpl. apply negb_true_iff. exact (drop_while_head _ _ _ _ Hd).
Qed.

Lemma strip_hyphen_no_trailing s :
  no_trailing_hyphen (strip_chars is_hyphen s) = true.
Proof.
  unfold no_trailing_hyphen, strip_chars. rewrite rev_involutive.
  destruct (drop_while is_hyphen (rev (drop_while is_hyphen s))) as [|c t] eqn:Hd;
    [reflexivity|].
  simpl. apply negb_true_iff. exact (drop_while_head _ _ _ _ Hd).
Qed.

Lemma slugify_truncates rt text :
  slugify rt text = take 50 (slug_before_truncation rt text).
Proof. reflexivity. Qed.

Lemma slug_before_truncation_shape rt text :
  let s := slug_before_truncation rt text in
  forallb is_slug_char s = true /\ no_double_hyphen s = true
  /\ no_leading_hyphen s = true /\ no_trailing_hyphen s = true.
Proof.
  cbn zeta. unfold slug_before_truncation.
  set (s3 := List.filter _ _).
  repeat split.
  - destruct (strip_chars_infix is_hyphen (re_sub_runs is_hyphen (lit "-") s3))
      as (n & m & ->).
    apply forallb_take, forallb_drop, sub_runs_hyphen_slug_chars, filter_slug_chars.
  - destruct (strip_chars_infix is_hyphen (re_sub_runs is_hyphen (lit "-") s3))
      as (n & m & ->).
    apply no_double_hyphen_take, no_double_hyphen_drop.
    apply (sub_runs_hyphen_shape false s3).
  - apply strip_hyphen_no_leading.
  - apply strip_hyphen_no_trailing.
Qed.

(** The part of the slug shape that holds for every text: the pattern, no
    leading hyphen and no doubled hyphen. *)
Lemma slugify_shape rt text :
  matches_slug_pattern (slugify rt text) = true
  /\ no_leading_hyphen (slugify rt text) = true
  /\ no_double_hyphen (slugify rt text) = true.
Proof.
  rewrite slugify_truncates.
  destruct (slug_before_truncation_shape rt text) as (Hc & Hd & Hl & _).
  repeat split.
  - unfold matches_slug_pattern. rewrite forallb_take by exact Hc. simpl.
    apply Nat.leb_le. rewrite length_take. lia.
  - apply no_leading_hyphen_take, Hl.
  - apply no_double_hyphen_take, Hd.
Qed.

(** A slug ends in a hyphen only when the truncation cut it to 50
    characters. *)
Lemma slugify_trailing_hyphen_only_truncated rt text :
  no_trailing_hyphen (slugify rt text) = true
  \/ (length (slugify rt text) = 50%nat
      /\ (50 < length (slug_before_truncation rt text))%nat).
Proof.
  rewrite slugify_truncates.
  destruct (slug_before_truncation_shape rt text) as (_ & _ & _ & Ht).
  destruct (le_lt_dec (length (slug_before_truncation rt text)) 50) as [Hle|Hlt].
  - left. rewrite take_ge by exact Hle. exact Ht.
  - right. rewrite length_take. lia.
Qed.

(** Comparisons on code points, as propositions. *)
Ltac char_props :=
  unfold is_slug_char, is_space_or_underscore, is_space, is_hyphen, is_digit,
    between in *;
  rewrite ?orb_true_iff, ?andb_true_iff, ?N.leb_le, ?N.eqb_eq, ?N.ltb_lt in *.

Lemma slug_char_not_space c :
  is_slug_char c = true -> is_space_or_underscore c = false.
Proof.
  intros H. destruct (is_space_or_underscore c) eqn:E; [exfalso|reflexivity].
  char_props. lia.
Qed.

Lemma slug_char_lower rt before_rev c after :
  is_slug_char c = true -> lower_char rt before_rev c after = [c].
Proof.
  intros H. unfold lower_char.
  assert ((c <? 128) = true) as -> by (char_props; lia).
  assert (between 65 90 c = false) as ->; [|reflexivity].
  destruct (between 65 90 c) eqn:E; [exfalso|reflexivity].
  char_props. lia.
Qed.

Lemma lower_slug_chars rt before_rev s :
  forallb is_slug_char s = true -> lower_from rt before_rev s = s.
Proof.
  revert before_rev; induction s as [|c s IH]; intros b; simpl; [reflexivity|].
  intros [Hc Hs]%andb_true_iff.
  rewrite (slug_char_lower _ _ _ _ Hc), IH by exact Hs. reflexivity.
Qed.

Lemma sub_runs_none p repl s :
  forallb (fun c => negb (p c)) s = true -> sub_runs_from p repl false s = s.
Proof.
  induction s as [|c s IH]; simpl; [reflexivity|].
  intros [Hc Hs]%andb_true_iff. apply negb_true_iff in Hc. rewrite Hc, IH by exact Hs.
  reflexivity.
Qed.

Lemma slug_chars_not_space s :
  forallb is_slug_char s = true ->
  forallb (fun c => negb (is_space_or_underscore c)) s = true.
Proof.
  induction s as [|c s IH]; [reflexivity|].
  cbn [forallb]. intros [Hc Hs]%andb_true_iff.
  rewrite (slug_char_not_space _ Hc), (IH Hs). reflexivity.
Qed.

Lemma filter_all {A} (p : A -> bool) l :
  forallb p l = true -> List.filter p l = l.
Proof.
  induction l as [|x l IH]; simpl; [reflexivity|].
  intros [-> Hl]%andb_true_iff. rewrite IH by exact Hl. reflexivity.
Qed.

Lemma sub_runs_hyphen_id s :
  no_double_hyphen s = true ->
  sub_runs_from is_hyphen (lit "-") false s = s
  /\ (no_leading_hyphen s = true -> sub_runs_from is_hyphen (lit "-") true s = s).
Proof.
  induction s as [|c s IH]; [simpl; auto|].
  intros Hd. destruct (IH (no_double_hyphen_tail _ _ Hd)) as [IHf IHt].
  cbn [sub_runs_from]. destruct (is_hyphen c) eqn:Hc.
  - assert (c = 45) as -> by (apply N.eqb_eq; exact Hc).
    assert (no_leading_hyphen s = true) as Hl.
    { destruct s as [|b s]; [reflexivity|]. simpl in Hd |- *.
      apply andb_true_iff in Hd as [Hd _]. change (45 =? 45) with true in Hd.
      simpl in Hd. exact Hd. }
    split.
    + rewrite (IHt Hl). reflexivity.
    + simpl. discriminate.
  - rewrite IHf. auto.
Qed.

Lemma strip_chars_id p s :
  match s with c :: _ => p c = false | [] => True end ->
  match rev s with c :: _ => p c = false | [] => True end ->
  strip_chars p s = s.
Proof.
  intros Hl Ht. unfold strip_chars.
  rewrite (drop_while_id p s Hl), (drop_while_id p (rev s) Ht).
  apply rev_involutive.
Qed.

Lemma no_leading_hyphen_head s :
  no_leading_hyphen s = true ->
  match s with c :: _ => is_hyphen c = false | [] => True end.
Proof. destruct s; simpl; [auto|]. apply negb_true_iff. Qed.

(** A text that already has the shape of a slug is left as it is. *)
Lemma slugify_fixed rt s :
  forallb is_slug_char s = true -> (length s <= 50)%nat ->
  no_double_hyphen s = true -> no_leading_hyphen s = true ->
  no_trailing_hyphen s = true ->
  slugify rt s = s.
Proof.
  intros Hc Hlen Hd Hl Ht. unfold slugify, lower, re_sub_runs.
  rewrite lower_slug_chars by exact Hc.
  rewrite (sub_runs_none is_space_or_underscore) by (apply slug_chars_not_space; exact Hc).
  rewrite filter_all by exact Hc.
  rewrite (proj1 (sub_runs_hyphen_id s Hd)).
  rewrite strip_chars_id.
  - apply take_ge. exact Hlen.
  - apply no_leading_hyphen_head, Hl.
  - apply no_leading_hyphen_head, Ht.
Qed.

(** [slugify] is idempotent on every text whose slug does not end in a
    hyphen, hence on every text whose slug was not truncated. *)
Lemma slugify_idempotent_unless_trailing rt text :
  no_trailing_hyphen (slugify rt text) = true ->
  slugify rt (slugify rt text) = slugify rt text.
Proof.
  intros Ht. destruct (slugify_shape rt text) as (Hp & Hl & Hd).
  apply andb_true_iff in Hp as [Hc Hlen]. apply Nat.leb_le in Hlen.
  apply slugify_fixed; assumption.
Qed.

(** C1 (code defect). [slugify] truncates after it has stripped the
    hyphens: on the 51-character text aaa...a-b (49 times a) the slug is
    cut after the hyphen, and a second application strips that hyphen, so
    [slugify(slugify(x))] differs from [slugify(x)]. *)
Theorem slugify_not_idempotent_after_truncation rt :
  slugify rt long_name = repeat 97 49 ++ lit "-"
  /\ slugify rt (slugify rt long_name) = repeat 97 49
  /\ slugify rt (slugify rt long_name) <> slugify rt long_name.
Proof.
  assert (slugify rt long_name = repeat 97 49 ++ lit "-") as E1 by reflexivity.
  assert (slugify rt (repeat 97 49 ++ lit "-") = repeat 97 49) as E2 by reflexivity.
  rewrite E1, E2. repeat split. discriminate.
Qed.

(** C2 (code defect). The slug of a 51-character title (49 times A, a
    space, B) matches the pattern and has no leading or doubled hyphen, but
    it ends in a hyphen: the truncation to 50 characters comes after the
    hyphens were stripped. *)
Theorem slugify_trailing_hyphen_after_truncation rt :
  slugify rt long_title = repeat 97 49 ++ lit "-"
  /\ matches_slug_pattern (slugify rt long_title) = true
  /\ no_trailing_hyphen (slugify rt long_title) = false.
Proof.
  assert (slugify rt long_title = repeat 97 49 ++ lit "-") as -> by reflexivity.
  repeat split.
Qed.

(** ** The artifact store *)

Section MaxBy.
Context {A : Type} (key : A -> Z).

Lemma max_by_split (best : A) (l : list A) :
  exists before after,
    best :: l = before ++ max_by key best l :: after
    /\ Forall (fun x => (key x < key (max_by key best l))%Z) before
    /\ Forall (fun x => (key x <= key (max_by key best l))%Z) after.
Proof.
  revert best; induction l as [|x l IH]; intros best; simpl.
  - exists [], []. repeat split; constructor.
  - destruct (Z.ltb_spec (key best) (key x)) as [Hlt|Hge].
    + destruct (IH x) as (before & after & E & Hb & Ha).
      exists (best :: before), after. split; [simpl; rewrite E; reflexivity|].
      split; [|exact Ha]. constructor; [|exact Hb].
      assert (key x <= key (max_by key x l))%Z; [|lia].
      destruct before as [|y before]; simpl in E.
      * injection E as E _. rewrite <- E. lia.
      * injection E as E _. subst y. inversion Hb; subst. lia.
    + destruct (IH best) as (before & after & E & Hb & Ha).
      destruct before as [|y before]; simpl in E.
      * injection E as E1 E2. exists [], (x :: after).
        split; [simpl; f_equal; [exact E1|f_equal; exact E2]|].
        split; [constructor|]. constructor; [|exact Ha]. rewrite <- E1. lia.
      * injection E as E1 E2. subst y. exists (best :: x :: before), after.
        split; [simpl; do 2 f_equal; exact E2|].
        inversion Hb; subst. split; [|exact Ha].
        constructor; [assumption|]. constructor; [lia|assumption].
Qed.

Lemma max_by_in (best : A) (l : list A) : In (max_by key best l) (best :: l).
Proof.
  destruct (max_by_split best l) as (before & after & -> & _).
  apply in_or_app. right. left. reflexivity.
Qed.

Lemma max_by_ge (best : A) (l : list A) x :
  In x (best :: l) -> (key x <= key (max_by key best l))%Z.
Proof.
  destruct (max_by_split best l) as (before & after & -> & Hb & Ha).
  rewrite Forall_forall in Hb, Ha.
  intros Hin. apply in_app_or in Hin as [H|[H|H]].
  - specialize (Hb _ (proj2 (list_elem_of_In _ _) H)). lia.
  - subst. lia.
  - exact (Ha _ (proj2 (list_elem_of_In _ _) H)).
Qed.
End MaxBy.

Lemma int_of_digits_nonneg ds acc :
  (0 <= acc)%Z -> Forall (fun d => 0 <= d)%Z ds ->
  (0 <= fold_left (fun acc d => 10 * acc + d) ds acc)%Z.
Proof.
  revert acc; induction ds as [|d ds IH]; intros acc Hacc Hds; simpl; [exact Hacc|].
  inversion Hds; subst. apply IH; [lia|assumption].
Qed.

Lemma leading_digits_nonneg rt s : Forall (fun d => 0 <= d)%Z (fst (leading_digits rt s)).
Proof.
  induction s as [|c s IH]; simpl; [constructor|].
  destruct (digit_value rt c) as [d|] eqn:Hd; [|constructor].
  destruct (leading_digits rt s) as [ds r]. simpl in *. constructor; [|exact IH].
  unfold digit_value in Hd. destruct (c <? 128).
  - destruct (is_digit c); inversion Hd. lia.
  - destruct (decimal rt c); inversion Hd. lia.
Qed.

(** A leading integer is never negative: a directory without one, counted
    as 0, sorts lowest. *)
Lemma match_spec_number_nonneg rt name n :
  match_spec_number rt name = Some n -> (0 <= n)%Z.
Proof.
  unfold match_spec_number. pose proof (leading_digits_nonneg rt name) as H.
  destruct (leading_digits rt name) as [[|d ds] [|c r]]; try discriminate.
  destruct (is_hyphen c); [|discriminate]. intros [= <-].
  apply int_of_digits_nonneg; [lia|exact H].
Qed.

Lemma get_spec_number_nonneg rt e : (0 <= get_spec_number rt e)%Z.
Proof.
  unfold get_spec_number. destruct (match_spec_number rt (ename e)) eqn:E; [|lia].
  exact (match_spec_number_nonneg _ _ _ E).
Qed.

Lemma get_next_spec_number_numbers rt specs_dir :
  get_next_spec_number rt specs_dir =
  match spec_numbers rt specs_dir with
  | n :: ns => (max_by id n ns + 1)%Z
  | [] => 1%Z
  end.
Proof.
  unfold get_next_spec_number, spec_numbers.
  destruct specs_dir as [entries|]; [|reflexivity]. simpl.
  destruct (List.filter is_dir entries); reflexivity.
Qed.

Lemma get_next_spec_number_mkdir_root rt st :
  get_next_spec_number rt (Some (default [] st)) = get_next_spec_number rt st.
Proof. destruct st; reflexivity. Qed.

(** [create_spec_directory], step by step. *)
Lemma create_spec_directory_eq rt feature_name st :
  create_spec_directory rt (VStr feature_name) st =
  let entries := default [] st in
  let n := get_next_spec_number rt st in
  let d := format_03d n ++ lit "-" ++ slugify rt feature_name in
  match List.find (entry_named d) entries with
  | Some e =>
      if is_dir e then (Ret ([specs; d], n), Some entries)
      else (Raise OSError, Some entries)
  | None =>
      (Ret ([specs; d], n), Some (entries ++ [{| ename := d; kind := Dir [] |}]))
  end.
Proof.
  unfold create_spec_directory, mkdir_spec, mkdir_root, bind, get_store, put_store,
    ret, raise.
  destruct st as [entries|]; cbv beta iota zeta delta [default id].
  - destruct (List.find _ entries) as [e|]; [destruct (is_dir e)|]; reflexivity.
  - reflexivity.
Qed.

(** C3. When directories of the store root carry a leading integer, the
    number allocated to the next feature artifact set is the greatest of
    those integers plus 1; for an absent or empty store root it is 1; and
    [create_spec_directory] returns that number, unless a file that is not
    a directory already has the name of the new directory. *)
Theorem next_spec_number_is_max_plus_one (rt : runtime) (specs_dir : store) :
  (spec_numbers rt specs_dir <> [] ->
   In (get_next_spec_number rt specs_dir - 1)%Z (spec_numbers rt specs_dir)
   /\ Forall (fun k => k <= get_next_spec_number rt specs_dir - 1)%Z
        (spec_numbers rt specs_dir))
  /\ get_next_spec_number rt None = 1%Z
  /\ get_next_spec_number rt (Some []) = 1%Z
  /\ (forall feature_name,
        let n := get_next_spec_number rt specs_dir in
        let d := format_03d n ++ lit "-" ++ slugify rt feature_name in
        fst (create_spec_directory rt (VStr feature_name) specs_dir)
          = Ret ([specs; d], n)
        \/ (fst (create_spec_directory rt (VStr feature_name) specs_dir)
              = Raise OSError
            /\ exists e, In e (default [] specs_dir) /\ ename e = d /\ is_dir e = false)).
Proof.
  split; [|split; [reflexivity|split; [reflexivity|]]].
  - intros Hne. rewrite get_next_spec_number_numbers.
    destruct (spec_numbers rt specs_dir) as [|n ns]; [contradiction|].
    replace (max_by id n ns + 1 - 1)%Z with (max_by id n ns) by lia. split.
    + apply (max_by_in id).
    + apply Forall_forall. intros k Hk. apply (max_by_ge id n ns k).
      apply list_elem_of_In. exact Hk.
  - intros feature_name n d. rewrite create_spec_directory_eq.
    cbv zeta. fold n. fold d.
    destruct (List.find (entry_named d) (default [] specs_dir)) as [e|] eqn:Hf.
    + destruct (is_dir e) eqn:He; [left; reflexivity|].
      right. split; [reflexivity|]. exists e.
      apply find_some in Hf as [Hin Hn]. repeat split; [exact Hin| |exact He].
      unfold entry_named, str_eqb in Hn. apply bool_decide_eq_true in Hn. exact Hn.
    + left. reflexivity.
Qed.

Lemma find_latest_spec_latest_entry rt st :
  find_latest_spec rt st = (fun d => [specs; ename d]) <$> latest_entry rt st.
Proof. reflexivity. Qed.

Lemma latest_entry_split rt st d :
  latest_entry rt st = Some d ->
  exists before after,
    List.filter is_dir (default [] st) = before ++ d :: after
    /\ Forall (fun e => get_spec_number rt e < get_spec_number rt d)%Z before
    /\ Forall (fun e => get_spec_number rt e <= get_spec_number rt d)%Z after.
Proof.
  unfold latest_entry. destruct st as [entries|]; [|discriminate]. simpl.
  destruct (List.filter is_dir entries) as [|d0 ds]; [discriminate|].
  intros [= <-]. apply max_by_split.
Qed.

(** C7 (as the code has it). [find_latest_spec] returns none exactly when
    the store root is absent or holds no directory. Otherwise it returns the
    first listed of the directories whose leading integer is greatest, a
    name without a leading integer counting as 0, the least value a name
    can have; so a directory without a leading integer is never preferred
    to one whose leading integer is positive. *)
Theorem find_latest_spec_first_greatest (rt : runtime) (st : store) :
  (find_latest_spec rt st = None <->
     st = None \/ exists entries, st = Some entries /\ List.filter is_dir entries = [])
  /\ (forall d, latest_entry rt st = Some d ->
        find_latest_spec rt st = Some [specs; ename d]
        /\ exists before after,
             List.filter is_dir (default [] st) = before ++ d :: after
             /\ Forall (fun e => get_spec_number rt e < get_spec_number rt d)%Z before
             /\ Forall (fun e => get_spec_number rt e <= get_spec_number rt d)%Z after)
  /\ (forall e, match_spec_number rt (ename e) = None -> get_spec_number rt e = 0%Z)
  /\ (forall e, 0 <= get_spec_number rt e)%Z
  /\ (forall d e n,
        latest_entry rt st = Some d ->
        In e (default [] st) -> is_dir e = true ->
        match_spec_number rt (ename e) = Some n -> (0 < n)%Z ->
        match_spec_number rt (ename d) <> None).
Proof.
  split; [|split; [|split; [|split]]].
  - rewrite find_latest_spec_latest_entry. unfold latest_entry.
    destruct st as [entries|]; simpl.
    + destruct (List.filter is_dir entries) eqn:E; simpl.
      * split; [intros _; right; exists entries; auto|reflexivity].
      * split; [discriminate|]. intros [H|(es & [= <-] & H)]; [discriminate|].
        rewrite E in H. discriminate.
    + split; [auto|reflexivity].
  - intros d Hd. split.
    + rewrite find_latest_spec_latest_entry, Hd. reflexivity.
    + exact (latest_entry_split rt st d Hd).
  - intros e He. unfold get_spec_number. rewrite He. reflexivity.
  - apply get_spec_number_nonneg.
  - intros d e n Hd Hin Hdir Hn Hpos Hnone.
    destruct (latest_entry_split rt st d Hd) as (before & after & E & Hb & Ha).
    assert (In e (List.filter is_dir (default [] st))) as Hin'
      by (apply filter_In; auto).
    assert (get_spec_number rt e <= get_spec_number rt d)%Z as Hle.
    { rewrite E in Hin'. rewrite Forall_forall in Hb, Ha.
      apply in_app_or in Hin' as [H|[H|H]].
      - specialize (Hb _ (proj2 (list_elem_of_In _ _) H)). lia.
      - subst. lia.
      - exact (Ha _ (proj2 (list_elem_of_In _ _) H)). }
    unfold get_spec_number in Hle. rewrite Hn, Hnone in Hle. lia.
Qed.

(** C7 (counterexample). In a store root listing the directories [notes]
    and [0-x], in that order, both names count as 0 and [find_latest_spec]
    returns [notes], the first listed: a directory without a leading
    integer is preferred to one that has a leading integer. *)
Lemma find_latest_prefers_unnumbered_on_tie :
  (forall rt,
     find_latest_spec rt (Some [dir_named "notes"; dir_named "0-x"])
       = Some [specs; lit "notes"]
     /\ match_spec_number rt (lit "notes") = None
     /\ match_spec_number rt (lit "0-x") = Some 0%Z)
  /\ ~ (exists rt, never_prefers_unnumbered rt).
Proof.
  split; [intros rt; repeat split|].
  intros [rt H].
  apply (H [dir_named "notes"; dir_named "0-x"] (dir_named "notes") (dir_named "0-x")).
  - reflexivity.
  - right. left. reflexivity.
  - reflexivity.
  - discriminate.
  - reflexivity.
Qed.

(** A store root on which the theorems above are exercised. *)
Lemma next_spec_number_is_max_plus_one_witness :
  In (get_next_spec_number ascii_runtime sample_store - 1)%Z
     (spec_numbers ascii_runtime sample_store)
  /\ Forall (fun k => k <= get_next_spec_number ascii_runtime sample_store - 1)%Z
       (spec_numbers ascii_runtime sample_store).
Proof.
  apply (proj1 (next_spec_number_is_max_plus_one ascii_runtime sample_store)).
  vm_compute. discriminate.
Defined.

Lemma find_latest_spec_first_greatest_witness :
  match_spec_number ascii_runtime (lit "007-search") <> None.
Proof.
  apply (proj2 (proj2 (proj2 (proj2
           (find_latest_spec_first_greatest ascii_runtime sample_store))))
           (dir_named "007-search") (dir_named "002-login") 2%Z).
  - reflexivity.
  - vm_compute. auto.
  - reflexivity.
  - reflexivity.
  - lia.
Defined.

(** ** State dictionaries *)

Lemma get_dict1 k v k' :
  get (dict [item k v]) k' = if bool_decide (k = k') then v else VNone.
Proof.
  unfold get, dict, item. simpl. rewrite lookup_insert.
  destruct (decide (k = k')) as [->|Hne].
  - rewrite bool_decide_eq_true_2 by reflexivity. reflexivity.
  - rewrite bool_decide_eq_false_2 by exact Hne. rewrite lookup_empty. reflexivity.
Qed.

Lemma get_merge1 k v state k' :
  get (merge (dict [item k v]) state) k' = if bool_decide (k = k') then v else get state k'.
Proof.
  unfold get, merge, dict, item. simpl. rewrite lookup_union, lookup_insert.
  destruct (decide (k = k')) as [->|Hne].
  - rewrite bool_decide_eq_true_2 by reflexivity. destruct (state !! k'); reflexivity.
  - rewrite bool_decide_eq_false_2 by exact Hne. rewrite lookup_empty.
    destruct (state !! k'); reflexivity.
Qed.

Lemma merge_empty state : merge (dict []) state = state.
Proof. unfold merge, dict. simpl. apply (left_id_L ∅ (∪)). Qed.

Lemma truthy_VStr rt s : truthy rt (VStr s) = negb (bool_decide (s = [])).
Proof. reflexivity. Qed.

Lemma truthy_VStr_app rt c s t : truthy rt (VStr ((c :: s) ++ t)) = true.
Proof. reflexivity. Qed.

(** ** Validation of the feature description *)

Lemma drop_while_nil {A} (p : A -> bool) l :
  drop_while p l = [] <-> forallb p l = true.
Proof.
  induction l as [|x l IH]; simpl; [tauto|].
  destruct (p x); simpl; [exact IH|]. split; discriminate.
Qed.

Lemma forallb_rev {A} (p : A -> bool) l : forallb p (rev l) = forallb p l.
Proof.
  induction l as [|x l IH]; simpl; [reflexivity|].
  rewrite forallb_app, IH. simpl. rewrite andb_true_r. apply andb_comm.
Qed.

(** [s.strip()] is empty exactly when [s] is empty or all whitespace. *)
Lemma strip_chars_nil p s : strip_chars p s = [] <-> forallb p s = true.
Proof.
  unfold strip_chars. split.
  - intros H. apply (f_equal (@rev _)) in H. rewrite rev_involutive in H. simpl in H.
    apply drop_while_nil in H. rewrite forallb_rev in H.
    destruct (drop_while p s) as [|c t] eqn:E; [apply drop_while_nil; exact E|].
    pose proof (drop_while_head _ _ _ _ E) as Hc. simpl in H. rewrite Hc in H.
    discriminate.
  - intros H. apply drop_while_nil in H. rewrite H. reflexivity.
Qed.


(** ** Running a pipeline *)

Lemma bind_ret_l {A B} (c : M A) (k : A -> M B) st a st' :
  c st = (Ret a, st') -> bind c k st = k a st'.
Proof. unfold bind. intros ->. reflexivity. Qed.

Lemma bind_raise_l {A B} (c : M A) (k : A -> M B) st e st' :
  c st = (Raise e, st') -> bind c k st = (Raise e, st').
Proof. unfold bind. intros ->. reflexivity. Qed.

(** One node of a pipeline: its update is merged, and its edge followed. *)
Lemma run_chain_step name fn next rest state visited st update st' :
  fn state st = (Ret update, st') ->
  run_chain ({| node_name := name; node_fn := fn; node_next := next |} :: rest)
    state visited st =
  if next (merge update state)
  then run_chain rest (merge update state) (visited ++ [name]) st'
  else (Ret (merge update state, visited ++ [name]), st').
Proof.
  intros H. cbn [run_chain node_fn node_next node_name].
  rewrite (bind_ret_l _ _ _ _ _ H).
  destruct (next (merge update state)); reflexivity.
Qed.

Lemma run_chain_raise name fn next rest state visited st e st' :
  fn state st = (Raise e, st') ->
  run_chain ({| node_name := name; node_fn := fn; node_next := next |} :: rest)
    state visited st = (Raise e, st').
Proof.
  intros H. cbn [run_chain node_fn node_next node_name].
  exact (bind_raise_l _ _ _ _ _ H).
Qed.

(** ** The validation node of Specify *)

(** C8. The validation step of Specify sets an error exactly when the
    description is empty or all whitespace, or has fewer than 10 characters
    once trimmed; it reads and writes nothing else. It rejects the empty
    description, three spaces and [short]; it accepts the 10-character
    description [abcdefghij], after which a run with a gateway that answers
    creates artifact set 1 in an absent store. *)
Theorem analyze_input_validation (rt : runtime) (text : str) (rest : pstate) (st : store) :
  let state := <["feature_description"%string := VStr text]> rest in
  (exists update,
     Specify.analyze_input state st = (Ret update, st)
     /\ (truthy rt (get update "error") = true <->
           strip text = [] \/ (length (strip text) < 10)%nat)
     /\ (strip text = [] -> update = dict [item "error" (VStr empty_message)])
     /\ (strip text <> [] -> (length (strip text) < 10)%nat ->
           update = dict [item "error" (VStr too_short_message)])
     /\ ((10 <= length (strip text))%nat -> update = dict [item "error" VNone]))
  /\ (strip text = [] <-> forallb is_space text = true)
  /\ (forall gateway description,
        In description [[]; lit "   "; lit "short"] ->
        exists final,
          Specify.run_specify rt gateway description st = (Ret (final, ["analyze"%string]), st)
          /\ truthy rt (get final "error") = true)
  /\ (forall gateway specification,
        gateway (get_specify_prompt (VStr (lit "abcdefghij"))) = Some specification ->
        exists final,
          Specify.run_specify rt gateway (lit "abcdefghij") None
            = (Ret (final, ["analyze"; "generate"; "save"]%string),
               Some [{| ename := lit "001-abcdefghij";
                        kind := Dir [(lit "specification.md", File (inl specification))] |}])
          /\ get final "error" = VNone
          /\ get final "spec_number" = VInt 1).
Proof.
  intros state. split; [|split; [apply strip_chars_nil|split]].
  - unfold Specify.analyze_input, get_or, state. rewrite lookup_insert_eq.
    cbn [default from_option id]. unfold ret.
    destruct (decide (strip text = [])) as [He|Hne].
    + rewrite bool_decide_eq_true_2 by exact He. eexists. split; [reflexivity|].
      split; [|split; [reflexivity|split]].
      * split; [auto|]. intros _. rewrite get_dict1. reflexivity.
      * contradiction.
      * rewrite He. simpl. lia.
    + rewrite bool_decide_eq_false_2 by exact Hne.
      destruct (Nat.ltb_spec (length (strip text)) 10) as [Hlt|Hge].
      * eexists. split; [reflexivity|].
        split; [|split; [contradiction|split; [reflexivity|lia]]].
        split; [auto|]. intros _. rewrite get_dict1. reflexivity.
      * eexists. split; [reflexivity|].
        split; [|split; [contradiction|split; [lia|reflexivity]]].
        rewrite get_dict1. simpl. split; [discriminate|]. intros [?|?]; [contradiction|lia].
  - intros gateway description Hin. simpl in Hin.
    destruct Hin as [<-|[<-|[<-|[]]]]; eexists; (split; [reflexivity|reflexivity]).
  - intros gateway specification Hg.
    set (s0 := dict [item "feature_description" (VStr (lit "abcdefghij"));
                     item "specification" (VStr []);
                     item "spec_path" (VPath []);
                     item "spec_number" (VInt 0);
                     item "error" VNone]).
    set (s1 := merge (dict [item "error" VNone]) s0).
    set (s2 := merge (dict [item "specification" (VStr specification)]) s1).
    exists (merge (dict [item "spec_path" (VPath [specs; lit "001-abcdefghij"]);
                         item "spec_number" (VInt 1)]) s2).
    split; [|split; reflexivity].
    unfold Specify.run_specify, Specify.build_specify_workflow. fold s0.
    rewrite (run_chain_step _ _ _ _ _ _ _ (dict [item "error" VNone]) None) by reflexivity.
    fold s1.
    replace (Specify.should_continue rt s1) with true by reflexivity.
    assert (Specify.generate_specification rt gateway s1 None
            = (Ret (dict [item "specification" (VStr specification)]), None)) as E2.
    { unfold Specify.generate_specification.
      replace (truthy rt (get s1 "error")) with false by reflexivity.
      unfold getitem. replace (s1 !! "feature_description"%string)
        with (Some (VStr (lit "abcdefghij"))) by reflexivity.
      unfold bind, ret, invoke. rewrite Hg. reflexivity. }
    rewrite (run_chain_step _ _ _ _ _ _ _ _ _ E2). cbn [always]. fold s2.
    assert (Specify.save_specification rt s2 None
            = (Ret (dict [item "spec_path" (VPath [specs; lit "001-abcdefghij"]);
                          item "spec_number" (VInt 1)]),
               Some [{| ename := lit "001-abcdefghij";
                        kind := Dir [(lit "specification.md", File (inl specification))] |}]))
      as E3 by reflexivity.
    rewrite (run_chain_step _ _ _ _ _ _ _ _ _ E3). reflexivity.
Qed.

(** ** The JSON decoder never runs out of fuel *)

Lemma skip_ws_length s : (length (skip_ws s) <= length s)%nat.
Proof.
  unfold skip_ws. destruct (drop_while_suffix is_json_ws s) as [n ->].
  rewrite length_drop. lia.
Qed.

Lemma skip_ws_cons s c t : skip_ws s = c :: t -> (length t < length s)%nat.
Proof. intros H. pose proof (skip_ws_length s) as L. rewrite H in L. simpl in L. lia. Qed.

Lemma span_digits_length s ds r :
  span_digits s = (ds, r) -> (length r <= length s)%nat.
Proof.
  revert ds r; induction s as [|c s IH]; simpl; intros ds r.
  - intros [= <- <-]. simpl. lia.
  - destruct (is_digit c).
    + destruct (span_digits s) as [ds' r']. intros [= <- <-].
      specialize (IH _ _ eq_refl). lia.
    + intros [= <- <-]. simpl. lia.
Qed.

Lemma scan_fraction_length r f r' :
  scan_fraction r = (f, r') -> (length r' <= length r)%nat.
Proof.
  unfold scan_fraction. destruct r as [|dot [|d t]]; try (intros [= <- <-]; simpl; lia).
  destruct ((dot =? 46) && is_digit d); [|intros [= <- <-]; simpl; lia].
  destruct (span_digits (d :: t)) as [fs r''] eqn:E. intros [= <- <-].
  apply span_digits_length in E. simpl in *. lia.
Qed.

Lemma scan_exponent_length r e r' :
  scan_exponent r = (e, r') -> (length r' <= length r)%nat.
Proof.
  unfold scan_exponent. destruct r as [|c t]; [intros [= <- <-]; simpl; lia|].
  destruct ((c =? 101) || (c =? 69)); [|intros [= <- <-]; simpl; lia].
  destruct (match t with
            | [] => ([], t)
            | sg :: t'' => if (sg =? 43) || (sg =? 45) then ([sg], t'') else ([], t)
            end) as [sign t'] eqn:Es.
  assert (length t' <= length t)%nat as Ht.
  { destruct t as [|sg t'']; [injection Es as <- <-; simpl; lia|].
    destruct ((sg =? 43) || (sg =? 45)); injection Es as <- <-; simpl; lia. }
  destruct (span_digits t') as [ds r''] eqn:E. apply span_digits_length in E.
  destruct ds; intros [= <- <-]; simpl in *; lia.
Qed.

Lemma match_number_shorter s v r :
  match_number s = Some (v, r) -> (length r < length s)%nat.
Proof.
  unfold match_number.
  destruct (match s with
            | [] => (false, s)
            | c :: t => if c =? 45 then (true, t) else (false, s)
            end) as [neg s1] eqn:E1.
  assert (length s1 <= length s)%nat as H1.
  { destruct s as [|c t]; [injection E1 as <- <-; simpl; lia|].
    destruct (c =? 45); injection E1 as <- <-; simpl; lia. }
  destruct (match s1 with
            | [] => None
            | d :: t =>
                if between 49 57 d then let '(ds, r0) := span_digits t in Some (d :: ds, r0)
                else if d =? 48 then Some ([d], t) else None
            end) as [[ip r0]|] eqn:E2; [|discriminate].
  assert (length r0 < length s1)%nat as H2.
  { destruct s1 as [|d t]; [discriminate|].
    destruct (between 49 57 d).
    - destruct (span_digits t) as [ds r1] eqn:E. injection E2 as <- <-.
      apply span_digits_length in E. simpl. lia.
    - destruct (d =? 48); [|discriminate]. injection E2 as <- <-. simpl. lia. }
  destruct (scan_fraction r0) as [frac r1] eqn:E3. apply scan_fraction_length in E3.
  destruct (scan_exponent r1) as [ex r2] eqn:E4. apply scan_exponent_length in E4.
  destruct frac, ex; intros [= <- <-]; lia.
Qed.

Lemma startswith_length p s : startswith p s = true -> (length p <= length s)%nat.
Proof.
  revert s; induction p as [|a p IH]; intros [|b s]; simpl; try lia; try discriminate.
  intros [_ H]%andb_true_iff. specialize (IH _ H). lia.
Qed.

Lemma scan_constant_shorter s v r :
  scan_constant s = Some (v, r) -> (length r < length s)%nat.
Proof.
  unfold scan_constant.
  repeat match goal with
         | |- context [startswith ?p s] =>
             let E := fresh "E" in
             destruct (startswith p s) eqn:E;
             [apply startswith_length in E; intros [= <- <-]; rewrite length_drop;
              simpl in E; lia|clear E]
         end.
  discriminate.
Qed.

Lemma scanstring_shorter n : forall s acc,
  (length s <= n)%nat ->
  scanstring s acc <> Exhausted
  /\ forall k r, scanstring s acc = Found k r -> (length r < length s)%nat.
Proof.
  induction n as [|n IH]; intros s acc Hlen.
  - destruct s; [|simpl in Hlen; lia]. simpl. split; [discriminate|discriminate].
  - destruct s as [|c t]; [simpl; split; discriminate|].
    simpl in Hlen. cbn [scanstring].
    destruct (c =? 34); [split; [discriminate|intros k r [= <- <-]; simpl; lia]|].
    assert (forall t' acc', (length t' <= length t)%nat ->
              scanstring t' acc' <> Exhausted
              /\ forall k r, scanstring t' acc' = Found k r -> (length r < length (c :: t))%nat)
      as IH'.
    { intros t' acc' Ht'. destruct (IH t' acc' ltac:(lia)) as [H1 H2].
      split; [exact H1|]. intros k r H. specialize (H2 k r H). simpl. lia. }
    destruct (c =? 92).
    + destruct t as [|e t1]; [split; discriminate|].
      destruct (e =? 117).
      * destruct t1 as [|h1 [|h2 [|h3 [|h4 t2]]]]; try (split; discriminate).
        destruct (hex4 h1 h2 h3 h4) as [u|]; [|split; discriminate].
        destruct (between 55296 56319 u); [|apply IH'; simpl; lia].
        destruct t2 as [|b [|v [|l1 [|l2 [|l3 [|l4 t3]]]]]]; try (apply IH'; simpl; lia).
        destruct ((b =? 92) && (v =? 117)); [|apply IH'; simpl; lia].
        destruct (hex4 l1 l2 l3 l4) as [u2|]; [|split; discriminate].
        destruct (between 56320 57343 u2); apply IH'; simpl; lia.
      * destruct (unescape e); [apply IH'; simpl; lia|split; discriminate].
    + destruct (c <=? 31); [split; discriminate|]. apply IH'. lia.
Qed.

Lemma scanstring_found s acc k r :
  scanstring s acc = Found k r -> (length r < length s)%nat.
Proof. apply (scanstring_shorter (length s) s acc). lia. Qed.

Lemma scanstring_not_exhausted s acc : scanstring s acc <> Exhausted.
Proof. apply (scanstring_shorter (length s) s acc). lia. Qed.

Lemma settles_invalid {A} n : settles (@Invalid A) n.
Proof. split; discriminate. Qed.

Lemma settles_found {A} (v : A) r n : (length r < n)%nat -> settles (Found v r) n.
Proof. intros H. split; [discriminate|]. intros v' r' [= <- <-]. exact H. Qed.

Lemma settles_weaken {A} (x : scan A) m n :
  settles x m -> (m <= n)%nat -> settles x n.
Proof. intros [H1 H2] Hle. split; [exact H1|]. intros v r E. specialize (H2 v r E). lia. Qed.

#[local] Hint Resolve settles_invalid : core.

Lemma scan_fuel fuel :
  (forall s, (2 * length s < fuel)%nat -> settles (scan_once fuel s) (length s))
  /\ (forall s acc, (2 * length s < fuel)%nat ->
        settles (scan_members fuel s acc) (length s))
  /\ (forall s acc, (2 * length s + 1 < fuel)%nat ->
        settles (scan_elements fuel s acc) (length s)).
Proof.
  induction fuel as [|f (IHo & IHm & IHe)].
  - repeat split; intros; lia.
  - split; [|split].
    + intros s H. destruct s as [|c t]; [apply settles_invalid|].
      cbn [scan_once]. simpl in H.
      destruct (c =? 34).
      { destruct (scanstring t []) as [k r| |] eqn:E; [|auto|].
        - apply settles_found. apply scanstring_found in E. simpl. lia.
        - exfalso. exact (scanstring_not_exhausted _ _ E). }
      destruct (c =? 123).
      { destruct (skip_ws t) as [|c1 t1] eqn:Ews; [auto|].
        apply skip_ws_cons in Ews.
        destruct (c1 =? 125); [apply settles_found; simpl; lia|].
        destruct (c1 =? 34); [|auto].
        apply (settles_weaken _ (length t1)); [apply IHm; lia|simpl; lia]. }
      destruct (c =? 91).
      { destruct (skip_ws t) as [|c1 t1] eqn:Ews; [auto|].
        pose proof (skip_ws_length t) as L. rewrite Ews in L.
        destruct (c1 =? 93); [apply settles_found; simpl in *; lia|].
        apply (settles_weaken _ (length (c1 :: t1))); [apply IHe|]; simpl in *; lia. }
      destruct (scan_constant (c :: t)) as [[v r]|] eqn:Ec.
      { apply settles_found. exact (scan_constant_shorter _ _ _ Ec). }
      destruct (match_number (c :: t)) as [[v r]|] eqn:En; [|auto].
      apply settles_found. exact (match_number_shorter _ _ _ En).
    + intros s acc H. cbn [scan_members].
      destruct (scanstring s []) as [key r| |] eqn:E; [|auto|].
      2:{ exfalso. exact (scanstring_not_exhausted _ _ E). }
      apply scanstring_found in E.
      destruct (skip_ws r) as [|colon r1] eqn:E1; [auto|]. apply skip_ws_cons in E1.
      destruct (colon =? 58); [|auto].
      pose proof (skip_ws_length r1) as L1.
      destruct (IHo (skip_ws r1) ltac:(lia)) as [Hne Hlen].
      destruct (scan_once f (skip_ws r1)) as [v r2| |] eqn:E2; [|auto|contradiction].
      specialize (Hlen v r2 eq_refl).
      destruct (skip_ws r2) as [|c r3] eqn:E3; [auto|]. apply skip_ws_cons in E3.
      destruct (c =? 125); [apply settles_found; lia|].
      destruct (c =? 44); [|auto].
      destruct (skip_ws r3) as [|q r4] eqn:E4; [auto|]. apply skip_ws_cons in E4.
      destruct (q =? 34); [|auto].
      apply (settles_weaken _ (length r4)); [apply IHm|]; lia.
    + intros s acc H. cbn [scan_elements].
      destruct (IHo s ltac:(lia)) as [Hne Hlen].
      destruct (scan_once f s) as [v r| |] eqn:E; [|auto|contradiction].
      specialize (Hlen v r eq_refl).
      destruct (skip_ws r) as [|c r1] eqn:E1; [auto|]. apply skip_ws_cons in E1.
      destruct (c =? 93); [apply settles_found; lia|].
      destruct (c =? 44); [|auto].
      pose proof (skip_ws_length r1) as L1.
      apply (settles_weaken _ (length (skip_ws r1))); [apply IHe|]; lia.
Qed.

(** [json_loads] reports a decoding error only where the scanner found one:
    its fuel is never used up. *)
Lemma json_loads_fuel s :
  scan_once (S (2 * length s)) (skip_ws s) <> Exhausted.
Proof.
  pose proof (skip_ws_length s) as L.
  apply (proj1 (scan_fuel (S (2 * length s)))). lia.
Qed.

(** ** Errors short-circuit *)

Lemma run_chain_skips rt nodes :
  Forall (skips_on_error rt) nodes ->
  forall state visited st,
    error_set rt state = true ->
    exists visited', run_chain nodes state visited st = (Ret (state, visited'), st).
Proof.
  induction 1 as [|n nodes Hn Hnodes IH]; intros state visited st He.
  - exists visited. reflexivity.
  - destruct n as [name fn next]. rewrite (run_chain_step _ _ _ _ _ _ _ _ _ (Hn state st He)).
    rewrite merge_empty. destruct (next state); [apply IH; exact He|eauto].
Qed.

Lemma pipelines_skip_on_error rt gateway chain :
  In chain (pipelines rt gateway) -> Forall (skips_on_error rt) (tail chain).
Proof.
  intros Hin. simpl in Hin.
  destruct Hin as [<-|[<-|[<-|[<-|[]]]]]; cbn [tail Specify.build_specify_workflow
    Plan.build_plan_workflow Tasks.build_tasks_workflow Clarify.build_clarify_workflow];
    repeat constructor; intros state st He; unfold error_set in He;
    cbn [node_fn];
    unfold Specify.generate_specification, Specify.save_specification,
      Plan.generate_plan, Plan.save_plan, Tasks.generate_tasks, Tasks.save_tasks,
      Clarify.analyze_and_generate_questions, Clarify.update_specification,
      Clarify.save_specification;
    rewrite He; reflexivity.
Qed.

Lemma Forall_suffix {A} (P : A -> Prop) before x after :
  Forall P (tail (before ++ x :: after)) -> Forall P after.
Proof.
  destruct before as [|b before]; simpl; [auto|].
  intros H. apply Forall_app in H as [_ H]. inversion H; assumption.
Qed.

(** C6. In each of the four pipelines every node after the first does
    nothing once the error field is set: it returns no field, and neither
    the store nor the gateway is touched. So from the node that sets the
    error on, at whatever place of the pipeline and from whatever state,
    the run ends in the state that node left, error included, with the
    store as that node left it. *)
Theorem error_short_circuits (rt : runtime) (gateway : prompt -> option str)
    (chain : list node) :
  In chain (pipelines rt gateway) ->
  Forall (skips_on_error rt) (tail chain)
  /\ forall before n after state visited st update st',
       chain = before ++ n :: after ->
       node_fn n state st = (Ret update, st') ->
       error_set rt (merge update state) = true ->
       exists visited',
         run_chain (n :: after) state visited st
           = (Ret (merge update state, visited'), st').
Proof.
  intros Hin. pose proof (pipelines_skip_on_error rt gateway chain Hin) as Hskip.
  split; [exact Hskip|].
  intros before n after state visited st update st' -> Hn He.
  apply Forall_suffix in Hskip.
  destruct n as [name fn next]. cbn [node_fn] in Hn.
  rewrite (run_chain_step _ _ _ _ _ _ _ _ _ Hn).
  destruct (next (merge update state)).
  - destruct (run_chain_skips rt after Hskip (merge update state) (visited ++ [name]) st' He)
      as [visited' ->]. eauto.
  - eauto.
Qed.

Lemma error_short_circuits_witness :
  exists visited',
    run_chain (Specify.build_specify_workflow ascii_runtime silent_gateway)
      (dict [item "feature_description" (VStr (lit "short")); item "error" VNone])
      [] None
    = (Ret (merge (dict [item "error" (VStr too_short_message)])
              (dict [item "feature_description" (VStr (lit "short")); item "error" VNone]),
            visited'), None).
Proof.
  apply (proj2 (error_short_circuits ascii_runtime silent_gateway
                  (Specify.build_specify_workflow ascii_runtime silent_gateway)
                  (or_introl eq_refl))
           [] _ _ _ [] None _ None eq_refl); reflexivity.
Defined.

(** ** Clarify without an Answer Map *)

Lemma load_specification_pure rt state st :
  exists update,
    Clarify.load_specification rt state st = (Ret update, st)
    /\ update !! "answers"%string = None.
Proof.
  unfold Clarify.load_specification, bind, get_store, ret.
  destruct (find_latest_spec rt st) as [p|]; [|eexists; split; reflexivity].
  destruct (file_at st _) as [node|]; [|eexists; split; reflexivity].
  destruct (read_text node); eexists; split; reflexivity.
Qed.

Lemma invoke_store gateway p st :
  (exists text, invoke gateway p st = (Ret text, st) /\ gateway p = Some text)
  \/ (invoke gateway p st = (Raise GatewayError, st) /\ gateway p = None).
Proof. unfold invoke, ret, raise. destruct (gateway p); eauto. Qed.

Lemma getitem_store state k st :
  (exists v, getitem state k st = (Ret v, st) /\ state !! k = Some v)
  \/ (getitem state k st = (Raise KeyError, st) /\ state !! k = None).
Proof. unfold getitem, ret, raise. destruct (state !! k); eauto. Qed.

Lemma analyze_store rt gateway state st :
  (exists update,
     Clarify.analyze_and_generate_questions rt gateway state st = (Ret update, st)
     /\ update !! "answers"%string = None)
  \/ exists e, Clarify.analyze_and_generate_questions rt gateway state st = (Raise e, st).
Proof.
  unfold Clarify.analyze_and_generate_questions.
  destruct (truthy rt (get state "error")); [left; eexists; split; reflexivity|].
  destruct (getitem_store state "specification" st) as [(v & Hv & _)|[Hv _]].
  2:{ right. eexists. exact (bind_raise_l _ _ _ _ _ Hv). }
  rewrite (bind_ret_l _ _ _ _ _ Hv).
  destruct (invoke_store gateway (get_analysis_prompt v) st) as [(text & Ht & _)|[Ht _]].
  2:{ right. eexists. exact (bind_raise_l _ _ _ _ _ Ht). }
  rewrite (bind_ret_l _ _ _ _ _ Ht).
  destruct (json_loads (Clarify.extract_json text)) as [[]|];
    first [left; eexists; split; reflexivity|right; eexists; reflexivity].
Qed.

Lemma get_merge_absent update state k :
  update !! k = None -> get (merge update state) k = get state k.
Proof. intros H. unfold get, merge. rewrite lookup_union, H. destruct (state !! k); reflexivity. Qed.

(** C9. A Clarify run without an Answer Map leaves the store as it found
    it, whether it ends with questions, with an error or with an exception;
    it runs the load node and at most the analyze node. *)
Theorem clarify_without_answers_writes_nothing
    (rt : runtime) (gateway : prompt -> option str) (st : store) :
  snd (Clarify.run_clarify rt gateway None st) = st
  /\ match fst (Clarify.run_clarify rt gateway None st) with
     | Ret (_, visited) => visited = ["load"%string] \/ visited = ["load"; "analyze"]%string
     | Raise _ => True
     end.
Proof.
  unfold Clarify.run_clarify, Clarify.build_clarify_workflow.
  set (s0 := dict _).
  destruct (load_specification_pure rt s0 st) as (u1 & E1 & A1).
  rewrite (run_chain_step _ _ _ _ _ _ _ _ _ E1).
  destruct (Clarify.should_continue_after_load rt (merge u1 s0)); [|simpl; auto].
  destruct (analyze_store rt gateway (merge u1 s0) st) as [(u2 & E2 & A2)|[e E2]].
  - rewrite (run_chain_step _ _ _ _ _ _ _ _ _ E2).
    assert (Clarify.should_continue_after_analyze rt (merge u2 (merge u1 s0)) = false) as ->.
    { unfold Clarify.should_continue_after_analyze.
      rewrite (get_merge_absent u2 _ "answers" A2), (get_merge_absent u1 _ "answers" A1).
      replace (truthy rt (get s0 "answers")) with false by reflexivity.
      destruct (truthy rt _); [reflexivity|]. destruct (negb _); reflexivity. }
    simpl. auto.
  - rewrite (run_chain_raise _ _ _ _ _ _ _ _ _ E2). simpl. auto.
Qed.

(** ** Searching a text *)

Lemma startswith_app sub rest : startswith sub (sub ++ rest) = true.
Proof.
  induction sub as [|a sub IH]; simpl; [reflexivity|].
  rewrite N.eqb_refl. exact IH.
Qed.

Lemma startswith_prefix_only sub a b :
  (length sub <= length a)%nat -> startswith sub (a ++ b) = startswith sub a.
Proof.
  revert a; induction sub as [|x sub IH]; intros [|y a]; simpl; intros H;
    try reflexivity; try lia.
  rewrite IH by lia. reflexivity.
Qed.

Lemma startswith_shorter a b s :
  startswith (a ++ b) s = true -> startswith a s = true.
Proof.
  revert s; induction a as [|x a IH]; intros [|y s]; simpl; try reflexivity;
    try discriminate.
  intros [-> H]%andb_true_iff. simpl. exact (IH _ H).
Qed.

Lemma find_from_none_shorter a b s i :
  find_from a s i = None -> find_from (a ++ b) s i = None.
Proof.
  revert i; induction s as [|c s IH]; intros i; simpl.
  - destruct (startswith a []) eqn:E; [discriminate|]. intros _.
    destruct (startswith (a ++ b) []) eqn:E'; [|reflexivity].
    apply startswith_shorter in E'. congruence.
  - destruct (startswith a (c :: s)) eqn:E; [discriminate|]. intros H.
    destruct (startswith (a ++ b) (c :: s)) eqn:E'.
    + apply startswith_shorter in E'. congruence.
    + exact (IH _ H).
Qed.

Lemma contains_false_shorter a b s :
  contains a s = false -> contains (a ++ b) s = false.
Proof.
  unfold contains. destruct (find_from a s 0) eqn:E; [discriminate|].
  rewrite (find_from_none_shorter a b s 0 E). reflexivity.
Qed.

Lemma find_from_unfold sub s i :
  find_from sub s i =
  if startswith sub s then Some i
  else match s with [] => None | _ :: t => find_from sub t (S i) end.
Proof. destruct s; reflexivity. Qed.

(** When [sub] does not begin before the end of [pre], its first occurrence
    in [pre ++ sub ++ rest] is the one after [pre]. *)
Lemma find_from_first init z pre rest i :
  contains (init ++ [z]) (pre ++ init) = false ->
  find_from (init ++ [z]) (pre ++ (init ++ [z]) ++ rest) i = Some (i + length pre)%nat.
Proof.
  revert i; induction pre as [|c pre IH]; intros i H.
  - rewrite app_nil_l, find_from_unfold, startswith_app. f_equal. simpl. lia.
  - unfold contains in H. cbn [app find_from] in H |- *.
    destruct (startswith (init ++ [z]) (c :: pre ++ init)) eqn:E; [discriminate|].
    assert (startswith (init ++ [z]) (c :: pre ++ (init ++ [z]) ++ rest) = false) as ->.
    { rewrite <- E.
      change (c :: pre ++ (init ++ [z]) ++ rest) with ((c :: pre) ++ (init ++ [z]) ++ rest).
      change (c :: pre ++ init) with ((c :: pre) ++ init).
      rewrite <- (app_assoc init [z] rest), (app_assoc (c :: pre) init ([z] ++ rest)).
      apply startswith_prefix_only. rewrite !length_app. simpl. lia. }
    rewrite IH.
    + f_equal. simpl. lia.
    + unfold contains.
      destruct (find_from (init ++ [z]) (pre ++ init) 0) as [k|] eqn:E0; [|reflexivity].
      exfalso.
      assert (forall s a b, find_from (init ++ [z]) s a = None <-> find_from (init ++ [z]) s b = None) as Hshift.
      { clear. induction s as [|x s IHs]; intros a b; simpl.
        - destruct (startswith _ _); split; congruence.
        - destruct (startswith _ _); [split; discriminate|]. apply IHs. }
      destruct (find_from (init ++ [z]) (pre ++ init) 1) eqn:E1; [discriminate|].
      apply (Hshift _ 1%nat 0%nat) in E1. congruence.
Qed.

Lemma contains_found sub s i : find_from sub s 0 = Some i -> contains sub s = true.
Proof. unfold contains. intros ->. reflexivity. Qed.

Lemma find_at init z pre rest start :
  (start <= length pre)%nat ->
  contains (init ++ [z]) (drop start pre ++ init) = false ->
  find (init ++ [z]) (pre ++ (init ++ [z]) ++ rest) start = Z.of_nat (length pre).
Proof.
  intros Hs Hc. unfold find.
  destruct (Nat.ltb_spec (length (pre ++ (init ++ [z]) ++ rest)) start) as [H|_].
  - rewrite length_app in H. lia.
  - rewrite drop_app_le by exact Hs.
    rewrite (find_from_first init z (drop start pre) rest start Hc).
    rewrite length_drop. f_equal. lia.
Qed.

Lemma contains_at init z pre rest :
  contains (init ++ [z]) (pre ++ init) = false ->
  contains (init ++ [z]) (pre ++ (init ++ [z]) ++ rest) = true.
Proof.
  intros H. unfold contains. rewrite (find_from_first init z pre rest 0 H). reflexivity.
Qed.

Lemma find_fence_json pre rest :
  contains fence_json (pre ++ lit "```jso") = false ->
  find (lit "```json") (pre ++ fence_json ++ rest) 0 = Z.of_nat (length pre)
  /\ contains (lit "```json") (pre ++ fence_json ++ rest) = true.
Proof.
  intros H. split.
  - apply (find_at (lit "```jso") 110 pre rest 0); [lia|exact H].
  - exact (contains_at (lit "```jso") 110 pre rest H).
Qed.

Lemma find_fence pre rest start :
  (start <= length pre)%nat ->
  contains fence (drop start pre ++ lit "``") = false ->
  find (lit "```") (pre ++ fence ++ rest) start = Z.of_nat (length pre).
Proof. exact (find_at (lit "``") 96 pre rest start). Qed.

Lemma contains_fence pre rest :
  contains fence (pre ++ lit "``") = false ->
  contains (lit "```") (pre ++ fence ++ rest) = true.
Proof. exact (contains_at (lit "``") 96 pre rest). Qed.

Lemma slice_middle a b c :
  slice (a ++ b ++ c) (Z.of_nat (length a)) (Z.of_nat (length a + length b)) = b.
Proof.
  unfold slice, slice_bound.
  rewrite !length_app.
  destruct (Z.ltb_spec (Z.of_nat (length a)) 0) as [H|_]; [lia|].
  destruct (Z.ltb_spec (Z.of_nat (length a + length b)) 0) as [H|_]; [lia|].
  rewrite !Z.min_l by lia. rewrite !Nat2Z.id.
  rewrite drop_app_length.
  replace (length a + length b - length a)%nat with (length b) by lia.
  apply take_app_length.
Qed.

Lemma length_fence_json : length fence_json = 7%nat.
Proof. reflexivity. Qed.

Lemma length_fence : length fence = 3%nat.
Proof. reflexivity. Qed.

(** The three cases of the extraction. *)
Lemma extract_json_fenced pre body post :
  contains fence_json (pre ++ lit "```jso") = false ->
  contains fence (body ++ lit "``") = false ->
  Clarify.extract_json (pre ++ fence_json ++ body ++ fence ++ post) = strip body.
Proof.
  intros Hpre Hbody. unfold Clarify.extract_json.
  set (r := pre ++ fence_json ++ body ++ fence ++ post).
  destruct (find_fence_json pre (body ++ fence ++ post) Hpre) as [E1 E2].
  fold r in E1, E2. rewrite E2, E1.
  replace (Z.to_nat (Z.of_nat (length pre) + 7)) with (length (pre ++ fence_json))
    by (rewrite length_app, ?length_fence_json, ?length_fence; lia).
  assert (find (lit "```") r (length (pre ++ fence_json))
          = Z.of_nat (length (pre ++ fence_json ++ body))) as ->.
  { unfold r. rewrite !(app_assoc pre), (app_assoc (pre ++ fence_json) body).
    apply (find_fence ((pre ++ fence_json) ++ body) post).
    - rewrite !length_app. lia.
    - rewrite drop_app_length. exact Hbody. }
  replace (Z.of_nat (length pre) + 7)%Z with (Z.of_nat (length (pre ++ fence_json)))
    by (rewrite length_app, ?length_fence_json, ?length_fence; lia).
  f_equal.
  replace r with ((pre ++ fence_json) ++ body ++ (fence ++ post))
    by (unfold r; rewrite <- !app_assoc; reflexivity).
  replace (length (pre ++ fence_json ++ body)) with (length (pre ++ fence_json) + length body)%nat
    by (rewrite !length_app; lia).
  apply slice_middle.
Qed.

Lemma extract_json_bare_fence pre body post :
  contains fence_json (pre ++ fence ++ body ++ fence ++ post) = false ->
  contains fence (pre ++ lit "``") = false ->
  contains fence (body ++ lit "``") = false ->
  Clarify.extract_json (pre ++ fence ++ body ++ fence ++ post) = strip body.
Proof.
  intros Hno Hpre Hbody. unfold Clarify.extract_json.
  set (r := pre ++ fence ++ body ++ fence ++ post) in *.
  change (lit "```json") with fence_json. rewrite Hno.
  assert (find (lit "```") r 0 = Z.of_nat (length pre)) as E1
    by (apply (find_fence pre (body ++ fence ++ post) 0); [lia|exact Hpre]).
  pose proof (contains_fence pre (body ++ fence ++ post) Hpre) as E2.
  fold r in E2. rewrite E2, E1.
  replace (Z.to_nat (Z.of_nat (length pre) + 3)) with (length (pre ++ fence))
    by (rewrite length_app, ?length_fence_json, ?length_fence; lia).
  assert (find (lit "```") r (length (pre ++ fence))
          = Z.of_nat (length (pre ++ fence ++ body))) as ->.
  { unfold r. rewrite !(app_assoc pre), (app_assoc (pre ++ fence) body).
    apply (find_fence ((pre ++ fence) ++ body) post).
    - rewrite !length_app. lia.
    - rewrite drop_app_length. exact Hbody. }
  replace (Z.of_nat (length pre) + 3)%Z with (Z.of_nat (length (pre ++ fence)))
    by (rewrite length_app, ?length_fence_json, ?length_fence; lia).
  f_equal.
  replace r with ((pre ++ fence) ++ body ++ (fence ++ post))
    by (unfold r; rewrite <- !app_assoc; reflexivity).
  replace (length (pre ++ fence ++ body)) with (length (pre ++ fence) + length body)%nat
    by (rewrite !length_app; lia).
  apply slice_middle.
Qed.

Lemma extract_json_raw r :
  contains fence r = false -> Clarify.extract_json r = r.
Proof.
  intros H. unfold Clarify.extract_json.
  change (lit "```json") with (fence ++ lit "json").
  rewrite (contains_false_shorter fence (lit "json") r H).
  change (lit "```") with fence. rewrite H. reflexivity.
Qed.

(** ** The analyze node of Clarify *)

Lemma analyze_outcome rt gateway state st spec r :
  error_set rt state = false ->
  state !! "specification"%string = Some spec ->
  gateway (get_analysis_prompt spec) = Some r ->
  Clarify.analyze_and_generate_questions rt gateway state st = (analysis_of rt r, st).
Proof.
  unfold error_set. intros He Hs Hg.
  unfold Clarify.analyze_and_generate_questions, analysis_of, getitem, invoke, bind, ret, raise.
  rewrite He, Hs, Hg.
  destruct (json_loads (Clarify.extract_json r)) as [[]|]; reflexivity.
Qed.

Lemma parse_error_truthy rt payload : truthy rt (VStr (parse_error rt payload)) = true.
Proof. reflexivity. Qed.

Lemma clarify_load_ok rt state st spec_path spec :
  find_latest_spec rt st = Some spec_path ->
  file_at st (spec_file_of spec_path) = Some (File (inl spec)) ->
  Clarify.load_specification rt state st
  = (Ret (dict [item "spec_path" (VPath spec_path);
                item "specification" (VStr spec);
                item "error" VNone]), st).
Proof.
  intros Hl Hf. unfold Clarify.load_specification, bind, get_store, ret.
  rewrite Hl. fold (spec_file_of spec_path). rewrite Hf. reflexivity.
Qed.

(** A Clarify run whose load succeeds and whose analysis yields no
    question, or a question list that counts as empty, ends after the
    analyze node without an error. *)
Lemma run_clarify_no_questions rt gateway answers st spec_path spec r questions :
  find_latest_spec rt st = Some spec_path ->
  file_at st (spec_file_of spec_path) = Some (File (inl spec)) ->
  gateway (get_analysis_prompt (VStr spec)) = Some r ->
  analysis_of rt r = Ret (dict [item "questions" (VJson questions)]) ->
  json_truthy rt questions = false ->
  Clarify.run_clarify rt gateway answers st
  = (Ret (merge (dict [item "questions" (VJson questions)])
            (loaded_state answers spec_path spec),
          ["load"; "analyze"]%string), st).
Proof.
  intros Hl Hf Hg Ha Hq.
  unfold Clarify.run_clarify, Clarify.build_clarify_workflow.
  rewrite (run_chain_step _ _ _ _ _ _ _ _ _ (clarify_load_ok rt _ st spec_path spec Hl Hf)).
  fold (loaded_state answers spec_path spec).
  replace (Clarify.should_continue_after_load rt (loaded_state answers spec_path spec))
    with true by reflexivity.
  assert (Clarify.analyze_and_generate_questions rt gateway
            (loaded_state answers spec_path spec) st
          = (Ret (dict [item "questions" (VJson questions)]), st)) as E2.
  { rewrite <- Ha. apply (analyze_outcome rt gateway _ st (VStr spec) r);
      [reflexivity|reflexivity|exact Hg]. }
  rewrite (run_chain_step _ _ _ _ _ _ _ _ _ E2).
  assert (Clarify.should_continue_after_analyze rt
            (merge (dict [item "questions" (VJson questions)])
               (loaded_state answers spec_path spec)) = false) as ->.
  { unfold Clarify.should_continue_after_analyze. rewrite !get_merge1.
    replace (truthy rt (get (loaded_state answers spec_path spec) "error"))
      with false by reflexivity.
    cbn [bool_decide decide_rel]. 
    replace (bool_decide ("questions"%string = "error"%string)) with false by reflexivity.
    replace (bool_decide ("questions"%string = "questions"%string)) with true by reflexivity.
    cbn [truthy]. rewrite Hq. reflexivity. }
  reflexivity.
Qed.

Lemma analysis_of_no_questions rt pre post :
  contains fence_json (pre ++ lit "```jso") = false ->
  analysis_of rt (no_questions_response pre post)
  = Ret (dict [item "questions" (VJson (JList []))]).
Proof.
  intros Hpre. unfold analysis_of, no_questions_response.
  rewrite (extract_json_fenced pre _ post Hpre) by reflexivity. reflexivity.
Qed.

(** When the closing fence is missing, [find] answers [-1] and the slice
    ends one character before the end of the response: the payload is the
    rest of the response without its last character, and it may decode. *)
Lemma extract_json_unclosed_fence rt :
  Clarify.extract_json (fence_json ++ no_questions_payload ++ [newline])
    = no_questions_payload
  /\ analysis_of rt (fence_json ++ no_questions_payload ++ [newline])
      = Ret (dict [item "questions" (VJson (JList []))]).
Proof. split; reflexivity. Qed.

(** C5. The analyze node takes as payload the text between the first
    json fence and the next fence, else between the first bare fence and
    the next one, else the whole response; it sets an error exactly when
    the payload does not decode, returns the questions of a decoded object,
    and raises on a decoded value that is no object. The response
    [no json here] gives an error; a response with the payload
    [{"questions":[]}] in a json fence gives an empty question list, and the
    run ends after the analyze node, without error, whatever the answers. *)
Theorem analyze_extracts_payload_or_fails (rt : runtime) (gateway : prompt -> option str) :
  (forall pre body post,
     contains fence_json (pre ++ lit "```jso") = false ->
     contains fence (body ++ lit "``") = false ->
     Clarify.extract_json (pre ++ fence_json ++ body ++ fence ++ post) = strip body)
  /\ (forall pre body post,
        contains fence_json (pre ++ fence ++ body ++ fence ++ post) = false ->
        contains fence (pre ++ lit "``") = false ->
        contains fence (body ++ lit "``") = false ->
        Clarify.extract_json (pre ++ fence ++ body ++ fence ++ post) = strip body)
  /\ (forall r, contains fence r = false -> Clarify.extract_json r = r)
  /\ (forall state st spec r,
        error_set rt state = false ->
        state !! "specification"%string = Some spec ->
        gateway (get_analysis_prompt spec) = Some r ->
        Clarify.analyze_and_generate_questions rt gateway state st = (analysis_of rt r, st)
        /\ (json_loads (Clarify.extract_json r) = None <->
              exists update, analysis_of rt r = Ret update /\ error_set rt update = true))
  /\ analysis_of rt (lit "no json here")
       = Ret (dict [item "error" (VStr (parse_error rt (lit "no json here")))])
  /\ (forall pre post answers st spec_path spec,
        contains fence_json (pre ++ lit "```jso") = false ->
        find_latest_spec rt st = Some spec_path ->
        file_at st (spec_file_of spec_path) = Some (File (inl spec)) ->
        gateway (get_analysis_prompt (VStr spec)) = Some (no_questions_response pre post) ->
        exists final,
          Clarify.run_clarify rt gateway answers st
            = (Ret (final, ["load"; "analyze"]%string), st)
          /\ get final "error" = VNone
          /\ get final "questions" = VJson (JList [])).
Proof.
  split; [exact extract_json_fenced|].
  split; [exact extract_json_bare_fence|].
  split; [exact extract_json_raw|].
  split; [|split; [reflexivity|]].
  - intros state st spec r He Hs Hg. split; [exact (analyze_outcome _ _ _ _ _ _ He Hs Hg)|].
    unfold analysis_of.
    destruct (json_loads (Clarify.extract_json r)) as [j|].
    + split; [discriminate|]. intros (update & Hu & Hset).
      destruct j; try discriminate. injection Hu as <-. discriminate.
    + split; [|reflexivity]. intros _. eexists. split; [reflexivity|reflexivity].
  - intros pre post answers st spec_path spec Hpre Hl Hf Hg.
    eexists. split; [|split].
    + apply (run_clarify_no_questions rt gateway answers st spec_path spec
               _ (JList []) Hl Hf Hg); [|reflexivity].
      exact (analysis_of_no_questions rt pre post Hpre).
    + reflexivity.
    + reflexivity.
Qed.

Lemma analyze_extracts_payload_or_fails_witness :
  exists final,
    Clarify.run_clarify ascii_runtime
      (stub_gateway (no_questions_response (lit "Sure: ") (lit " done")))
      (Some {[ 1%Z := lit "yes" ]}) spec_store
    = (Ret (final, ["load"; "analyze"]%string), spec_store)
    /\ get final "error" = VNone
    /\ get final "questions" = VJson (JList []).
Proof.
  apply (proj2 (proj2 (proj2 (proj2 (proj2
           (analyze_extracts_payload_or_fails ascii_runtime
              (stub_gateway (no_questions_response (lit "Sure: ") (lit " done")))))))))
    with (pre := lit "Sure: ") (post := lit " done")
         (spec_path := [specs; lit "001-export"]) (spec := lit "SPEC"); reflexivity.
Defined.

(** C10. When the payload decodes to an object without a [questions]
    key, the analyze node sets no error: it returns an empty question list,
    and a run whose load succeeded ends after the analyze node without
    error, as when no clarification is needed. *)
Theorem analyze_without_questions_key (rt : runtime) (gateway : prompt -> option str)
    (state : pstate) (st : store) (spec : value) (r : str) (d : list (str * json)) :
  error_set rt state = false ->
  state !! "specification"%string = Some spec ->
  gateway (get_analysis_prompt spec) = Some r ->
  json_loads (Clarify.extract_json r) = Some (JDict d) ->
  dict_get d (lit "questions") = None ->
  Clarify.analyze_and_generate_questions rt gateway state st
    = (Ret (dict [item "questions" (VJson (JList []))]), st)
  /\ error_set rt (merge (dict [item "questions" (VJson (JList []))]) state) = false
  /\ (forall answers st' spec_path text,
        spec = VStr text ->
        find_latest_spec rt st' = Some spec_path ->
        file_at st' (spec_file_of spec_path) = Some (File (inl text)) ->
        exists final,
          Clarify.run_clarify rt gateway answers st'
            = (Ret (final, ["load"; "analyze"]%string), st')
          /\ get final "error" = VNone
          /\ get final "questions" = VJson (JList [])).
Proof.
  intros He Hs Hg Hj Hq.
  assert (analysis_of rt r = Ret (dict [item "questions" (VJson (JList []))])) as Ha
    by (unfold analysis_of; rewrite Hj, Hq; reflexivity).
  split; [|split].
  - rewrite <- Ha. exact (analyze_outcome _ _ _ _ _ _ He Hs Hg).
  - unfold error_set in *. rewrite get_merge1. exact He.
  - intros answers st' spec_path text -> Hl Hf.
    eexists. split; [|split].
    + exact (run_clarify_no_questions rt gateway answers st' spec_path text
               r (JList []) Hl Hf Hg Ha eq_refl).
    + reflexivity.
    + reflexivity.
Qed.

Lemma analyze_without_questions_key_witness :
  Clarify.analyze_and_generate_questions ascii_runtime (stub_gateway (lit "{}"))
    (loaded_state None [specs; lit "001-export"] (lit "SPEC")) spec_store
  = (Ret (dict [item "questions" (VJson (JList []))]), spec_store).
Proof.
  refine (proj1 (analyze_without_questions_key ascii_runtime (stub_gateway (lit "{}"))
           (loaded_state None [specs; lit "001-export"] (lit "SPEC")) spec_store
           (VStr (lit "SPEC")) (lit "{}") [] _ _ _ _ _)); reflexivity.
Defined.

(** ** The update node of Clarify *)

Lemma build_qa_pairs_answered rt questions m st :
  forallb is_question questions = true ->
  Clarify.build_qa_pairs rt questions (VAnswers m) st
  = (Ret (answered_pairs questions m), st).
Proof.
  induction questions as [|q questions IH]; [reflexivity|].
  cbn [forallb]. intros [Hq Hqs]%andb_true_iff. specialize (IH Hqs).
  unfold is_question in Hq. destruct (question_parts q) as [[n text]|] eqn:Ep; [|discriminate].
  unfold answered_pairs. cbn [omap list_omap]. unfold answered_pair at 1. rewrite Ep.
  fold (answered_pairs questions m).
  unfold question_parts in Ep. destruct q as [| | | | |l|d]; try discriminate.
  destruct (dict_get d (lit "id")) as [[| |n'| | | |]|] eqn:Eid; try discriminate.
  destruct (dict_get d (lit "question")) as [text'|] eqn:Et; [|discriminate].
  injection Ep as -> ->.
  cbn [Clarify.build_qa_pairs]. unfold Clarify.json_getitem at 1. rewrite Eid.
  unfold bind at 1, ret at 1. unfold Clarify.answer_for, bind at 1, ret at 1.
  destruct (m !! n) as [a|]; [|exact IH].
  unfold bind at 1. unfold Clarify.json_getitem. rewrite Et. unfold ret at 1.
  unfold bind. rewrite IH. reflexivity.
Qed.

Lemma answered_pairs_ids questions m :
  forallb is_question questions = true ->
  List.map qa_id (answered_pairs questions m) = List.map JInt (answered_ids questions m).
Proof.
  unfold answered_pairs, answered_ids, question_ids.
  induction questions as [|q questions IH]; [reflexivity|].
  cbn [forallb]. intros [Hq Hqs]%andb_true_iff. specialize (IH Hqs).
  unfold is_question in Hq. cbn [omap list_omap]. unfold answered_pair at 1.
  destruct (question_parts q) as [[n text]|]; [|discriminate].
  cbn [fmap option_fmap option_map fst List.filter].
  destruct (m !! n) as [a|] eqn:Em.
  - rewrite bool_decide_eq_true_2 by eauto. cbn [List.map qa_id]. f_equal. exact IH.
  - rewrite bool_decide_eq_false_2 by (intros [x Hx]; discriminate). exact IH.
Qed.

(** C4 (as the code has it). In the update node, for well-formed
    questions and a supplied Answer Map, one pair is built for each question
    whose id is a key of the map, in the order of the questions; a map that
    is not empty and answers none of the questions sets the error that
    stands for a ValidationError, and otherwise the pairs are sent to the
    gateway. An empty Answer Map counts as none supplied: the node returns
    nothing. *)
Theorem update_builds_answered_pairs (rt : runtime) (gateway : prompt -> option str)
    (state : pstate) (st : store) (questions : list json) (m : gmap Z str) (spec : value) :
  error_set rt state = false ->
  state !! "questions"%string = Some (VJson (JList questions)) ->
  state !! "answers"%string = Some (VAnswers m) ->
  state !! "specification"%string = Some spec ->
  forallb is_question questions = true ->
  Clarify.build_qa_pairs rt questions (VAnswers m) st
    = (Ret (answered_pairs questions m), st)
  /\ List.map qa_id (answered_pairs questions m)
       = List.map JInt (answered_ids questions m)
  /\ (m <> ∅ ->
      Clarify.update_specification rt gateway state st
        = (update_of gateway spec (answered_pairs questions m), st)
      /\ (answered_pairs questions m = [] ->
          Clarify.update_specification rt gateway state st
            = (Ret (dict [item "error" (VStr no_answers_message)]), st)))
  /\ (m = ∅ -> Clarify.update_specification rt gateway state st = (Ret (dict []), st)).
Proof.
  unfold error_set. intros He Hq Ha Hs Hwf.
  pose proof (build_qa_pairs_answered rt questions m st Hwf) as Hb.
  split; [exact Hb|]. split; [exact (answered_pairs_ids questions m Hwf)|].
  assert (get state "answers" = VAnswers m) as Hga by (unfold get; rewrite Ha; reflexivity).
  split.
  - intros Hm.
    assert (Clarify.update_specification rt gateway state st
            = (update_of gateway spec (answered_pairs questions m), st)) as E.
    { unfold Clarify.update_specification. rewrite He, Hga. cbn [truthy].
      rewrite bool_decide_eq_false_2 by exact Hm. cbn [negb orb].
      unfold getitem. rewrite Hq, Hs. unfold bind at 1, ret at 1.
      unfold Clarify.json_iter, bind at 1, ret at 1. unfold bind at 1. rewrite Hb.
      unfold update_of. destruct (answered_pairs questions m) as [|p ps]; [reflexivity|].
      unfold bind, ret, invoke, raise.
      destruct (gateway _); reflexivity. }
    split; [exact E|]. intros Hnil. rewrite E, Hnil. reflexivity.
  - intros ->. unfold Clarify.update_specification. rewrite He, Hga. reflexivity.
Qed.

Lemma singleton_answers_nonempty (n : Z) (a : str) : ({[ n := a ]} : gmap Z str) <> ∅.
Proof. apply map_non_empty_singleton. Qed.

Lemma update_builds_answered_pairs_witness :
  Clarify.build_qa_pairs ascii_runtime two_questions (VAnswers {[ 1%Z := lit "yes" ]}) spec_store
    = (Ret [{| qa_id := JInt 1; qa_question := JStr (lit "Q1"); qa_answer := lit "yes" |}],
       spec_store)
  /\ Clarify.update_specification ascii_runtime silent_gateway
       (analyzed_state two_questions {[ 99%Z := lit "x" ]}) spec_store
     = (Ret (dict [item "error" (VStr no_answers_message)]), spec_store).
Proof.
  split.
  - exact (proj1 (update_builds_answered_pairs ascii_runtime silent_gateway
                    (analyzed_state two_questions {[ 1%Z := lit "yes" ]}) spec_store
                    two_questions {[ 1%Z := lit "yes" ]} (VStr (lit "SPEC"))
                    eq_refl eq_refl eq_refl eq_refl eq_refl)).
  - exact (proj2 (proj1 (proj2 (proj2
             (update_builds_answered_pairs ascii_runtime silent_gateway
                (analyzed_state two_questions {[ 99%Z := lit "x" ]}) spec_store
                two_questions {[ 99%Z := lit "x" ]} (VStr (lit "SPEC"))
                eq_refl eq_refl eq_refl eq_refl eq_refl)))
             (singleton_answers_nonempty 99 (lit "x"))) eq_refl).
Defined.

(** C4 (counterexample). With the questions 1 and 2 and the empty Answer
    Map, supplied but holding no answer, no pair is built and the update
    node returns nothing: no error is set. *)
Lemma update_with_empty_answer_map_is_silent :
  (forall rt gateway st,
     answered_pairs two_questions ∅ = []
     /\ Clarify.update_specification rt gateway (analyzed_state two_questions ∅) st
        = (Ret (dict []), st))
  /\ ~ (exists rt gateway, update_fails_without_pairs rt gateway).
Proof.
  split; [intros rt gateway st; split; reflexivity|].
  intros (rt & gateway & H).
  specialize (H (analyzed_state two_questions ∅) None two_questions ∅
                eq_refl eq_refl eq_refl eq_refl eq_refl).
  change (Clarify.update_specification rt gateway (analyzed_state two_questions ∅) None)
    with (@Ret pstate (dict []), @None (list entry)) in H.
  assert ((dict [] : pstate) = dict [item "error" (VStr no_answers_message)]) as Hu
    by congruence.
  apply (f_equal (fun u : pstate => u !! "error"%string)) in Hu.
  vm_compute in Hu. discriminate.
Qed.

(** * Further properties *)

(** ** Slugs *)

(** X1. Whatever the text, a slug matches [^[a-z0-9-]{0,50}$], does not
    begin with a hyphen and holds no two hyphens in a row; it ends in a
    hyphen only when it was cut to exactly 50 characters. *)
Theorem slugify_output_shape (rt : runtime) (text : str) :
  forallb is_slug_char (slugify rt text) = true
  /\ (length (slugify rt text) <= 50)%nat
  /\ no_leading_hyphen (slugify rt text) = true
  /\ no_double_hyphen (slugify rt text) = true
  /\ (no_trailing_hyphen (slugify rt text) = true
      \/ length (slugify rt text) = 50%nat).
Proof.
  destruct (slugify_shape rt text) as (Hp & Hl & Hd).
  apply andb_true_iff in Hp as [Hc Hlen]. apply Nat.leb_le in Hlen.
  repeat split; try assumption.
  destruct (slugify_trailing_hyphen_only_truncated rt text) as [H|[H _]]; auto.
Qed.

Lemma sub_runs_length p c in_run s :
  (length (sub_runs_from p [c] in_run s) <= length s)%nat.
Proof.
  revert in_run; induction s as [|x s IH]; intros in_run; simpl; [lia|].
  destruct (p x).
  - specialize (IH true). destruct in_run; simpl; lia.
  - specialize (IH false). simpl. lia.
Qed.

Lemma strip_chars_length p s : (length (strip_chars p s) <= length s)%nat.
Proof.
  destruct (strip_chars_infix p s) as (n & m & ->).
  rewrite length_take, length_drop. lia.
Qed.

Lemma slug_before_truncation_length rt s :
  forallb is_slug_char s = true ->
  (length (slug_before_truncation rt s) <= length s)%nat.
Proof.
  intros Hc. unfold slug_before_truncation, lower, re_sub_runs.
  rewrite lower_slug_chars by exact Hc.
  rewrite (sub_runs_none is_space_or_underscore) by (apply slug_chars_not_space; exact Hc).
  rewrite filter_all by exact Hc.
  etransitivity; [apply strip_chars_length|].
  apply (sub_runs_length is_hyphen 45 false s).
Qed.

(** X2. A second application of [slugify] always reaches a fixed point:
    applying it a third time changes nothing. *)
Theorem slugify_twice_is_fixed (rt : runtime) (text : str) :
  slugify rt (slugify rt (slugify rt text)) = slugify rt (slugify rt text).
Proof.
  apply slugify_idempotent_unless_trailing.
  destruct (slugify_shape rt text) as (Hp & _ & _).
  apply andb_true_iff in Hp as [Hc Hlen]. apply Nat.leb_le in Hlen.
  rewrite slugify_truncates.
  pose proof (slug_before_truncation_length rt (slugify rt text) Hc) as Hle.
  rewrite take_ge by lia.
  apply (slug_before_truncation_shape rt (slugify rt text)).
Qed.

Lemma sub_runs_all_hyphens in_run s :
  forallb is_hyphen s = true ->
  forallb is_hyphen (sub_runs_from is_hyphen (lit "-") in_run s) = true.
Proof.
  revert in_run; induction s as [|c s IH]; intros in_run; simpl; [reflexivity|].
  intros [Hc Hs]%andb_true_iff. rewrite Hc.
  destruct in_run; [exact (IH true Hs)|].
  change (lit "-" ++ sub_runs_from is_hyphen (lit "-") true s)
    with (45 :: sub_runs_from is_hyphen (lit "-") true s).
  cbn [forallb]. rewrite (IH true Hs). reflexivity.
Qed.

Lemma sub_runs_hyphens_only in_run s :
  forallb is_hyphen (sub_runs_from is_hyphen (lit "-") in_run s) = true ->
  forallb is_hyphen s = true.
Proof.
  revert in_run; induction s as [|c s IH]; intros in_run; simpl; [reflexivity|].
  destruct (is_hyphen c) eqn:Hc.
  - destruct in_run; [exact (IH true)|].
    change (lit "-" ++ sub_runs_from is_hyphen (lit "-") true s)
      with (45 :: sub_runs_from is_hyphen (lit "-") true s).
    cbn [forallb]. intros [_ H]%andb_true_iff. exact (IH true H).
  - cbn [forallb]. rewrite Hc. discriminate.
Qed.

Lemma slug_char_cases c :
  is_slug_char c = is_slug_alnum c || is_hyphen c.
Proof. reflexivity. Qed.

Lemma alnum_not_hyphen c : is_slug_alnum c = true -> is_hyphen c = false.
Proof.
  intros H. destruct (is_hyphen c) eqn:E; [exfalso|reflexivity].
  unfold is_slug_alnum in H. char_props. lia.
Qed.

Lemma alnum_not_space c : is_slug_alnum c = true -> is_space_or_underscore c = false.
Proof.
  intros H. apply slug_char_not_space. rewrite slug_char_cases, H. reflexivity.
Qed.

(** The characters of [[a-z0-9]] that a text holds are those its filtered
    form holds. *)
Lemma filter_no_alnum s :
  forallb is_hyphen (List.filter is_slug_char s) = true <->
  forallb (fun c => negb (is_slug_alnum c)) s = true.
Proof.
  induction s as [|c s IH]; [simpl; tauto|].
  cbn [List.filter forallb]. rewrite slug_char_cases.
  destruct (is_slug_alnum c) eqn:Ea; cbn [orb negb andb].
  - cbn [forallb]. rewrite (alnum_not_hyphen c Ea). cbn [andb]. tauto.
  - destruct (is_hyphen c) eqn:Eh; cbn [forallb]; [rewrite Eh|]; exact IH.
Qed.

Lemma sub_runs_space_no_alnum in_run s :
  forallb (fun c => negb (is_slug_alnum c))
    (sub_runs_from is_space_or_underscore (lit "-") in_run s) = true <->
  forallb (fun c => negb (is_slug_alnum c)) s = true.
Proof.
  revert in_run; induction s as [|c s IH]; intros in_run; [simpl; tauto|].
  cbn [sub_runs_from forallb].
  destruct (is_space_or_underscore c) eqn:Es.
  - assert (is_slug_alnum c = false) as ->.
    { destruct (is_slug_alnum c) eqn:Ea; [|reflexivity].
      rewrite (alnum_not_space c Ea) in Es. discriminate. }
    cbn [negb andb]. destruct in_run; [exact (IH true)|].
    change (lit "-" ++ sub_runs_from is_space_or_underscore (lit "-") true s)
      with (45 :: sub_runs_from is_space_or_underscore (lit "-") true s).
    cbn [forallb]. change (negb (is_slug_alnum 45)) with true. exact (IH true).
  - cbn [forallb]. rewrite !andb_true_iff, (IH false). tauto.
Qed.

(** X3. The slug of a text is empty exactly when the lowercased text holds
    no character of [[a-z0-9]]: the new directory is then named by its
    number and a hyphen alone. *)
Theorem slugify_empty_iff_no_alnum (rt : runtime) (text : str) :
  slugify rt text = [] <->
  forallb (fun c => negb (is_slug_alnum c)) (lower rt text) = true.
Proof.
  unfold slugify, re_sub_runs.
  set (s1 := sub_runs_from is_space_or_underscore (lit "-") false (lower rt text)).
  set (s3 := List.filter is_slug_char s1).
  set (s4 := sub_runs_from is_hyphen (lit "-") false s3).
  rewrite <- (sub_runs_space_no_alnum false (lower rt text)). fold s1.
  rewrite <- (filter_no_alnum s1). fold s3.
  split.
  - intros H.
    assert (strip_chars is_hyphen s4 = []) as Hs.
    { destruct (strip_chars is_hyphen s4); [reflexivity|discriminate]. }
    apply strip_chars_nil in Hs. exact (sub_runs_hyphens_only false s3 Hs).
  - intros H. apply (sub_runs_all_hyphens false) in H. fold s4 in H.
    apply strip_chars_nil in H. rewrite H. reflexivity.
Qed.

(** ** Numbering of the feature directories *)

Lemma max_by_id_fold b l : max_by id b l = fold_left Z.max l b.
Proof.
  revert b; induction l as [|x l IH]; intros b; simpl; [reflexivity|].
  rewrite IH. f_equal. unfold id. destruct (Z.ltb_spec b x); lia.
Qed.

Lemma fold_left_max_greatest l b :
  (0 <= b)%Z -> fold_left Z.max l b = Z.max b (greatest l).
Proof.
  revert b; induction l as [|x l IH]; intros b Hb; simpl; [lia|].
  rewrite IH by lia. lia.
Qed.

Lemma greatest_nonneg l : (0 <= greatest l)%Z.
Proof. induction l; simpl; lia. Qed.

Lemma greatest_ge l k : In k l -> (k <= greatest l)%Z.
Proof.
  induction l as [|x l IH]; simpl; [tauto|]. intros [->|H]; [lia|].
  specialize (IH H). lia.
Qed.

Lemma greatest_le l b :
  (0 <= b)%Z -> (forall k, In k l -> (k <= b)%Z) -> (greatest l <= b)%Z.
Proof.
  intros Hb. induction l as [|x l IH]; simpl; intros H; [exact Hb|].
  pose proof (H x (or_introl eq_refl)). specialize (IH (fun k Hk => H k (or_intror Hk))).
  lia.
Qed.

Lemma greatest_app l1 l2 : greatest (l1 ++ l2) = Z.max (greatest l1) (greatest l2).
Proof.
  induction l1 as [|x l1 IH]; simpl.
  - pose proof (greatest_nonneg l2). lia.
  - rewrite IH. lia.
Qed.

Lemma spec_numbers_nonneg rt st k : In k (spec_numbers rt st) -> (0 <= k)%Z.
Proof.
  unfold spec_numbers. intros H. apply list_elem_of_In, list_elem_of_omap in H.
  destruct H as (e & _ & He). exact (match_spec_number_nonneg _ _ _ He).
Qed.

Lemma spec_numbers_in rt st k :
  In k (spec_numbers rt st) <->
  exists e, In e (entries_of st) /\ is_dir e = true /\ match_spec_number rt (ename e) = Some k.
Proof.
  unfold spec_numbers, entries_of. rewrite <- list_elem_of_In, list_elem_of_omap. split.
  - intros (e & He & Hm). apply list_elem_of_In, filter_In in He as [H1 H2]. eauto.
  - intros (e & H1 & H2 & Hm). exists e. split; [|exact Hm].
    apply list_elem_of_In, filter_In. auto.
Qed.

(** The next number is one more than the greatest leading integer. *)
Lemma get_next_spec_number_greatest rt st :
  get_next_spec_number rt st = (greatest (spec_numbers rt st) + 1)%Z.
Proof.
  rewrite get_next_spec_number_numbers.
  destruct (spec_numbers rt st) as [|n ns] eqn:E; [reflexivity|].
  assert (0 <= n)%Z as Hn by (apply (spec_numbers_nonneg rt st); rewrite E; left; reflexivity).
  rewrite max_by_id_fold, fold_left_max_greatest by exact Hn. reflexivity.
Qed.

Lemma get_spec_number_cases rt e :
  (match_spec_number rt (ename e) = None /\ get_spec_number rt e = 0%Z)
  \/ match_spec_number rt (ename e) = Some (get_spec_number rt e).
Proof. unfold get_spec_number. destruct (match_spec_number rt (ename e)); auto. Qed.

Lemma latest_entry_greatest rt st d :
  latest_entry rt st = Some d ->
  get_spec_number rt d = greatest (spec_numbers rt st).
Proof.
  intros Hd. destruct (latest_entry_split rt st d Hd) as (before & after & E & Hb & Ha).
  assert (forall e, In e (entries_of st) -> is_dir e = true ->
            (get_spec_number rt e <= get_spec_number rt d)%Z) as Hmax.
  { intros e Hin Hdir.
    assert (In e (before ++ d :: after)) as H
      by (rewrite <- E; apply filter_In; auto).
    rewrite Forall_forall in Hb, Ha. apply in_app_or in H as [H|[H|H]].
    - specialize (Hb _ (proj2 (list_elem_of_In _ _) H)). lia.
    - subst. lia.
    - exact (Ha _ (proj2 (list_elem_of_In _ _) H)). }
  assert (In d (entries_of st) /\ is_dir d = true) as [Hin Hdir].
  { apply filter_In. unfold entries_of. rewrite E. apply in_or_app. right. left. reflexivity. }
  apply Z.le_antisymm.
  - destruct (get_spec_number_cases rt d) as [[_ ->]|H]; [apply greatest_nonneg|].
    apply greatest_ge, spec_numbers_in. eauto.
  - apply greatest_le; [apply get_spec_number_nonneg|].
    intros k Hk. apply spec_numbers_in in Hk as (e & He & Hdire & Hm).
    specialize (Hmax e He Hdire). unfold get_spec_number in Hmax at 1.
    rewrite Hm in Hmax. exact Hmax.
Qed.

(** X4. The number allocated next is at least 1, greater than the leading
    integer of every directory of the store, and one more than the number
    [find_latest_spec] ranks the latest directory by. *)
Theorem next_number_follows_latest (rt : runtime) (st : store) :
  (1 <= get_next_spec_number rt st)%Z
  /\ Forall (fun k => k < get_next_spec_number rt st)%Z (spec_numbers rt st)
  /\ (forall d, latest_entry rt st = Some d ->
        get_next_spec_number rt st = (get_spec_number rt d + 1)%Z).
Proof.
  rewrite get_next_spec_number_greatest. split; [|split].
  - pose proof (greatest_nonneg (spec_numbers rt st)). lia.
  - apply Forall_forall. intros k Hk. apply list_elem_of_In, greatest_ge in Hk. lia.
  - intros d Hd. rewrite (latest_entry_greatest rt st d Hd). reflexivity.
Qed.

Lemma greatest_same_elements l l' :
  (forall k, In k l <-> In k l') -> greatest l = greatest l'.
Proof.
  intros H. apply Z.le_antisymm; (apply greatest_le; [apply greatest_nonneg|]);
    intros k Hk; apply greatest_ge, H, Hk.
Qed.

(** X5. The number allocated next depends only on which entries the store
    root holds: neither the order in which they are listed nor repetitions
    change it. *)
Theorem next_number_order_independent (rt : runtime) (entries entries' : list entry) :
  (forall e, In e entries <-> In e entries') ->
  get_next_spec_number rt (Some entries) = get_next_spec_number rt (Some entries').
Proof.
  intros H. rewrite !get_next_spec_number_greatest. f_equal.
  apply greatest_same_elements. intros k. rewrite !spec_numbers_in.
  unfold entries_of. simpl. split; intros (e & He & Hr); exists e; (split; [apply H; exact He|exact Hr]).
Qed.

Lemma next_number_order_independent_witness :
  get_next_spec_number ascii_runtime (Some [dir_named "002-login"; dir_named "007-search"])
  = get_next_spec_number ascii_runtime (Some [dir_named "007-search"; dir_named "002-login"]).
Proof.
  apply next_number_order_independent. intros e. simpl. tauto.
Defined.

(** ** The name of a new feature directory *)

Lemma digit_value_ascii rt (k : N) :
  k < 10 -> digit_value rt (48 + k) = Some (Z.of_N k).
Proof.
  intros Hk. unfold digit_value.
  assert ((48 + k <? 128) = true) as -> by (apply N.ltb_lt; lia).
  assert (is_digit (48 + k) = true) as ->.
  { unfold is_digit, between. apply andb_true_iff. split; apply N.leb_le; lia. }
  do 2 f_equal. lia.
Qed.

Lemma leading_digits_uint rt d rest :
  leading_digits rt (lit (NilEmpty.string_of_uint d) ++ rest) =
  (uint_digits d ++ fst (leading_digits rt rest), snd (leading_digits rt rest)).
Proof.
  induction d as [|d IH|d IH|d IH|d IH|d IH|d IH|d IH|d IH|d IH|d IH];
    [simpl; destruct (leading_digits rt rest); reflexivity|..];
    cbn [NilEmpty.string_of_uint uint_digits];
    match goal with
    | |- context [lit (String ?c ?s)] =>
        change (lit (String c s)) with (N_of_ascii c :: lit s)
    end;
    cbn [app leading_digits];
    match goal with
    | |- context [digit_value rt ?c] =>
        let v := eval vm_compute in (c - 48) in
        change c with (48 + v); rewrite (digit_value_ascii rt v) by reflexivity
    end;
    rewrite IH; reflexivity.
Qed.

Lemma uint_digits_acc d acc :
  fold_left (fun a x => 10 * a + x)%Z (uint_digits d) (Z.pos acc)
  = Z.pos (Pos.of_uint_acc d acc).
Proof.
  revert acc; induction d; intros acc; cbn [uint_digits fold_left Pos.of_uint_acc];
    [reflexivity|..]; rewrite <- IHd; f_equal; lia.
Qed.

Lemma uint_digits_value d :
  int_of_digits (uint_digits d) = Z.of_N (N.of_uint d).
Proof.
  unfold int_of_digits, N.of_uint.
  induction d; cbn [uint_digits fold_left Pos.of_uint]; [reflexivity|exact IHd|..];
    match goal with
    | |- fold_left _ _ ?a = _ =>
        let v := eval vm_compute in a in change a with v
    end;
    rewrite uint_digits_acc; reflexivity.
Qed.

Lemma leading_digits_zeros rt k s :
  leading_digits rt (repeat 48 k ++ s) =
  (repeat 0%Z k ++ fst (leading_digits rt s), snd (leading_digits rt s)).
Proof.
  induction k as [|k IH]; cbn [repeat app].
  - destruct (leading_digits rt s); reflexivity.
  - cbn [leading_digits]. change 48 with (48 + 0).
    rewrite (digit_value_ascii rt 0) by reflexivity.
    change (48 + 0) with 48. rewrite IH. reflexivity.
Qed.

Lemma int_of_digits_zeros k ds :
  int_of_digits (repeat 0%Z k ++ ds) = int_of_digits ds.
Proof.
  unfold int_of_digits. induction k as [|k IH]; [reflexivity|]. exact IH.
Qed.

Lemma leading_digits_hyphen rt slug :
  leading_digits rt (lit "-" ++ slug) = ([], 45 :: slug).
Proof. reflexivity. Qed.

(** The name [create_spec_directory] gives a directory is read back as the
    number it was built from. *)
Lemma match_spec_number_format rt n slug :
  (0 <= n)%Z -> match_spec_number rt (format_03d n ++ lit "-" ++ slug) = Some n.
Proof.
  intros Hn. unfold match_spec_number, format_03d.
  set (u := N.to_uint (Z.to_N n)).
  assert (Z.of_N (N.of_uint u) = n) as Hu
    by (unfold u; rewrite DecimalN.Unsigned.of_to; lia).
  destruct (lit (NilEmpty.string_of_uint u)) as [|c ds] eqn:E.
  - assert (uint_digits u = []) as Hnil.
    { destruct u; try discriminate; reflexivity. }
    assert (n = 0%Z) as -> by (rewrite <- Hu, <- uint_digits_value, Hnil; reflexivity).
    reflexivity.
  - rewrite <- E. set (k := (3 - length (lit (NilEmpty.string_of_uint u)))%nat).
    rewrite <- app_assoc, leading_digits_zeros, leading_digits_uint, leading_digits_hyphen.
    cbn [fst snd]. rewrite app_nil_r.
    destruct (repeat 0%Z k ++ uint_digits u) as [|x xs] eqn:Ed.
    + exfalso. apply app_eq_nil in Ed as [_ Ed].
      destruct u; first [discriminate E|discriminate Ed].
    + rewrite <- Ed. change (is_hyphen 45) with true. cbn iota.
      rewrite int_of_digits_zeros, uint_digits_value, Hu. reflexivity.
Qed.

(** *** A created directory *)

Lemma spec_numbers_snoc rt st d k :
  match_spec_number rt d = Some k ->
  spec_numbers rt (Some (entries_of st ++ [new_dir d])) = spec_numbers rt st ++ [k].
Proof.
  intros Hk. unfold spec_numbers, entries_of. cbn [default from_option id].
  rewrite List.filter_app, omap_app. f_equal. cbn. rewrite Hk. reflexivity.
Qed.

Lemma old_directory_number rt st e :
  In e (entries_of st) -> is_dir e = true ->
  (get_spec_number rt e < get_next_spec_number rt st)%Z.
Proof.
  intros Hin Hdir. rewrite get_next_spec_number_greatest.
  destruct (get_spec_number_cases rt e) as [[_ ->]|H].
  - pose proof (greatest_nonneg (spec_numbers rt st)). lia.
  - assert (In (get_spec_number rt e) (spec_numbers rt st)) as Hk
      by (apply spec_numbers_in; eauto).
    apply greatest_ge in Hk. lia.
Qed.

Lemma next_directory_name_fresh rt st slug e :
  In e (entries_of st) -> is_dir e = true ->
  ename e <> format_03d (get_next_spec_number rt st) ++ lit "-" ++ slug.
Proof.
  intros Hin Hdir Heq. pose proof (old_directory_number rt st e Hin Hdir) as Hlt.
  unfold get_spec_number in Hlt. rewrite Heq, match_spec_number_format in Hlt; [lia|].
  rewrite get_next_spec_number_greatest.
  pose proof (greatest_nonneg (spec_numbers rt st)). lia.
Qed.

Lemma latest_entry_snoc rt st slug :
  let d := format_03d (get_next_spec_number rt st) ++ lit "-" ++ slug in
  latest_entry rt (Some (entries_of st ++ [new_dir d])) = Some (new_dir d).
Proof.
  intros d. set (st' := Some (entries_of st ++ [new_dir d])).
  assert (match_spec_number rt d = Some (get_next_spec_number rt st)) as Hd.
  { apply match_spec_number_format. rewrite get_next_spec_number_greatest.
    pose proof (greatest_nonneg (spec_numbers rt st)). lia. }
  destruct (latest_entry rt st') as [r|] eqn:Hr.
  - f_equal. pose proof (latest_entry_greatest rt st' r Hr) as Hg.
    unfold st' in Hg. rewrite (spec_numbers_snoc rt st d _ Hd), greatest_app in Hg.
    cbn [greatest fold_right] in Hg.
    destruct (latest_entry_split rt st' r Hr) as (before & after & E & _ & _).
    assert (In r (List.filter is_dir (entries_of st ++ [new_dir d]))) as Hin
      by (change (entries_of st ++ [new_dir d]) with (default [] st'); rewrite E;
          apply in_or_app; right; left; reflexivity).
    apply filter_In in Hin as [Hin Hdir]. apply in_app_or in Hin as [Hin|[<-|[]]];
      [|reflexivity].
    pose proof (old_directory_number rt st r Hin Hdir) as Hlt.
    rewrite get_next_spec_number_greatest in Hg, Hlt.
    pose proof (greatest_nonneg (spec_numbers rt st)). lia.
  - exfalso. unfold latest_entry, st' in Hr. rewrite List.filter_app in Hr. cbn in Hr.
    destruct (List.filter is_dir (entries_of st)); discriminate.
Qed.

(** X6. When [create_spec_directory] succeeds, the directory it returns did
    not exist before: the store root gains exactly one entry, an empty
    directory listed last, and every earlier entry is kept as it was. An
    existing directory is never returned a second time. *)
Theorem create_spec_directory_fresh (rt : runtime) (feature_name : str) (st st' : store)
    (p : path) (n : Z) :
  create_spec_directory rt (VStr feature_name) st = (Ret (p, n), st') ->
  let d := format_03d n ++ lit "-" ++ slugify rt feature_name in
  p = [specs; d]
  /\ (forall e, In e (entries_of st) -> ename e <> d)
  /\ st' = Some (entries_of st ++ [new_dir d]).
Proof.
  rewrite create_spec_directory_eq. cbv zeta. fold (entries_of st).
  destruct (List.find _ (entries_of st)) as [e|] eqn:Hf.
  - apply find_some in Hf as [Hin Hn].
    unfold entry_named, str_eqb in Hn. apply bool_decide_eq_true in Hn.
    destruct (is_dir e) eqn:Hdir; [|discriminate].
    exfalso. exact (next_directory_name_fresh rt st _ e Hin Hdir Hn).
  - intros [= <- <- <-]. split; [reflexivity|]. split; [|reflexivity].
    intros e Hin Hn. apply (find_none _ _ Hf) in Hin.
    unfold entry_named, str_eqb in Hin. apply bool_decide_eq_false in Hin. contradiction.
Qed.

Lemma create_spec_directory_fresh_witness :
  let d := format_03d 8 ++ lit "-" ++ slugify ascii_runtime (lit "Dark Mode") in
  [specs; lit "008-dark-mode"] = [specs; d]
  /\ (forall e, In e (entries_of sample_store) -> ename e <> d)
  /\ Some (entries_of sample_store ++ [dir_named "008-dark-mode"])
     = Some (entries_of sample_store ++ [new_dir d]).
Proof.
  apply (create_spec_directory_fresh ascii_runtime (lit "Dark Mode") sample_store).
  reflexivity.
Defined.

(** X7. After [create_spec_directory] succeeded, [find_latest_spec] returns
    the directory just created, whatever else the store holds, and the
    number allocated next is one more than the number it returned: the
    numbers of successive features increase strictly. *)
Theorem created_directory_is_latest (rt : runtime) (feature_name : str) (st st' : store)
    (p : path) (n : Z) :
  create_spec_directory rt (VStr feature_name) st = (Ret (p, n), st') ->
  find_latest_spec rt st' = Some p
  /\ get_next_spec_number rt st' = (n + 1)%Z
  /\ (1 <= n)%Z.
Proof.
  rewrite create_spec_directory_eq. cbv zeta. fold (entries_of st).
  set (d := format_03d (get_next_spec_number rt st) ++ lit "-" ++ slugify rt feature_name).
  assert (1 <= get_next_spec_number rt st)%Z as Hn.
  { rewrite get_next_spec_number_greatest.
    pose proof (greatest_nonneg (spec_numbers rt st)). lia. }
  destruct (List.find _ (entries_of st)) as [e|] eqn:Hf.
  - apply find_some in Hf as [Hin Hnm].
    unfold entry_named, str_eqb in Hnm. apply bool_decide_eq_true in Hnm.
    destruct (is_dir e) eqn:Hdir; [|discriminate].
    exfalso. exact (next_directory_name_fresh rt st _ e Hin Hdir Hnm).
  - intros [= <- <- <-]. change {| ename := d; kind := Dir [] |} with (new_dir d).
    split; [|split; [|exact Hn]].
    + pose proof (latest_entry_snoc rt st (slugify rt feature_name)) as Hl.
      cbv zeta in Hl. unfold find_latest_spec.
      change (default [] st) with (entries_of st). fold d in Hl. rewrite Hl. reflexivity.
    + rewrite get_next_spec_number_greatest.
      rewrite (spec_numbers_snoc rt st d (get_next_spec_number rt st)), greatest_app.
      * cbn [greatest fold_right]. rewrite get_next_spec_number_greatest.
        pose proof (greatest_nonneg (spec_numbers rt st)). lia.
      * apply match_spec_number_format. lia.
Qed.

Lemma created_directory_is_latest_witness :
  find_latest_spec ascii_runtime (Some (entries_of sample_store ++ [dir_named "008-dark-mode"]))
    = Some [specs; lit "008-dark-mode"]
  /\ get_next_spec_number ascii_runtime
       (Some (entries_of sample_store ++ [dir_named "008-dark-mode"])) = (8 + 1)%Z
  /\ (1 <= 8)%Z.
Proof.
  apply (created_directory_is_latest ascii_runtime (lit "Dark Mode") sample_store).
  reflexivity.
Defined.

(** *** Writing a file *)

Lemma entry_named_true d e : entry_named d e = true <-> ename e = d.
Proof. unfold entry_named, str_eqb. apply bool_decide_eq_true. Qed.

Lemma entry_named_false d e : entry_named d e = false <-> ename e <> d.
Proof. unfold entry_named, str_eqb. apply bool_decide_eq_false. Qed.

Lemma str_eqb_refl a : str_eqb a a = true.
Proof. unfold str_eqb. apply bool_decide_eq_true. reflexivity. Qed.

Lemma str_eqb_neq a b : a <> b -> str_eqb a b = false.
Proof. unfold str_eqb. apply bool_decide_eq_false. Qed.

Lemma dict_get_set_same {V} (d : list (str * V)) k v : dict_get (dict_set d k v) k = Some v.
Proof.
  induction d as [|[k' v'] d IH]; simpl.
  - rewrite str_eqb_refl. reflexivity.
  - destruct (str_eqb k' k) eqn:E; simpl; rewrite E; [reflexivity|exact IH].
Qed.

Lemma dict_get_set_other {V} (d : list (str * V)) k v k' :
  k' <> k -> dict_get (dict_set d k v) k' = dict_get d k'.
Proof.
  intros Hne. induction d as [|[k0 v0] d IH]; simpl.
  - rewrite str_eqb_neq by congruence. reflexivity.
  - destruct (str_eqb k0 k) eqn:E; simpl.
    + apply bool_decide_eq_true in E. subst k0. rewrite !str_eqb_neq by congruence.
      reflexivity.
    + destruct (str_eqb k0 k'); [reflexivity|exact IH].
Qed.

Lemma find_update_same d k entries e :
  List.find (entry_named d) entries = Some e ->
  List.find (entry_named d) (update_entry d k entries) = Some {| ename := d; kind := k |}.
Proof.
  induction entries as [|x xs IH]; simpl; [discriminate|].
  destruct (entry_named d x) eqn:E; simpl.
  - intros _. unfold entry_named at 1. simpl. rewrite str_eqb_refl. reflexivity.
  - rewrite E. exact IH.
Qed.

Lemma find_update_other d k entries d' :
  d' <> d ->
  List.find (entry_named d') (update_entry d k entries) = List.find (entry_named d') entries.
Proof.
  intros Hne. induction entries as [|x xs IH]; simpl; [reflexivity|].
  destruct (entry_named d x) eqn:E; simpl.
  - apply entry_named_true in E.
    assert (entry_named d' x = false) as -> by (apply entry_named_false; congruence).
    unfold entry_named at 1. simpl. rewrite str_eqb_neq by congruence. reflexivity.
  - destruct (entry_named d' x); [reflexivity|exact IH].
Qed.

Lemma update_entry_absent d k entries :
  List.find (entry_named d) entries = None -> update_entry d k entries = entries.
Proof.
  induction entries as [|x xs IH]; simpl; [reflexivity|].
  destruct (entry_named d x); [discriminate|]. intros H. rewrite (IH H). reflexivity.
Qed.

Lemma update_entry_app d k entries rest :
  List.find (entry_named d) entries = None ->
  update_entry d k (entries ++ rest) = entries ++ update_entry d k rest.
Proof.
  induction entries as [|x xs IH]; simpl; [reflexivity|].
  destruct (entry_named d x); [discriminate|]. intros H. rewrite (IH H). reflexivity.
Qed.

Lemma find_app_absent {A} (p : A -> bool) l rest :
  List.find p l = None -> List.find p (l ++ rest) = List.find p rest.
Proof.
  induction l as [|x xs IH]; simpl; [reflexivity|].
  destruct (p x); [discriminate|exact IH].
Qed.

Lemma find_app_present {A} (p : A -> bool) l rest x :
  List.find p l = Some x -> List.find p (l ++ rest) = Some x.
Proof.
  induction l as [|y ys IH]; simpl; [discriminate|].
  destruct (p y); [auto|exact IH].
Qed.

(** [save_markdown] of a text, step by step. *)
Lemma save_markdown_eq content d f st :
  save_markdown (VStr content) [specs; d; f] st =
  match List.find (entry_named d) (entries_of st) with
  | Some e =>
      match kind e with
      | NotDir => (Raise OSError, Some (entries_of st))
      | Dir ch =>
          match dict_get ch f with
          | Some (Folder _) => (Raise OSError, Some (entries_of st))
          | _ => (Ret tt, Some (update_entry d (Dir (dict_set ch f (File (inl content))))
                                 (entries_of st)))
          end
      end
  | None =>
      (Ret tt, Some (entries_of st
                     ++ [{| ename := d; kind := Dir [(f, File (inl content))] |}]))
  end.
Proof.
  unfold save_markdown. rewrite str_eqb_refl.
  unfold mkdir_spec, mkdir_root, write_text, bind, get_store, put_store, ret, raise,
    entries_of.
  destruct st as [entries|]; cbn [default from_option id].
  - destruct (List.find (entry_named d) entries) as [e|] eqn:Hf.
    + destruct e as [nm [|ch]]; cbn [is_dir kind].
      * reflexivity.
      * cbn [children_of]. rewrite Hf. destruct (dict_get ch f) as [[r|why]|]; reflexivity.
    + cbn [children_of]. rewrite (find_app_absent _ _ _ Hf). cbn [List.find].
      unfold entry_named at 1. cbn [ename]. rewrite str_eqb_refl. cbn [dict_get].
      cbn [default from_option id dict_set].
      rewrite (update_entry_app _ _ _ _ Hf). cbn [update_entry].
      unfold entry_named at 1. cbn [ename]. rewrite str_eqb_refl. reflexivity.
  - cbn [List.find app children_of]. unfold entry_named. cbn [ename].
    rewrite str_eqb_refl. cbn [dict_get dict_set default from_option id update_entry].
    unfold entry_named. cbn [ename]. rewrite str_eqb_refl. reflexivity.
Qed.

Lemma file_at_eq st d f :
  file_at st [specs; d; f] =
  match List.find (entry_named d) (entries_of st) with
  | Some {| kind := Dir ch |} => dict_get ch f
  | _ => None
  end.
Proof.
  unfold file_at. rewrite str_eqb_refl. unfold children_of, entries_of.
  destruct st as [entries|]; cbn [default from_option id]; [|reflexivity].
  destruct (List.find (entry_named d) entries) as [[nm [|ch]]|]; reflexivity.
Qed.

Lemma file_at_specs st p n : file_at st p = Some n -> exists d f, p = [specs; d; f].
Proof.
  unfold file_at. destruct p as [|r [|d [|f [|x p]]]]; try discriminate.
  destruct (str_eqb r specs) eqn:E; [|discriminate].
  apply bool_decide_eq_true in E. subst r. eauto.
Qed.

(** What a successful [save_markdown] leaves in the store. *)
Lemma save_markdown_files content d f st st' :
  save_markdown (VStr content) [specs; d; f] st = (Ret tt, st') ->
  file_at st' [specs; d; f] = Some (File (inl content))
  /\ forall p, p <> [specs; d; f] -> file_at st' p = file_at st p.
Proof.
  rewrite save_markdown_eq.
  destruct (List.find (entry_named d) (entries_of st)) as [e|] eqn:Hf.
  - destruct e as [nm [|ch]]; cbn [kind]; [discriminate|].
    assert ((Ret tt, Some (update_entry d (Dir (dict_set ch f (File (inl content))))
                                       (entries_of st))) = (Ret tt, st') ->
              file_at st' [specs; d; f] = Some (File (inl content))
              /\ forall p, p <> [specs; d; f] -> file_at st' p = file_at st p) as Hok.
    { intros [= <-]. split.
      - rewrite file_at_eq. cbn [entries_of default from_option id].
        rewrite (find_update_same _ _ _ _ Hf). apply dict_get_set_same.
      - intros p Hp. destruct (file_at st p) as [n|] eqn:Hn.
        + destruct (file_at_specs _ _ _ Hn) as (d' & f' & ->).
          rewrite <- Hn, !file_at_eq. cbn [entries_of default from_option id].
          fold (entries_of st). destruct (decide (d' = d)) as [->|Hd].
          * rewrite (find_update_same _ _ _ _ Hf), Hf.
            apply dict_get_set_other. congruence.
          * rewrite (find_update_other _ _ _ _ Hd). reflexivity.
        + destruct (file_at (Some _) p) as [n|] eqn:Hn'; [|reflexivity].
          destruct (file_at_specs _ _ _ Hn') as (d' & f' & ->).
          rewrite <- Hn, <- Hn', !file_at_eq. cbn [entries_of default from_option id].
          fold (entries_of st). destruct (decide (d' = d)) as [->|Hd].
          * rewrite (find_update_same _ _ _ _ Hf), Hf.
            apply dict_get_set_other. congruence.
          * rewrite (find_update_other _ _ _ _ Hd). reflexivity. }
    destruct (dict_get ch f) as [[r|why]|]; [exact Hok|discriminate|exact Hok].
  - intros [= <-]. split.
    + rewrite file_at_eq. cbn [entries_of default from_option id].
      rewrite (find_app_absent _ _ _ Hf). cbn [List.find].
      unfold entry_named at 1. cbn [ename]. rewrite str_eqb_refl. cbn [dict_get].
      rewrite str_eqb_refl. reflexivity.
    + assert (forall d' f', [specs; d'; f'] <> [specs; d; f] ->
                file_at (Some (entries_of st
                   ++ [{| ename := d; kind := Dir [(f, File (inl content))] |}]))
                  [specs; d'; f'] = file_at st [specs; d'; f']) as Hframe.
      { intros d' f' Hp. rewrite !file_at_eq. cbn [entries_of default from_option id].
        fold (entries_of st). destruct (decide (d' = d)) as [->|Hd].
        - rewrite (find_app_absent _ _ _ Hf), Hf. cbn [List.find].
          unfold entry_named at 1. cbn [ename]. rewrite str_eqb_refl. cbn [dict_get].
          rewrite str_eqb_neq by congruence. reflexivity.
        - destruct (List.find (entry_named d') (entries_of st)) as [e|] eqn:Hf'.
          + rewrite (find_app_present _ _ _ _ Hf'). reflexivity.
          + rewrite (find_app_absent _ _ _ Hf'). cbn [List.find].
            unfold entry_named at 1. cbn [ename]. rewrite str_eqb_neq by congruence.
            reflexivity. }
      intros p Hp. destruct (file_at st p) as [n|] eqn:Hn.
      * destruct (file_at_specs _ _ _ Hn) as (d' & f' & ->). rewrite <- Hn.
        apply Hframe, Hp.
      * destruct (file_at (Some _) p) as [n|] eqn:Hn'; [|reflexivity].
        destruct (file_at_specs _ _ _ Hn') as (d' & f' & ->). rewrite <- Hn, <- Hn'.
        apply Hframe, Hp.
Qed.




(** *** The listing of the store root *)

Lemma same_listing_refl l : same_listing l l.
Proof. induction l; constructor; auto. Qed.

Lemma same_listing_filter l l' :
  same_listing l l' -> same_listing (List.filter is_dir l) (List.filter is_dir l').
Proof.
  induction 1 as [|e e' l l' [Hn Hd] _ IH]; simpl; [constructor|].
  rewrite <- Hd. destruct (is_dir e) eqn:E; [|exact IH].
  constructor; [split; [exact Hn|congruence]|exact IH].
Qed.

Lemma same_listing_max_by rt best best' l l' :
  ename best = ename best' ->
  Forall2 (fun e e' => ename e = ename e' /\ is_dir e = is_dir e') l l' ->
  ename (max_by (get_spec_number rt) best l) = ename (max_by (get_spec_number rt) best' l').
Proof.
  intros Hb H. revert best best' Hb.
  induction H as [|e e' l l' [Hn Hd] _ IH]; intros best best' Hb; simpl; [exact Hb|].
  assert (get_spec_number rt best' = get_spec_number rt best) as ->
    by (unfold get_spec_number; rewrite Hb; reflexivity).
  assert (get_spec_number rt e' = get_spec_number rt e) as ->
    by (unfold get_spec_number; rewrite Hn; reflexivity).
  apply IH. destruct (_ <? _)%Z; assumption.
Qed.

Lemma same_listing_latest rt l l' :
  same_listing l l' ->
  find_latest_spec rt (Some l) = find_latest_spec rt (Some l')
  /\ get_next_spec_number rt (Some l) = get_next_spec_number rt (Some l').
Proof.
  intros H. apply same_listing_filter in H. split.
  - unfold find_latest_spec, latest_entry.
    destruct H as [|e e' dl dl' [Hn Hd] H]; [reflexivity|].
    cbn [fmap option_fmap option_map]. f_equal. f_equal. f_equal.
    apply same_listing_max_by; assumption.
  - rewrite !get_next_spec_number_greatest. f_equal. f_equal.
    unfold spec_numbers. cbn [default from_option id].
    induction H as [|e e' dl dl' [Hn Hd] _ IH]; [reflexivity|].
    cbn [omap list_omap]. rewrite <- Hn, IH. reflexivity.
Qed.

Lemma same_listing_update d ch entries e :
  List.find (entry_named d) entries = Some e -> is_dir e = true ->
  same_listing entries (update_entry d (Dir ch) entries).
Proof.
  induction entries as [|x xs IH]; simpl; [discriminate|].
  destruct (entry_named d x) eqn:E.
  - intros [= ->] Hd. constructor; [|apply same_listing_refl].
    apply entry_named_true in E. split; [exact E|exact Hd].
  - intros Hf Hd. constructor; [split; reflexivity|exact (IH Hf Hd)].
Qed.

Lemma save_markdown_listing content d f st st' :
  save_markdown (VStr content) [specs; d; f] st = (Ret tt, st') ->
  children_of st d <> None ->
  exists entries', st' = Some entries' /\ same_listing (entries_of st) entries'.
Proof.
  rewrite save_markdown_eq. unfold children_of. fold (entries_of st).
  destruct st as [entries|]; [|contradiction]. cbn [entries_of default from_option id].
  destruct (List.find (entry_named d) entries) as [[nm [|ch]]|] eqn:Hf; cbn [kind];
    try contradiction.
  intros H _.
  assert (st' = Some (update_entry d (Dir (dict_set ch f (File (inl content)))) entries))
    as -> by (destruct (dict_get ch f) as [[r|why]|]; congruence).
  eexists. split; [reflexivity|]. exact (same_listing_update _ _ _ _ Hf eq_refl).
Qed.

(** X10. Saving a file into a directory that exists changes neither which
    directory [find_latest_spec] returns nor the number allocated next. *)
Theorem save_markdown_keeps_latest (rt : runtime) (content d f : str) (st st' : store) :
  save_markdown (VStr content) [specs; d; f] st = (Ret tt, st') ->
  children_of st d <> None ->
  find_latest_spec rt st' = find_latest_spec rt st
  /\ get_next_spec_number rt st' = get_next_spec_number rt st.
Proof.
  intros H Hd. destruct (save_markdown_listing _ _ _ _ _ H Hd) as (entries' & -> & Hl).
  destruct st as [entries|]; [|contradiction].
  destruct (same_listing_latest rt _ _ Hl) as [H1 H2]. split; symmetry; assumption.
Qed.

Lemma save_markdown_keeps_latest_witness :
  find_latest_spec ascii_runtime
    (Some [{| ename := lit "001-export";
              kind := Dir [(lit "specification.md", File (inl (lit "SPEC")));
                           (lit "plan.md", File (inl (lit "PLAN")))] |}])
  = find_latest_spec ascii_runtime spec_store
  /\ get_next_spec_number ascii_runtime
       (Some [{| ename := lit "001-export";
                 kind := Dir [(lit "specification.md", File (inl (lit "SPEC")));
                              (lit "plan.md", File (inl (lit "PLAN")))] |}])
     = get_next_spec_number ascii_runtime spec_store.
Proof.
  apply (save_markdown_keeps_latest ascii_runtime (lit "PLAN") (lit "001-export")
           (lit "plan.md") spec_store).
  - reflexivity.
  - discriminate.
Defined.

(** *** Specify *)

Lemma specify_analyze_valid text rest st :
  (10 <= length (strip text))%nat ->
  Specify.analyze_input (<["feature_description"%string := VStr text]> rest) st
  = (Ret (dict [item "error" VNone]), st).
Proof.
  intros Hlen. unfold Specify.analyze_input, get_or. rewrite lookup_insert_eq.
  cbn [default from_option id].
  rewrite bool_decide_eq_false_2 by (intros E; rewrite E in Hlen; simpl in Hlen; lia).
  destruct (Nat.ltb_spec (length (strip text)) 10); [lia|reflexivity].
Qed.

Lemma specify_analyze_invalid rt text rest st :
  (length (strip text) < 10)%nat ->
  exists message,
    Specify.analyze_input (<["feature_description"%string := VStr text]> rest) st
    = (Ret (dict [item "error" (VStr message)]), st)
    /\ truthy rt (VStr message) = true.
Proof.
  intros Hlen. unfold Specify.analyze_input, get_or. rewrite lookup_insert_eq.
  cbn [default from_option id]. destruct (bool_decide (strip text = [])).
  - eexists. split; reflexivity.
  - destruct (Nat.ltb_spec (length (strip text)) 10); [|lia]. eexists. split; reflexivity.
Qed.

(** X11. A description with fewer than 10 characters once trimmed, the
    empty one included, ends a Specify run after the validation node: an
    error is set, the gateway is not called, no number is allocated and the
    store is left as it was. *)
Theorem specify_rejects_short_description (rt : runtime) (gateway : prompt -> option str)
    (text : str) (st : store) :
  (length (strip text) < 10)%nat ->
  exists final,
    Specify.run_specify rt gateway text st = (Ret (final, ["analyze"%string]), st)
    /\ truthy rt (get final "error") = true
    /\ get final "specification" = VStr []
    /\ get final "spec_number" = VInt 0
    /\ Specify.run_specify rt silent_gateway text st = (Ret (final, ["analyze"%string]), st).
Proof.
  intros Hlen. unfold Specify.run_specify, Specify.build_specify_workflow.
  set (rest := dict [item "specification" (VStr []); item "spec_path" (VPath []);
                     item "spec_number" (VInt 0); item "error" VNone]).
  change (dict (item "feature_description" (VStr text) :: _))
    with (<["feature_description"%string := VStr text]> rest).
  destruct (specify_analyze_invalid rt text rest st Hlen) as (message & E & Ht).
  rewrite !(run_chain_step _ _ _ _ _ _ _ _ _ E).
  set (s1 := merge _ _).
  assert (get s1 "error" = VStr message) as He by reflexivity.
  assert (Specify.should_continue rt s1 = false) as ->
    by (unfold Specify.should_continue; rewrite He, Ht; reflexivity).
  exists s1. rewrite He. repeat split; try reflexivity. exact Ht.
Qed.

Lemma specify_rejects_short_description_witness :
  exists final,
    Specify.run_specify ascii_runtime (stub_gateway (lit "SPEC")) (lit "  too short ") None
      = (Ret (final, ["analyze"%string]), None)
    /\ truthy ascii_runtime (get final "error") = true
    /\ get final "specification" = VStr []
    /\ get final "spec_number" = VInt 0
    /\ Specify.run_specify ascii_runtime silent_gateway (lit "  too short ") None
       = (Ret (final, ["analyze"%string]), None).
Proof.
  apply (specify_rejects_short_description ascii_runtime (stub_gateway (lit "SPEC"))
           (lit "  too short ") None).
  vm_compute. lia.
Defined.

Lemma next_dir_name_absent rt st feature_name :
  (forall e, In e (entries_of st) -> is_dir e = false ->
             ename e <> next_dir_name rt st feature_name) ->
  List.find (entry_named (next_dir_name rt st feature_name)) (entries_of st) = None.
Proof.
  intros H. destruct (List.find _ _) as [e|] eqn:Hf; [|reflexivity].
  apply find_some in Hf as [Hin Hn]. apply entry_named_true in Hn.
  destruct (is_dir e) eqn:Hd.
  - exfalso. exact (next_directory_name_fresh rt st _ e Hin Hd Hn).
  - exfalso. exact (H e Hin Hd Hn).
Qed.

Lemma specify_save rt state text specification st :
  truthy rt (get state "error") = false ->
  state !! "feature_description"%string = Some (VStr text) ->
  state !! "specification"%string = Some (VStr specification) ->
  List.find (entry_named (next_dir_name rt st text)) (entries_of st) = None ->
  Specify.save_specification rt state st
  = (Ret (dict [item "spec_path" (VPath [specs; next_dir_name rt st text]);
                item "spec_number" (VInt (get_next_spec_number rt st))]),
     Some (entries_of st
           ++ [dir_with (next_dir_name rt st text) [(lit "specification.md", specification)]])).
Proof.
  intros He Hd Hs Hf. unfold Specify.save_specification. rewrite He.
  unfold getitem at 1. rewrite Hd. unfold bind at 1, ret at 1.
  unfold bind at 1. rewrite create_spec_directory_eq. cbv zeta.
  fold (entries_of st). fold (next_dir_name rt st text). rewrite Hf.
  unfold getitem. rewrite Hs. unfold bind at 1, ret at 1.
  unfold bind at 1. cbn [app]. rewrite save_markdown_eq.
  cbn [entries_of default from_option id]. fold (entries_of st).
  rewrite (find_app_absent _ _ _ Hf). cbn [List.find].
  unfold entry_named at 1. cbn [ename]. rewrite str_eqb_refl. cbn [kind dict_get dict_set].
  rewrite (update_entry_app _ _ _ _ Hf). cbn [update_entry].
  unfold entry_named at 1. cbn [ename]. rewrite str_eqb_refl. reflexivity.
Qed.

Lemma specify_generate rt gateway state text st :
  truthy rt (get state "error") = false ->
  state !! "feature_description"%string = Some (VStr text) ->
  Specify.generate_specification rt gateway state st
  = match gateway (get_specify_prompt (VStr text)) with
    | Some specification => (Ret (dict [item "specification" (VStr specification)]), st)
    | None => (Raise GatewayError, st)
    end.
Proof.
  intros He Hd. unfold Specify.generate_specification. rewrite He.
  unfold getitem, bind, ret, invoke, raise. rewrite Hd.
  destruct (gateway _); reflexivity.
Qed.

(** X12. A Specify run on a description of at least 10 characters once
    trimmed, with a gateway that answers, runs its three nodes and adds one
    directory to the store, listed last: it is named by the number allocated
    next and the slug of the description as given, and holds the file
    [specification.md] with the text of the gateway. Every earlier entry is
    kept. The one obstacle is an entry that is not a directory and already
    has that name. *)
Theorem specify_creates_artifact_set (rt : runtime) (gateway : prompt -> option str)
    (text specification : str) (st : store) :
  (10 <= length (strip text))%nat ->
  gateway (get_specify_prompt (VStr text)) = Some specification ->
  (forall e, In e (entries_of st) -> is_dir e = false ->
             ename e <> next_dir_name rt st text) ->
  exists final,
    Specify.run_specify rt gateway text st
    = (Ret (final, ["analyze"; "generate"; "save"]%string),
       Some (entries_of st
             ++ [dir_with (next_dir_name rt st text) [(lit "specification.md", specification)]]))
    /\ get final "spec_path" = VPath [specs; next_dir_name rt st text]
    /\ get final "spec_number" = VInt (get_next_spec_number rt st)
    /\ get final "specification" = VStr specification
    /\ get final "error" = VNone.
Proof.
  intros Hlen Hg Hfree. unfold Specify.run_specify, Specify.build_specify_workflow.
  set (rest := dict [item "specification" (VStr []); item "spec_path" (VPath []);
                     item "spec_number" (VInt 0); item "error" VNone]).
  change (dict (item "feature_description" (VStr text) :: _))
    with (<["feature_description"%string := VStr text]> rest).
  rewrite (run_chain_step _ _ _ _ _ _ _ _ _ (specify_analyze_valid text rest st Hlen)).
  set (s1 := merge _ _).
  replace (Specify.should_continue rt s1) with true by reflexivity.
  assert (Specify.generate_specification rt gateway s1 st
          = (Ret (dict [item "specification" (VStr specification)]), st)) as E2.
  { rewrite (specify_generate rt gateway s1 text st), Hg; reflexivity. }
  rewrite (run_chain_step _ _ _ _ _ _ _ _ _ E2). cbn [always].
  set (s2 := merge _ s1).
  rewrite (run_chain_step _ _ _ _ _ _ _ _ _
             (specify_save rt s2 text specification st eq_refl eq_refl eq_refl
                (next_dir_name_absent rt st text Hfree))).
  cbn [always run_chain]. unfold ret. eexists. split; [reflexivity|].
  repeat split; reflexivity.
Qed.

Lemma specify_creates_artifact_set_witness :
  exists final,
    Specify.run_specify ascii_runtime (stub_gateway (lit "SPEC")) (lit "Dark Mode Toggle")
      sample_store
    = (Ret (final, ["analyze"; "generate"; "save"]%string),
       Some (entries_of sample_store
             ++ [dir_with (next_dir_name ascii_runtime sample_store (lit "Dark Mode Toggle"))
                   [(lit "specification.md", lit "SPEC")]]))
    /\ get final "spec_path"
       = VPath [specs; next_dir_name ascii_runtime sample_store (lit "Dark Mode Toggle")]
    /\ get final "spec_number" = VInt (get_next_spec_number ascii_runtime sample_store)
    /\ get final "specification" = VStr (lit "SPEC")
    /\ get final "error" = VNone.
Proof.
  apply (specify_creates_artifact_set ascii_runtime (stub_gateway (lit "SPEC"))
           (lit "Dark Mode Toggle") (lit "SPEC") sample_store).
  - vm_compute. lia.
  - reflexivity.
  - intros e He Hd. vm_compute in He.
    destruct He as [<-|[<-|[<-|[<-|[]]]]]; try discriminate Hd. vm_compute. discriminate.
Defined.



(** *** Saving into the latest directory *)

Lemma find_latest_spec_path rt st p :
  find_latest_spec rt st = Some p -> exists d, p = [specs; d].
Proof.
  unfold find_latest_spec. destruct (latest_entry rt st) as [e|]; [|discriminate].
  intros [= <-]. eauto.
Qed.

Lemma save_existing content d f st f0 n0 :
  file_at st [specs; d; f0] = Some n0 ->
  (forall why, file_at st [specs; d; f] <> Some (Folder why)) ->
  exists st',
    save_markdown (VStr content) [specs; d; f] st = (Ret tt, st')
    /\ file_at st' [specs; d; f] = Some (File (inl content))
    /\ (forall q, q <> [specs; d; f] -> file_at st' q = file_at st q)
    /\ forall rt, find_latest_spec rt st' = find_latest_spec rt st
                  /\ get_next_spec_number rt st' = get_next_spec_number rt st.
Proof.
  intros H0 Hfree.
  assert (children_of st d <> None) as Hd.
  { unfold file_at in H0. rewrite str_eqb_refl in H0.
    destruct (children_of st d); [discriminate|discriminate]. }
  assert (exists st', save_markdown (VStr content) [specs; d; f] st = (Ret tt, st'))
    as [st' E].
  { rewrite save_markdown_eq. rewrite file_at_eq in H0, Hfree.
    destruct (List.find (entry_named d) (entries_of st)) as [[nm [|ch]]|];
      try discriminate. cbn [kind].
    destruct (dict_get ch f) as [[r|why]|]; eauto. exfalso. exact (Hfree why eq_refl). }
  exists st'. split; [exact E|].
  destruct (save_markdown_files _ _ _ _ _ E) as [Hr Hframe].
  split; [exact Hr|]. split; [exact Hframe|].
  intros rt. destruct (save_markdown_listing _ _ _ _ _ E Hd) as (entries' & -> & Hl).
  destruct st as [entries|]; [|contradiction].
  destruct (same_listing_latest rt _ _ Hl) as [H1 H2]. split; symmetry; assumption.
Qed.

(** *** Plan *)

Lemma plan_load_error rt state st :
  latest_specification rt st = None ->
  exists message,
    Plan.load_specification rt state st = (Ret (dict [item "error" (VStr message)]), st)
    /\ truthy rt (VStr message) = true.
Proof.
  unfold latest_specification, Plan.load_specification, bind, get_store, ret.
  destruct (find_latest_spec rt st) as [p|]; [|intros _; eexists; split; reflexivity].
  fold (spec_file_of p).
  destruct (file_at st (spec_file_of p)) as [[[spec|e]|why]|]; cbn [readable read_text];
    first [discriminate|intros _; eexists; split; reflexivity].
Qed.

Lemma plan_load_ok rt state st p spec :
  find_latest_spec rt st = Some p ->
  file_at st (spec_file_of p) = Some (File (inl spec)) ->
  Plan.load_specification rt state st
  = (Ret (dict [item "spec_path" (VPath p);
                item "specification" (VStr spec);
                item "error" VNone]), st).
Proof.
  intros Hl Hf. unfold Plan.load_specification, bind, get_store, ret.
  rewrite Hl. fold (spec_file_of p). rewrite Hf. reflexivity.
Qed.

(** X14. Plan reads the specification of the latest directory only. When
    the store has no directory, or the latest one has no readable
    [specification.md], the run ends after the load node with an error: the
    gateway is not called and the store is left as it was, whatever older
    directories hold. *)
Theorem plan_requires_specification (rt : runtime) (gateway : prompt -> option str)
    (technical_constraints : str) (st : store) :
  latest_specification rt st = None ->
  exists final,
    Plan.run_plan rt gateway technical_constraints st = (Ret (final, ["load"%string]), st)
    /\ truthy rt (get final "error") = true
    /\ get final "plan" = VStr []
    /\ Plan.run_plan rt silent_gateway technical_constraints st
       = (Ret (final, ["load"%string]), st).
Proof.
  intros Hnone. unfold Plan.run_plan, Plan.build_plan_workflow.
  set (s0 := dict _).
  destruct (plan_load_error rt s0 st Hnone) as (message & E & Ht).
  rewrite !(run_chain_step _ _ _ _ _ _ _ _ _ E).
  set (s1 := merge _ _).
  assert (get s1 "error" = VStr message) as He by reflexivity.
  assert (Plan.should_continue rt s1 = false) as ->
    by (unfold Plan.should_continue; rewrite He, Ht; reflexivity).
  exists s1. rewrite He. repeat split; try reflexivity. exact Ht.
Qed.

Lemma plan_requires_specification_witness :
  exists final,
    Plan.run_plan ascii_runtime (stub_gateway (lit "PLAN")) (lit "Use SQLite") sample_store
      = (Ret (final, ["load"%string]), sample_store)
    /\ truthy ascii_runtime (get final "error") = true
    /\ get final "plan" = VStr []
    /\ Plan.run_plan ascii_runtime silent_gateway (lit "Use SQLite") sample_store
       = (Ret (final, ["load"%string]), sample_store).
Proof.
  apply (plan_requires_specification ascii_runtime (stub_gateway (lit "PLAN"))
           (lit "Use SQLite") sample_store).
  reflexivity.
Defined.

Lemma plan_run rt gateway technical_constraints st d spec plan st' :
  find_latest_spec rt st = Some [specs; d] ->
  file_at st (spec_file_of [specs; d]) = Some (File (inl spec)) ->
  gateway (get_plan_prompt (VStr spec) (VStr technical_constraints)) = Some plan ->
  save_markdown (VStr plan) [specs; d; lit "plan.md"] st = (Ret tt, st') ->
  exists final,
    Plan.run_plan rt gateway technical_constraints st
    = (Ret (final, ["load"; "generate"; "save"]%string), st')
    /\ get final "plan_file" = VPath (plan_file_of [specs; d])
    /\ get final "error" = VNone.
Proof.
  intros Hl Hf Hg Es.
  unfold Plan.run_plan, Plan.build_plan_workflow. set (s0 := dict _).
  rewrite (run_chain_step _ _ _ _ _ _ _ _ _ (plan_load_ok rt s0 st _ spec Hl Hf)).
  set (s1 := merge _ _).
  replace (Plan.should_continue rt s1) with true by reflexivity.
  assert (Plan.generate_plan rt gateway s1 st = (Ret (dict [item "plan" (VStr plan)]), st))
    as E2.
  { unfold Plan.generate_plan.
    replace (truthy rt (get s1 "error")) with false by reflexivity.
    unfold getitem.
    replace (s1 !! "specification"%string) with (Some (VStr spec)) by reflexivity.
    replace (get_or s1 "technical_constraints" (VStr []))
      with (VStr technical_constraints) by reflexivity.
    unfold bind, ret, invoke. rewrite Hg. reflexivity. }
  rewrite (run_chain_step _ _ _ _ _ _ _ _ _ E2). cbn [always].
  set (s2 := merge _ s1).
  assert (Plan.save_plan rt s2 st
          = (Ret (dict [item "plan_file" (VPath [specs; d; lit "plan.md"])]), st')) as E3.
  { unfold Plan.save_plan.
    replace (truthy rt (get s2 "error")) with false by reflexivity.
    unfold getitem.
    replace (s2 !! "spec_path"%string) with (Some (VPath [specs; d])) by reflexivity.
    replace (s2 !! "plan"%string) with (Some (VStr plan)) by reflexivity.
    unfold bind at 1, ret at 1. unfold bind at 1, path_div, ret at 1.
    unfold bind at 1, ret at 1. unfold bind. cbn [app]. rewrite Es. reflexivity. }
  rewrite (run_chain_step _ _ _ _ _ _ _ _ _ E3). cbn [always run_chain]. unfold ret.
  eexists. split; [reflexivity|]. split; reflexivity.
Qed.

(** X15. With a readable specification in the latest directory and a
    gateway that answers the plan prompt made of that specification and the
    constraints, a Plan run runs its three nodes and writes the answer to
    [plan.md] in that directory. No other path of the store changes, and the
    directory stays the latest. The one obstacle is a directory named
    [plan.md]. *)
Theorem plan_writes_plan (rt : runtime) (gateway : prompt -> option str)
    (technical_constraints : str) (st : store) (p : path) (spec plan : str) :
  find_latest_spec rt st = Some p ->
  file_at st (spec_file_of p) = Some (File (inl spec)) ->
  gateway (get_plan_prompt (VStr spec) (VStr technical_constraints)) = Some plan ->
  (forall why, file_at st (plan_file_of p) <> Some (Folder why)) ->
  exists final st',
    Plan.run_plan rt gateway technical_constraints st
    = (Ret (final, ["load"; "generate"; "save"]%string), st')
    /\ file_at st' (plan_file_of p) = Some (File (inl plan))
    /\ (forall q, q <> plan_file_of p -> file_at st' q = file_at st q)
    /\ find_latest_spec rt st' = Some p
    /\ get final "plan_file" = VPath (plan_file_of p)
    /\ get final "error" = VNone.
Proof.
  intros Hl Hf Hg Hfree. destruct (find_latest_spec_path rt st p Hl) as [d ->].
  destruct (save_existing plan d (lit "plan.md") st _ _ Hf Hfree)
    as (st' & Es & Hr & Hframe & Hlatest).
  destruct (plan_run rt gateway technical_constraints st d spec plan st' Hl Hf Hg Es)
    as (final & E & Hpf & He).
  exists final, st'. split; [exact E|]. split; [exact Hr|]. split; [exact Hframe|].
  split; [rewrite (proj1 (Hlatest rt)); exact Hl|]. split; assumption.
Qed.

Lemma plan_writes_plan_witness :
  exists final st',
    Plan.run_plan ascii_runtime (stub_gateway (lit "PLAN")) (lit "Use SQLite") spec_store
    = (Ret (final, ["load"; "generate"; "save"]%string), st')
    /\ file_at st' (plan_file_of [specs; lit "001-export"]) = Some (File (inl (lit "PLAN")))
    /\ (forall q, q <> plan_file_of [specs; lit "001-export"] ->
          file_at st' q = file_at spec_store q)
    /\ find_latest_spec ascii_runtime st' = Some [specs; lit "001-export"]
    /\ get final "plan_file" = VPath (plan_file_of [specs; lit "001-export"])
    /\ get final "error" = VNone.
Proof.
  apply (plan_writes_plan ascii_runtime (stub_gateway (lit "PLAN")) (lit "Use SQLite")
           spec_store [specs; lit "001-export"] (lit "SPEC") (lit "PLAN")).
  - reflexivity.
  - reflexivity.
  - reflexivity.
  - intros why. discriminate.
Defined.

(** *** Tasks *)

Lemma tasks_load_error rt state st :
  latest_specification rt st = None \/ latest_plan rt st = None ->
  exists message,
    Tasks.load_plan rt state st = (Ret (dict [item "error" (VStr message)]), st)
    /\ truthy rt (VStr message) = true
    /\ (forall p, find_latest_spec rt st = Some p -> file_at st (spec_file_of p) = None ->
          message = spec_not_found_message p)
    /\ (forall p n, find_latest_spec rt st = Some p ->
          file_at st (spec_file_of p) = Some n -> file_at st (plan_file_of p) = None ->
          message = plan_not_found_message p).
Proof.
  unfold latest_specification, latest_plan, Tasks.load_plan, bind, get_store, ret.
  destruct (find_latest_spec rt st) as [p|].
  2:{ intros _. eexists. split; [reflexivity|]. split; [reflexivity|].
      split; intros; discriminate. }
  fold (spec_file_of p). fold (plan_file_of p).
  destruct (file_at st (spec_file_of p)) as [sn|] eqn:Es.
  2:{ intros _. eexists. split; [reflexivity|]. split; [reflexivity|].
      split; [intros p' [= <-] _; reflexivity|intros p' n [= <-]; congruence]. }
  destruct (file_at st (plan_file_of p)) as [pn|] eqn:Ep.
  2:{ intros _. eexists. split; [reflexivity|]. split; [reflexivity|].
      split; [intros p' [= <-]; congruence|intros p' n [= <-] _ _; reflexivity]. }
  destruct sn as [[spec|e]|why], pn as [[plan|e']|why']; cbn [readable read_text];
    intros [H|H]; try discriminate H;
    (eexists; split; [reflexivity|]; split; [reflexivity|];
     split; [intros p' [= <-]; congruence|intros p' n [= <-]; congruence]).
Qed.

Lemma tasks_load_ok rt state st p spec plan :
  find_latest_spec rt st = Some p ->
  file_at st (spec_file_of p) = Some (File (inl spec)) ->
  file_at st (plan_file_of p) = Some (File (inl plan)) ->
  Tasks.load_plan rt state st
  = (Ret (dict [item "spec_path" (VPath p);
                item "specification" (VStr spec);
                item "plan" (VStr plan);
                item "error" VNone]), st).
Proof.
  intros Hl Hf Hp. unfold Tasks.load_plan, bind, get_store, ret.
  rewrite Hl. fold (spec_file_of p). fold (plan_file_of p). rewrite Hf, Hp. reflexivity.
Qed.

(** X16. Tasks needs both files of the latest directory. When the
    specification or the plan is missing or cannot be read, the run ends
    after the load node with an error, without calling the gateway or
    touching the store. A missing specification is reported first, also
    when the plan is missing too; a missing plan is reported with the path
    of [plan.md]. *)
Theorem tasks_requires_specification_and_plan (rt : runtime)
    (gateway : prompt -> option str) (st : store) :
  latest_specification rt st = None \/ latest_plan rt st = None ->
  exists final,
    Tasks.run_tasks rt gateway st = (Ret (final, ["load"%string]), st)
    /\ truthy rt (get final "error") = true
    /\ Tasks.run_tasks rt silent_gateway st = (Ret (final, ["load"%string]), st)
    /\ (forall p, find_latest_spec rt st = Some p -> file_at st (spec_file_of p) = None ->
          get final "error" = VStr (spec_not_found_message p))
    /\ (forall p n, find_latest_spec rt st = Some p ->
          file_at st (spec_file_of p) = Some n -> file_at st (plan_file_of p) = None ->
          get final "error" = VStr (plan_not_found_message p)).
Proof.
  intros Hnone. unfold Tasks.run_tasks, Tasks.build_tasks_workflow.
  set (s0 := dict _).
  destruct (tasks_load_error rt s0 st Hnone) as (message & E & Ht & Hs & Hp).
  rewrite !(run_chain_step _ _ _ _ _ _ _ _ _ E).
  set (s1 := merge _ _).
  assert (get s1 "error" = VStr message) as He by reflexivity.
  assert (Tasks.should_continue rt s1 = false) as ->
    by (unfold Tasks.should_continue; rewrite He, Ht; reflexivity).
  exists s1. rewrite He. split; [reflexivity|]. split; [exact Ht|]. split; [reflexivity|].
  split.
  - intros p H1 H2. rewrite (Hs p H1 H2). reflexivity.
  - intros p n H1 H2 H3. rewrite (Hp p n H1 H2 H3). reflexivity.
Qed.

Lemma tasks_requires_specification_and_plan_witness :
  exists final,
    Tasks.run_tasks ascii_runtime (stub_gateway (lit "TASKS")) spec_store
      = (Ret (final, ["load"%string]), spec_store)
    /\ truthy ascii_runtime (get final "error") = true
    /\ Tasks.run_tasks ascii_runtime silent_gateway spec_store
       = (Ret (final, ["load"%string]), spec_store)
    /\ (forall p, find_latest_spec ascii_runtime spec_store = Some p ->
          file_at spec_store (spec_file_of p) = None ->
          get final "error" = VStr (spec_not_found_message p))
    /\ (forall p n, find_latest_spec ascii_runtime spec_store = Some p ->
          file_at spec_store (spec_file_of p) = Some n ->
          file_at spec_store (plan_file_of p) = None ->
          get final "error" = VStr (plan_not_found_message p)).
Proof.
  apply (tasks_requires_specification_and_plan ascii_runtime (stub_gateway (lit "TASKS"))
           spec_store).
  right. reflexivity.
Defined.

Lemma tasks_run rt gateway st d spec plan tasks st' :
  find_latest_spec rt st = Some [specs; d] ->
  file_at st (spec_file_of [specs; d]) = Some (File (inl spec)) ->
  file_at st (plan_file_of [specs; d]) = Some (File (inl plan)) ->
  gateway (get_tasks_prompt (VStr spec) (VStr plan)) = Some tasks ->
  save_markdown (VStr tasks) [specs; d; lit "tasks.md"] st = (Ret tt, st') ->
  exists final,
    Tasks.run_tasks rt gateway st
    = (Ret (final, ["load"; "generate"; "save"]%string), st')
    /\ get final "tasks_file" = VPath (tasks_file_of [specs; d])
    /\ get final "error" = VNone.
Proof.
  intros Hl Hf Hp Hg Es.
  unfold Tasks.run_tasks, Tasks.build_tasks_workflow. set (s0 := dict _).
  rewrite (run_chain_step _ _ _ _ _ _ _ _ _ (tasks_load_ok rt s0 st _ spec plan Hl Hf Hp)).
  set (s1 := merge _ _).
  replace (Tasks.should_continue rt s1) with true by reflexivity.
  assert (Tasks.generate_tasks rt gateway s1 st
          = (Ret (dict [item "tasks" (VStr tasks)]), st)) as E2.
  { unfold Tasks.generate_tasks.
    replace (truthy rt (get s1 "error")) with false by reflexivity.
    unfold getitem.
    replace (s1 !! "specification"%string) with (Some (VStr spec)) by reflexivity.
    replace (s1 !! "plan"%string) with (Some (VStr plan)) by reflexivity.
    unfold bind, ret, invoke. rewrite Hg. reflexivity. }
  rewrite (run_chain_step _ _ _ _ _ _ _ _ _ E2). cbn [always].
  set (s2 := merge _ s1).
  assert (Tasks.save_tasks rt s2 st
          = (Ret (dict [item "tasks_file" (VPath [specs; d; lit "tasks.md"])]), st')) as E3.
  { unfold Tasks.save_tasks.
    replace (truthy rt (get s2 "error")) with false by reflexivity.
    unfold getitem.
    replace (s2 !! "spec_path"%string) with (Some (VPath [specs; d])) by reflexivity.
    replace (s2 !! "tasks"%string) with (Some (VStr tasks)) by reflexivity.
    unfold bind at 1, ret at 1. unfold bind at 1, path_div, ret at 1.
    unfold bind at 1, ret at 1. unfold bind. cbn [app]. rewrite Es. reflexivity. }
  rewrite (run_chain_step _ _ _ _ _ _ _ _ _ E3). cbn [always run_chain]. unfold ret.
  eexists. split; [reflexivity|]. split; reflexivity.
Qed.

(** X17. With a readable specification and plan in the latest directory
    and a gateway that answers the tasks prompt made of the two, a Tasks run
    runs its three nodes and writes the answer to [tasks.md] in that
    directory. No other path of the store changes, and the directory stays
    the latest. The one obstacle is a directory named [tasks.md]. *)
Theorem tasks_writes_tasks (rt : runtime) (gateway : prompt -> option str)
    (st : store) (p : path) (spec plan tasks : str) :
  find_latest_spec rt st = Some p ->
  file_at st (spec_file_of p) = Some (File (inl spec)) ->
  file_at st (plan_file_of p) = Some (File (inl plan)) ->
  gateway (get_tasks_prompt (VStr spec) (VStr plan)) = Some tasks ->
  (forall why, file_at st (tasks_file_of p) <> Some (Folder why)) ->
  exists final st',
    Tasks.run_tasks rt gateway st
    = (Ret (final, ["load"; "generate"; "save"]%string), st')
    /\ file_at st' (tasks_file_of p) = Some (File (inl tasks))
    /\ (forall q, q <> tasks_file_of p -> file_at st' q = file_at st q)
    /\ find_latest_spec rt st' = Some p
    /\ get final "tasks_file" = VPath (tasks_file_of p)
    /\ get final "error" = VNone.
Proof.
  intros Hl Hf Hp Hg Hfree. destruct (find_latest_spec_path rt st p Hl) as [d ->].
  destruct (save_existing tasks d (lit "tasks.md") st _ _ Hf Hfree)
    as (st' & Es & Hr & Hframe & Hlatest).
  destruct (tasks_run rt gateway st d spec plan tasks st' Hl Hf Hp Hg Es)
    as (final & E & Htf & He).
  exists final, st'. split; [exact E|]. split; [exact Hr|]. split; [exact Hframe|].
  split; [rewrite (proj1 (Hlatest rt)); exact Hl|]. split; assumption.
Qed.

Lemma tasks_writes_tasks_witness :
  exists final st',
    Tasks.run_tasks ascii_runtime (stub_gateway (lit "TASKS")) plan_store
    = (Ret (final, ["load"; "generate"; "save"]%string), st')
    /\ file_at st' (tasks_file_of [specs; lit "001-export"]) = Some (File (inl (lit "TASKS")))
    /\ (forall q, q <> tasks_file_of [specs; lit "001-export"] ->
          file_at st' q = file_at plan_store q)
    /\ find_latest_spec ascii_runtime st' = Some [specs; lit "001-export"]
    /\ get final "tasks_file" = VPath (tasks_file_of [specs; lit "001-export"])
    /\ get final "error" = VNone.
Proof.
  apply (tasks_writes_tasks ascii_runtime (stub_gateway (lit "TASKS")) plan_store
           [specs; lit "001-export"] (lit "SPEC") (lit "PLAN") (lit "TASKS")).
  - reflexivity.
  - reflexivity.
  - reflexivity.
  - reflexivity.
  - intros why. discriminate.
Defined.

(** *** Specify, then Plan, then Tasks *)








(** *** Clarify with answers *)

Lemma answered_pairs_nonempty questions m :
  answered_pairs questions m <> [] -> questions <> [] /\ m <> ∅.
Proof.
  intros H. split.
  - intros ->. apply H. reflexivity.
  - intros ->. apply H. unfold answered_pairs.
    induction questions as [|q questions IH]; [reflexivity|].
    cbn [omap list_omap]. unfold answered_pair at 1.
    destruct (question_parts q) as [[n text]|].
    + rewrite lookup_empty. apply IH. intros E. apply H. unfold answered_pairs.
      cbn [omap list_omap]. unfold answered_pair at 1.
      destruct (question_parts q) as [[n' text']|]; [rewrite lookup_empty|]; exact E.
    + apply IH. intros E. apply H. unfold answered_pairs.
      cbn [omap list_omap]. unfold answered_pair at 1.
      destruct (question_parts q) as [[n' text']|]; [rewrite lookup_empty|]; exact E.
Qed.

Lemma update_specification_eq rt gateway state st questions m spec :
  error_set rt state = false ->
  state !! "questions"%string = Some (VJson (JList questions)) ->
  state !! "answers"%string = Some (VAnswers m) ->
  state !! "specification"%string = Some spec ->
  forallb is_question questions = true ->
  m <> ∅ ->
  Clarify.update_specification rt gateway state st
  = (update_of gateway spec (answered_pairs questions m), st).
Proof.
  unfold error_set. intros He Hq Ha Hs Hwf Hm.
  pose proof (build_qa_pairs_answered rt questions m st Hwf) as Hb.
  assert (get state "answers" = VAnswers m) as Hga by (unfold get; rewrite Ha; reflexivity).
  unfold Clarify.update_specification. rewrite He, Hga. cbn [truthy].
  rewrite bool_decide_eq_false_2 by exact Hm. cbn [negb orb].
  unfold getitem. rewrite Hq, Hs. unfold bind at 1, ret at 1.
  unfold Clarify.json_iter, bind at 1, ret at 1. unfold bind at 1. rewrite Hb.
  unfold update_of. destruct (answered_pairs questions m) as [|p ps]; [reflexivity|].
  unfold bind, ret, invoke, raise.
  destruct (gateway _); reflexivity.
Qed.

Lemma clarify_reaches_update rt gateway st p spec r questions m :
  find_latest_spec rt st = Some p ->
  file_at st (spec_file_of p) = Some (File (inl spec)) ->
  gateway (get_analysis_prompt (VStr spec)) = Some r ->
  analysis_of rt r = Ret (dict [item "questions" (VJson (JList questions))]) ->
  questions <> [] -> m <> ∅ ->
  Clarify.run_clarify rt gateway (Some m) st
  = run_chain
      [ {| node_name := "update"; node_fn := Clarify.update_specification rt gateway;
           node_next := Clarify.should_continue_after_update rt |};
        {| node_name := "save"; node_fn := Clarify.save_specification rt;
           node_next := always |} ]
      (merge (dict [item "questions" (VJson (JList questions))])
         (loaded_state (Some m) p spec))
      ["load"; "analyze"]%string st.
Proof.
  intros Hl Hf Hg Ha Hq Hm.
  unfold Clarify.run_clarify, Clarify.build_clarify_workflow.
  rewrite (run_chain_step _ _ _ _ _ _ _ _ _ (clarify_load_ok rt _ st p spec Hl Hf)).
  fold (loaded_state (Some m) p spec).
  replace (Clarify.should_continue_after_load rt (loaded_state (Some m) p spec))
    with true by reflexivity.
  assert (Clarify.analyze_and_generate_questions rt gateway (loaded_state (Some m) p spec) st
          = (Ret (dict [item "questions" (VJson (JList questions))]), st)) as E2.
  { rewrite <- Ha. apply (analyze_outcome rt gateway _ st (VStr spec) r);
      [reflexivity|reflexivity|exact Hg]. }
  rewrite (run_chain_step _ _ _ _ _ _ _ _ _ E2).
  set (s2 := merge _ (loaded_state (Some m) p spec)).
  assert (Clarify.should_continue_after_analyze rt s2 = true) as ->; [|reflexivity].
  unfold Clarify.should_continue_after_analyze.
  replace (truthy rt (get s2 "error")) with false by reflexivity.
  replace (get s2 "questions") with (VJson (JList questions)) by reflexivity.
  replace (get s2 "answers") with (VAnswers m) by reflexivity.
  cbn [truthy json_truthy].
  rewrite bool_decide_eq_false_2 by (destruct questions; [contradiction|discriminate]).
  rewrite bool_decide_eq_false_2 by exact Hm. reflexivity.
Qed.

(** X19. A Clarify run with an Answer Map that answers at least one of
    the well-formed questions of the analysis runs its four nodes: the
    update prompt is made of the specification on file and of the pairs of
    the answered questions, and the answer of the gateway, its wrapping
    code fence removed, replaces [specification.md] in the latest directory.
    No other path of the store changes. *)
Theorem clarify_rewrites_specification (rt : runtime) (gateway : prompt -> option str)
    (st : store) (p : path) (spec r updated : str) (questions : list json)
    (m : gmap Z str) :
  find_latest_spec rt st = Some p ->
  file_at st (spec_file_of p) = Some (File (inl spec)) ->
  gateway (get_analysis_prompt (VStr spec)) = Some r ->
  analysis_of rt r = Ret (dict [item "questions" (VJson (JList questions))]) ->
  forallb is_question questions = true ->
  answered_pairs questions m <> [] ->
  gateway (get_update_prompt (VStr spec) (answered_pairs questions m)) = Some updated ->
  exists final st',
    Clarify.run_clarify rt gateway (Some m) st
    = (Ret (final, ["load"; "analyze"; "update"; "save"]%string), st')
    /\ file_at st' (spec_file_of p) = Some (File (inl (Clarify.strip_fence updated)))
    /\ (forall q, q <> spec_file_of p -> file_at st' q = file_at st q)
    /\ find_latest_spec rt st' = Some p
    /\ get final "updated_spec" = VStr (Clarify.strip_fence updated)
    /\ get final "error" = VNone.
Proof.
  intros Hl Hf Hg Ha Hwf Hpairs Hu.
  destruct (answered_pairs_nonempty _ _ Hpairs) as [Hq Hm].
  rewrite (clarify_reaches_update rt gateway st p spec r questions m Hl Hf Hg Ha Hq Hm).
  destruct (find_latest_spec_path rt st p Hl) as [d ->].
  set (s2 := merge _ (loaded_state (Some m) [specs; d] spec)).
  assert (Clarify.update_specification rt gateway s2 st
          = (Ret (dict [item "updated_spec" (VStr (Clarify.strip_fence updated))]), st))
    as E3.
  { rewrite (update_specification_eq rt gateway s2 st questions m (VStr spec));
      try reflexivity; try assumption.
    unfold update_of. destruct (answered_pairs questions m); [contradiction|].
    rewrite Hu. reflexivity. }
  rewrite (run_chain_step _ _ _ _ _ _ _ _ _ E3).
  set (s3 := merge _ s2).
  replace (Clarify.should_continue_after_update rt s3) with true by reflexivity.
  assert (forall why, file_at st [specs; d; lit "specification.md"] <> Some (Folder why))
    as Hfree by (intros why; unfold spec_file_of in Hf; cbn [app] in Hf; rewrite Hf;
                 discriminate).
  destruct (save_existing (Clarify.strip_fence updated) d (lit "specification.md") st _ _
              Hf Hfree) as (st' & Es & Hr & Hframe & Hlatest).
  assert (Clarify.save_specification rt s3 st = (Ret (dict []), st')) as E4.
  { unfold Clarify.save_specification.
    replace (truthy rt (get s3 "error")) with false by reflexivity.
    unfold getitem.
    replace (s3 !! "spec_path"%string) with (Some (VPath [specs; d])) by reflexivity.
    replace (s3 !! "updated_spec"%string)
      with (Some (VStr (Clarify.strip_fence updated))) by reflexivity.
    unfold bind at 1, ret at 1. unfold bind at 1, path_div, ret at 1.
    unfold bind at 1, ret at 1. unfold bind. cbn [app]. rewrite Es. reflexivity. }
  rewrite (run_chain_step _ _ _ _ _ _ _ _ _ E4). cbn [always run_chain]. unfold ret.
  eexists. exists st'. split; [reflexivity|].
  split; [exact Hr|]. split; [exact Hframe|].
  split; [rewrite (proj1 (Hlatest rt)); exact Hl|]. rewrite merge_empty. split; reflexivity.
Qed.

Lemma clarify_rewrites_specification_witness :
  exists final st',
    Clarify.run_clarify ascii_runtime (clarify_gateway one_question_payload (lit "NEW"))
      (Some {[ 1%Z := lit "A1" ]}) spec_store
    = (Ret (final, ["load"; "analyze"; "update"; "save"]%string), st')
    /\ file_at st' (spec_file_of [specs; lit "001-export"])
       = Some (File (inl (Clarify.strip_fence (lit "NEW"))))
    /\ (forall q, q <> spec_file_of [specs; lit "001-export"] ->
          file_at st' q = file_at spec_store q)
    /\ find_latest_spec ascii_runtime st' = Some [specs; lit "001-export"]
    /\ get final "updated_spec" = VStr (Clarify.strip_fence (lit "NEW"))
    /\ get final "error" = VNone.
Proof.
  apply (clarify_rewrites_specification ascii_runtime
           (clarify_gateway one_question_payload (lit "NEW")) spec_store
           [specs; lit "001-export"] (lit "SPEC") one_question_payload (lit "NEW")
           [question 1 "Q1"] {[ 1%Z := lit "A1" ]}).
  - reflexivity.
  - reflexivity.
  - reflexivity.
  - vm_compute. reflexivity.
  - reflexivity.
  - vm_compute. discriminate.
  - reflexivity.
Defined.

(** X20. A Clarify run with an Answer Map that is not empty but answers
    none of the well-formed questions of the analysis ends after the update
    node with an error: the gateway is not asked for an update and the
    store is left as it was. *)
Theorem clarify_unmatched_answers_write_nothing (rt : runtime)
    (gateway : prompt -> option str) (st : store) (p : path) (spec r : str)
    (questions : list json) (m : gmap Z str) :
  find_latest_spec rt st = Some p ->
  file_at st (spec_file_of p) = Some (File (inl spec)) ->
  gateway (get_analysis_prompt (VStr spec)) = Some r ->
  analysis_of rt r = Ret (dict [item "questions" (VJson (JList questions))]) ->
  forallb is_question questions = true ->
  questions <> [] -> m <> ∅ ->
  answered_pairs questions m = [] ->
  exists final,
    Clarify.run_clarify rt gateway (Some m) st
    = (Ret (final, ["load"; "analyze"; "update"]%string), st)
    /\ get final "error" = VStr no_answers_message
    /\ get final "updated_spec" = VStr [].
Proof.
  intros Hl Hf Hg Ha Hwf Hq Hm Hpairs.
  rewrite (clarify_reaches_update rt gateway st p spec r questions m Hl Hf Hg Ha Hq Hm).
  set (s2 := merge _ (loaded_state (Some m) p spec)).
  assert (Clarify.update_specification rt gateway s2 st
          = (Ret (dict [item "error" (VStr no_answers_message)]), st)) as E3.
  { rewrite (update_specification_eq rt gateway s2 st questions m (VStr spec));
      try reflexivity; try assumption.
    rewrite Hpairs. reflexivity. }
  rewrite (run_chain_step _ _ _ _ _ _ _ _ _ E3).
  set (s3 := merge _ s2).
  replace (Clarify.should_continue_after_update rt s3) with false by reflexivity.
  exists s3. split; [reflexivity|]. split; reflexivity.
Qed.

Lemma clarify_unmatched_answers_write_nothing_witness :
  exists final,
    Clarify.run_clarify ascii_runtime (clarify_gateway one_question_payload (lit "NEW"))
      (Some {[ 7%Z := lit "A7" ]}) spec_store
    = (Ret (final, ["load"; "analyze"; "update"]%string), spec_store)
    /\ get final "error" = VStr no_answers_message
    /\ get final "updated_spec" = VStr [].
Proof.
  apply (clarify_unmatched_answers_write_nothing ascii_runtime
           (clarify_gateway one_question_payload (lit "NEW")) spec_store
           [specs; lit "001-export"] (lit "SPEC") one_question_payload
           [question 1 "Q1"] {[ 7%Z := lit "A7" ]}).
  - reflexivity.
  - reflexivity.
  - reflexivity.
  - vm_compute. reflexivity.
  - reflexivity.
  - discriminate.
  - apply map_non_empty_singleton.
  - reflexivity.
Defined.

(** *** The code fence around an updated specification *)

Lemma slice_from_app p x : slice_from (p ++ x) (Z.of_nat (length p)) = x.
Proof.
  unfold slice_from, slice_bound.
  destruct (Z.ltb_spec (Z.of_nat (length p)) 0); [lia|].
  rewrite length_app.
  replace (Z.to_nat (Z.min (Z.of_nat (length p)) (Z.of_nat (length p + length x))))
    with (length p) by lia.
  apply drop_app_length.
Qed.

Lemma slice_to_fence x : slice_to (x ++ fence) (-3) = x.
Proof.
  unfold slice_to, slice_bound. rewrite length_app.
  change (length fence) with 3%nat. change (-3 <? 0)%Z with true. cbv iota.
  replace (Z.to_nat (Z.max 0 (-3 + Z.of_nat (length x + 3)))) with (length x) by lia.
  apply take_app_length.
Qed.

Lemma endswith_app p x : endswith p (x ++ p) = true.
Proof. unfold endswith. rewrite rev_app_distr. apply startswith_app. Qed.

Lemma drop_while_app_stop {A} (p : A -> bool) a x b :
  p x = false -> drop_while p (a ++ x :: b) = drop_while p a ++ x :: b.
Proof.
  intros Hx. induction a as [|y a IH]; simpl; [rewrite Hx; reflexivity|].
  destruct (p y); [exact IH|reflexivity].
Qed.

Lemma strip_fence_unfenced s :
  startswith fence s = false -> Clarify.strip_fence s = strip s.
Proof.
  intros H. unfold Clarify.strip_fence.
  assert (startswith (lit "```markdown") s = false) as ->.
  { destruct (startswith (lit "```markdown") s) eqn:E; [|reflexivity].
    apply (startswith_shorter fence (lit "markdown")) in E. congruence. }
  fold fence. rewrite H. reflexivity.
Qed.

(** X21. What [update_specification] removes from the answer of the
    gateway. An answer wrapped in a markdown fence or in a bare fence is
    reduced to its trimmed body, and an answer that does not begin with a
    fence is only trimmed. The fence is looked for before the text is
    trimmed: an opening fence after leading white space is kept, and so is a
    closing fence that a newline follows. An opening fence without a
    closing one is removed alone. *)
Theorem strip_fence_cases (body : str) :
  Clarify.strip_fence (fence_markdown ++ body ++ fence) = strip body
  /\ (startswith fence_markdown (fence ++ body ++ fence) = false ->
      Clarify.strip_fence (fence ++ body ++ fence) = strip body)
  /\ (startswith fence body = false -> Clarify.strip_fence body = strip body)
  /\ (endswith fence body = false ->
      Clarify.strip_fence (fence_markdown ++ body) = strip body)
  /\ Clarify.strip_fence ([newline] ++ fence_markdown ++ body ++ fence)
     = fence_markdown ++ body ++ fence
  /\ Clarify.strip_fence (fence_markdown ++ body ++ fence ++ [newline])
     = drop_while is_space body ++ fence.
Proof.
  assert (forall x, slice_from (fence_markdown ++ x) 11 = x) as Hmd
    by (intros x; exact (slice_from_app fence_markdown x)).
  assert (forall x, slice_from (fence ++ x) 3 = x) as Hbare
    by (intros x; exact (slice_from_app fence x)).
  split; [|split; [|split; [|split; [|split]]]].
  - unfold Clarify.strip_fence. fold fence_markdown fence.
    rewrite (startswith_app fence_markdown), Hmd, endswith_app, slice_to_fence.
    reflexivity.
  - intros H. unfold Clarify.strip_fence. fold fence_markdown fence.
    rewrite H, (startswith_app fence), Hbare, endswith_app, slice_to_fence. reflexivity.
  - apply strip_fence_unfenced.
  - intros H. unfold Clarify.strip_fence. fold fence_markdown fence.
    rewrite (startswith_app fence_markdown), Hmd, H. reflexivity.
  - rewrite strip_fence_unfenced by reflexivity.
    unfold strip, strip_chars.
    change (drop_while is_space ([newline] ++ fence_markdown ++ body ++ fence))
      with (fence_markdown ++ body ++ fence).
    rewrite (app_assoc fence_markdown body fence), rev_app_distr.
    rewrite (drop_while_id is_space (rev fence ++ rev (fence_markdown ++ body)))
      by reflexivity.
    rewrite <- rev_app_distr, rev_involutive. reflexivity.
  - unfold Clarify.strip_fence. fold fence_markdown fence.
    rewrite (startswith_app fence_markdown), Hmd.
    assert (endswith fence (body ++ fence ++ [newline]) = false) as ->
      by (unfold endswith; rewrite !rev_app_distr; reflexivity).
    unfold strip, strip_chars.
    change (body ++ fence ++ [newline]) with (body ++ 96 :: lit "``" ++ [newline]).
    rewrite (drop_while_app_stop is_space body 96) by reflexivity.
    rewrite rev_app_distr.
    change (rev (96 :: lit "``" ++ [newline])) with (newline :: fence).
    change (drop_while is_space ((newline :: fence) ++ rev (drop_while is_space body)))
      with (fence ++ rev (drop_while is_space body)).
    rewrite rev_app_distr, rev_involutive. reflexivity.
Qed.

(** *** Errors and routing *)

Ltac node_cases :=
  repeat match goal with
         | |- context [match ?x with _ => _ end] => destruct x eqn:?
         end.

Ltac error_shape :=
  let v := fresh "v" in
  let H := fresh "H" in
  first [ discriminate
        | intros [= <- <-]; intros v H;
          first [ discriminate H
                | injection H as <-; first [left; reflexivity|right; reflexivity] ] ].

Lemma node_error_shape rt gateway chain n state st update st' :
  In chain (pipelines rt gateway) -> In n chain ->
  node_fn n state st = (Ret update, st') ->
  forall v, update !! "error"%string = Some v -> v = VNone \/ truthy rt v = true.
Proof.
  intros Hc Hn. simpl in Hc.
  destruct Hc as [<-|[<-|[<-|[<-|[]]]]]; simpl in Hn;
    repeat (destruct Hn as [<-|Hn]); try destruct Hn; cbn [node_fn].
  - unfold Specify.analyze_input, ret, raise. node_cases; error_shape.
  - unfold Specify.generate_specification, getitem, invoke, bind, ret, raise.
    node_cases; error_shape.
  - unfold Specify.save_specification, getitem, bind, ret, raise.
    node_cases; error_shape.
  - unfold Plan.load_specification, get_store, bind, ret. node_cases; error_shape.
  - unfold Plan.generate_plan, getitem, invoke, bind, ret, raise. node_cases; error_shape.
  - unfold Plan.save_plan, getitem, bind, ret, raise. node_cases; error_shape.
  - unfold Tasks.load_plan, get_store, bind, ret. node_cases; error_shape.
  - unfold Tasks.generate_tasks, getitem, invoke, bind, ret, raise.
    node_cases; error_shape.
  - unfold Tasks.save_tasks, getitem, bind, ret, raise. node_cases; error_shape.
  - unfold Clarify.load_specification, get_store, bind, ret. node_cases; error_shape.
  - unfold Clarify.analyze_and_generate_questions, getitem, invoke, bind, ret, raise.
    node_cases; error_shape.
  - unfold Clarify.update_specification, getitem, invoke, bind, ret, raise.
    node_cases; error_shape.
  - unfold Clarify.save_specification, getitem, bind, ret, raise.
    node_cases; error_shape.
Qed.

(** X22. No node of the four pipelines reports an error that the routing
    would miss: whenever a node returns an update that sets the error field
    to something other than [None], the field counts as set in the state the
    update is merged into, which is what the conditional edges and the later
    nodes test. In particular no node sets the empty message. *)
Theorem errors_are_detected (rt : runtime) (gateway : prompt -> option str)
    (chain : list node) (n : node) (state update : pstate) (st st' : store) (v : value) :
  In chain (pipelines rt gateway) -> In n chain ->
  node_fn n state st = (Ret update, st') ->
  update !! "error"%string = Some v -> v <> VNone ->
  error_set rt (merge update state) = true /\ v <> VStr [].
Proof.
  intros Hc Hn E Hv Hne.
  destruct (node_error_shape rt gateway chain n state st update st' Hc Hn E v Hv)
    as [->|Ht]; [contradiction|]. split.
  - unfold error_set, get, merge. rewrite lookup_union, Hv.
    destruct (state !! "error"%string); exact Ht.
  - intros ->. discriminate Ht.
Qed.

Lemma errors_are_detected_witness :
  error_set ascii_runtime
    (merge (dict [item "error" (VStr no_answers_message)])
       (analyzed_state two_questions {[ 7%Z := lit "A7" ]})) = true
  /\ VStr no_answers_message <> VStr [].
Proof.
  apply (errors_are_detected ascii_runtime silent_gateway
           (Clarify.build_clarify_workflow ascii_runtime silent_gateway)
           {| node_name := "update";
              node_fn := Clarify.update_specification ascii_runtime silent_gateway;
              node_next := Clarify.should_continue_after_update ascii_runtime |}
           (analyzed_state two_questions {[ 7%Z := lit "A7" ]})
           (dict [item "error" (VStr no_answers_message)]) spec_store spec_store
           (VStr no_answers_message)).
  - simpl. auto.
  - simpl. auto.
  - reflexivity.
  - reflexivity.
  - discriminate.
Defined.

(** *** Questions that are not well formed *)

Lemma update_specification_iter rt gateway state st questions m :
  error_set rt state = false ->
  state !! "questions"%string = Some (VJson questions) ->
  state !! "answers"%string = Some (VAnswers m) ->
  m <> ∅ ->
  Clarify.update_specification rt gateway state st
  = bind (Clarify.json_iter (VJson questions))
      (fun questions =>
         bind (Clarify.build_qa_pairs rt questions (VAnswers m))
           (fun qa_pairs =>
              match qa_pairs with
              | [] => ret (dict [item "error" (VStr no_answers_message)])
              | _ :: _ =>
                  bind (getitem state "specification")
                    (fun specification =>
                       bind (invoke gateway (get_update_prompt specification qa_pairs))
                         (fun updated_spec =>
                            ret (dict [item "updated_spec"
                                         (VStr (Clarify.strip_fence updated_spec))])))
              end)) st.
Proof.
  unfold error_set. intros He Hq Ha Hm.
  assert (get state "answers" = VAnswers m) as Hga by (unfold get; rewrite Ha; reflexivity).
  unfold Clarify.update_specification. rewrite He, Hga. cbn [truthy].
  rewrite bool_decide_eq_false_2 by exact Hm. cbn [negb orb].
  unfold getitem at 1. rewrite Hq. reflexivity.
Qed.

(** X23. The update node does not turn a malformed question list into an
    error state: it raises, before the gateway is called and without
    touching the store. With an Answer Map that is not empty, a question
    list that is not a JSON array raises [TypeError], as does a first
    question that is not an object; a first question without [id] raises
    [KeyError], and so does one whose id is answered but which has no
    [question]. *)
Theorem update_raises_on_malformed_questions (rt : runtime)
    (gateway : prompt -> option str) (state : pstate) (st : store) (questions : json)
    (m : gmap Z str) :
  error_set rt state = false ->
  state !! "questions"%string = Some (VJson questions) ->
  state !! "answers"%string = Some (VAnswers m) ->
  m <> ∅ ->
  ((forall l, questions <> JList l) -> json_truthy rt questions = true ->
   Clarify.update_specification rt gateway state st = (Raise TypeError, st))
  /\ (forall q rest, questions = JList (q :: rest) -> (forall d, q <> JDict d) ->
      Clarify.update_specification rt gateway state st = (Raise TypeError, st))
  /\ (forall d rest, questions = JList (JDict d :: rest) -> dict_get d (lit "id") = None ->
      Clarify.update_specification rt gateway state st = (Raise KeyError, st))
  /\ (forall d rest n a, questions = JList (JDict d :: rest) ->
      dict_get d (lit "id") = Some (JInt n) -> m !! n = Some a ->
      dict_get d (lit "question") = None ->
      Clarify.update_specification rt gateway state st = (Raise KeyError, st)).
Proof.
  intros He Hq Ha Hm.
  rewrite (update_specification_iter rt gateway state st questions m He Hq Ha Hm).
  split; [|split; [|split]].
  - intros Hl Ht. destruct questions as [|b|k|tok|s|l|d]; try reflexivity.
    + destruct s as [|c s]; [discriminate Ht|reflexivity].
    + exfalso. exact (Hl l eq_refl).
    + destruct d as [|[k v] d]; [discriminate Ht|reflexivity].
  - intros q rest -> Hd. destruct q; try reflexivity. exfalso. exact (Hd _ eq_refl).
  - intros d rest -> Hid. unfold bind at 1. cbn [Clarify.json_iter]. unfold ret at 1.
    cbn [Clarify.build_qa_pairs]. unfold Clarify.json_getitem at 1. rewrite Hid.
    reflexivity.
  - intros d rest n a -> Hid Hn Ht. unfold bind at 1. cbn [Clarify.json_iter].
    unfold ret at 1. cbn [Clarify.build_qa_pairs]. unfold Clarify.json_getitem at 1.
    rewrite Hid. unfold bind at 2. unfold ret at 1.
    unfold Clarify.answer_for. unfold bind at 2. unfold ret at 1. rewrite Hn.
    unfold Clarify.json_getitem at 1. rewrite Ht. reflexivity.
Qed.

Lemma update_raises_on_malformed_questions_witness :
  let state := analyzed_state [JDict []] {[ 1%Z := lit "A1" ]} in
  let update := Clarify.update_specification ascii_runtime silent_gateway state spec_store in
  ((forall l, JList [JDict []] <> JList l) -> json_truthy ascii_runtime (JList [JDict []]) = true ->
   update = (Raise TypeError, spec_store))
  /\ (forall q rest, JList [JDict []] = JList (q :: rest) -> (forall d, q <> JDict d) ->
      update = (Raise TypeError, spec_store))
  /\ (forall d rest, JList [JDict []] = JList (JDict d :: rest) ->
      dict_get d (lit "id") = None -> update = (Raise KeyError, spec_store))
  /\ (forall d rest n a, JList [JDict []] = JList (JDict d :: rest) ->
      dict_get d (lit "id") = Some (JInt n) ->
      ({[ 1%Z := lit "A1" ]} : gmap Z str) !! n = Some a ->
      dict_get d (lit "question") = None -> update = (Raise KeyError, spec_store)).
Proof.
  apply (update_raises_on_malformed_questions ascii_runtime silent_gateway
           (analyzed_state [JDict []] {[ 1%Z := lit "A1" ]}) spec_store (JList [JDict []])
           {[ 1%Z := lit "A1" ]}).
  - reflexivity.
  - reflexivity.
  - reflexivity.
  - apply map_non_empty_singleton.
Defined.

(** *** Directory names *)

Lemma format_03d_length n : (3 <= length (format_03d n))%nat.
Proof.
  unfold format_03d.
  destruct (lit (NilEmpty.string_of_uint (N.to_uint (Z.to_N n)))) as [|c ds];
    rewrite length_app, repeat_length; simpl length.
  - lia.
  - change (@length char ds) with (@length N ds). lia.
Qed.

(** X24. The name [create_spec_directory] builds from a number and a slug
    is read back by [get_next_spec_number] and [find_latest_spec] as that
    number, whatever the slug, the empty one included; the number is written
    with at least three digits. *)
Theorem spec_number_round_trip (rt : runtime) (n : Z) (slug : str) :
  (0 <= n)%Z ->
  match_spec_number rt (format_03d n ++ lit "-" ++ slug) = Some n
  /\ get_spec_number rt {| ename := format_03d n ++ lit "-" ++ slug; kind := Dir [] |} = n
  /\ (3 <= length (format_03d n))%nat.
Proof.
  intros Hn. pose proof (match_spec_number_format rt n slug Hn) as H.
  split; [exact H|]. split; [|apply format_03d_length].
  unfold get_spec_number. cbn [ename]. rewrite H. reflexivity.
Qed.

Lemma spec_number_round_trip_witness :
  match_spec_number ascii_runtime (format_03d 1234 ++ lit "-" ++ []) = Some 1234%Z
  /\ get_spec_number ascii_runtime
       {| ename := format_03d 1234 ++ lit "-" ++ []; kind := Dir [] |} = 1234%Z
  /\ (3 <= length (format_03d 1234))%nat.
Proof.
  apply (spec_number_round_trip ascii_runtime 1234 []). lia.
Defined.

(** *** Runs that raise *)





(** *** What a Clarify run can change *)








(** *** Specify twice *)

Lemma get_next_spec_number_last rt st feature_name files :
  get_next_spec_number rt
    (Some (entries_of st ++ [dir_with (next_dir_name rt st feature_name) files]))
  = (get_next_spec_number rt st + 1)%Z.
Proof.
  set (d := next_dir_name rt st feature_name).
  assert (same_listing (entries_of st ++ [new_dir d]) (entries_of st ++ [dir_with d files]))
    as Hl.
  { apply Forall2_app; [apply same_listing_refl|]. constructor; [|constructor].
    split; reflexivity. }
  rewrite <- (proj2 (same_listing_latest rt _ _ Hl)).
  assert (1 <= get_next_spec_number rt st)%Z as Hn.
  { rewrite get_next_spec_number_greatest.
    pose proof (greatest_nonneg (spec_numbers rt st)). lia. }
  rewrite get_next_spec_number_greatest.
  rewrite (spec_numbers_snoc rt st d (get_next_spec_number rt st)), greatest_app.
  - cbn [greatest fold_right]. rewrite get_next_spec_number_greatest.
    pose proof (greatest_nonneg (spec_numbers rt st)). lia.
  - apply match_spec_number_format. lia.
Qed.

(** X27. Two Specify runs in a row, on descriptions of at least 10
    characters once trimmed and with a gateway that answers, create two
    directories with consecutive numbers, the first kept as it was written:
    a second run never reuses or overwrites the directory of the first, also
    when the two descriptions are the same. *)
Theorem specify_twice_allocates_consecutive_numbers (rt : runtime)
    (gateway : prompt -> option str) (text1 text2 spec1 spec2 : str) (st : store) :
  let n := get_next_spec_number rt st in
  let d1 := format_03d n ++ lit "-" ++ slugify rt text1 in
  let d2 := format_03d (n + 1) ++ lit "-" ++ slugify rt text2 in
  (10 <= length (strip text1))%nat ->
  (10 <= length (strip text2))%nat ->
  gateway (get_specify_prompt (VStr text1)) = Some spec1 ->
  gateway (get_specify_prompt (VStr text2)) = Some spec2 ->
  (forall e, In e (entries_of st) -> is_dir e = false -> ename e <> d1 /\ ename e <> d2) ->
  exists final1 final2 st1,
    Specify.run_specify rt gateway text1 st
      = (Ret (final1, ["analyze"; "generate"; "save"]%string), st1)
    /\ Specify.run_specify rt gateway text2 st1
       = (Ret (final2, ["analyze"; "generate"; "save"]%string),
          Some (entries_of st ++ [dir_with d1 [(lit "specification.md", spec1)];
                                  dir_with d2 [(lit "specification.md", spec2)]]))
    /\ get final1 "spec_number" = VInt n
    /\ get final2 "spec_number" = VInt (n + 1)
    /\ d1 <> d2.
Proof.
  intros n d1 d2 Hlen1 Hlen2 Hg1 Hg2 Hfree.
  assert (forall text specification st0,
            (10 <= length (strip text))%nat ->
            gateway (get_specify_prompt (VStr text)) = Some specification ->
            List.find (entry_named (next_dir_name rt st0 text)) (entries_of st0) = None ->
            exists final,
              Specify.run_specify rt gateway text st0
              = (Ret (final, ["analyze"; "generate"; "save"]%string),
                 Some (entries_of st0
                       ++ [dir_with (next_dir_name rt st0 text)
                             [(lit "specification.md", specification)]]))
              /\ get final "spec_number" = VInt (get_next_spec_number rt st0)) as Hrun.
  { intros text specification st0 Hlen Hg Hf.
    unfold Specify.run_specify, Specify.build_specify_workflow.
    set (rest := dict [item "specification" (VStr []); item "spec_path" (VPath []);
                       item "spec_number" (VInt 0); item "error" VNone]).
    change (dict (item "feature_description" (VStr text) :: _))
      with (<["feature_description"%string := VStr text]> rest).
    rewrite (run_chain_step _ _ _ _ _ _ _ _ _ (specify_analyze_valid text rest st0 Hlen)).
    set (s1 := merge _ _).
    replace (Specify.should_continue rt s1) with true by reflexivity.
    assert (Specify.generate_specification rt gateway s1 st0
            = (Ret (dict [item "specification" (VStr specification)]), st0)) as E2.
    { rewrite (specify_generate rt gateway s1 text st0), Hg; reflexivity. }
    rewrite (run_chain_step _ _ _ _ _ _ _ _ _ E2). cbn [always].
    set (s2 := merge _ s1).
    rewrite (run_chain_step _ _ _ _ _ _ _ _ _
               (specify_save rt s2 text specification st0 eq_refl eq_refl eq_refl Hf)).
    cbn [always run_chain]. unfold ret. eexists. split; reflexivity. }
  assert (d1 <> d2) as Hd.
  { intros E. assert (match_spec_number rt d1 = match_spec_number rt d2) as E' by congruence.
    assert (1 <= n)%Z as Hn.
    { unfold n. rewrite get_next_spec_number_greatest.
      pose proof (greatest_nonneg (spec_numbers rt st)). lia. }
    unfold d1, d2 in E'. rewrite !match_spec_number_format in E' by lia.
    injection E' as E'. lia. }
  assert (List.find (entry_named d1) (entries_of st) = None) as Hf1.
  { apply (next_dir_name_absent rt st text1). intros e He Hdir. exact (proj1 (Hfree e He Hdir)). }
  destruct (Hrun text1 spec1 st Hlen1 Hg1 Hf1) as (final1 & E1 & Hn1).
  fold n in Hn1. change (next_dir_name rt st text1) with d1 in E1.
  set (st1 := Some (entries_of st ++ [dir_with d1 [(lit "specification.md", spec1)]])) in *.
  assert (get_next_spec_number rt st1 = (n + 1)%Z) as Hnext
    by (apply (get_next_spec_number_last rt st text1)).
  assert (next_dir_name rt st1 text2 = d2) as Hd2
    by (unfold next_dir_name; rewrite Hnext; reflexivity).
  assert (List.find (entry_named (next_dir_name rt st1 text2)) (entries_of st1) = None)
    as Hf2.
  { apply (next_dir_name_absent rt st1 text2). rewrite Hd2. intros e He Hdir.
    unfold st1 in He. cbn [entries_of default from_option id] in He.
    apply in_app_or in He as [He|[<-|[]]]; [|discriminate Hdir].
    exact (proj2 (Hfree e He Hdir)). }
  destruct (Hrun text2 spec2 st1 Hlen2 Hg2 Hf2) as (final2 & E2 & Hn2).
  rewrite Hd2, Hnext in *.
  exists final1, final2, st1. split; [exact E1|]. split.
  - rewrite E2. unfold st1. cbn [entries_of default from_option id].
    rewrite <- app_assoc. reflexivity.
  - auto.
Qed.

Lemma specify_twice_allocates_consecutive_numbers_witness :
  let n := get_next_spec_number ascii_runtime sample_store in
  let d1 := format_03d n ++ lit "-" ++ slugify ascii_runtime (lit "Dark Mode Toggle") in
  let d2 := format_03d (n + 1) ++ lit "-" ++ slugify ascii_runtime (lit "Dark Mode Toggle") in
  exists final1 final2 st1,
    Specify.run_specify ascii_runtime (stub_gateway (lit "SPEC")) (lit "Dark Mode Toggle")
        sample_store
      = (Ret (final1, ["analyze"; "generate"; "save"]%string), st1)
    /\ Specify.run_specify ascii_runtime (stub_gateway (lit "SPEC")) (lit "Dark Mode Toggle")
         st1
       = (Ret (final2, ["analyze"; "generate"; "save"]%string),
          Some (entries_of sample_store
                ++ [dir_with d1 [(lit "specification.md", lit "SPEC")];
                    dir_with d2 [(lit "specification.md", lit "SPEC")]]))
    /\ get final1 "spec_number" = VInt n
    /\ get final2 "spec_number" = VInt (n + 1)
    /\ d1 <> d2.
Proof.
  apply (specify_twice_allocates_consecutive_numbers ascii_runtime (stub_gateway (lit "SPEC"))
           (lit "Dark Mode Toggle") (lit "Dark Mode Toggle") (lit "SPEC") (lit "SPEC")
           sample_store).
  - vm_compute. lia.
  - vm_compute. lia.
  - reflexivity.
  - reflexivity.
  - intros e He Hd. vm_compute in He.
    destruct He as [<-|[<-|[<-|[<-|[]]]]]; try discriminate Hd.
    split; vm_compute; discriminate.
Defined.

(** *** Clarify without answers *)

(** X28. The first phase of Clarify. With a readable specification in the
    latest directory and a gateway whose answer to the analysis prompt
    decodes to an object, a Clarify run without an Answer Map, or with an
    empty one, ends after the analyze node and returns the questions of the
    analysis in its final state, next to the specification it read; the
    store is unchanged and no update is asked for. *)
Theorem clarify_returns_questions (rt : runtime) (gateway : prompt -> option str)
    (answers : option (gmap Z str)) (st : store) (p : path) (spec r : str)
    (questions : json) :
  answers = None \/ answers = Some ∅ ->
  find_latest_spec rt st = Some p ->
  file_at st (spec_file_of p) = Some (File (inl spec)) ->
  gateway (get_analysis_prompt (VStr spec)) = Some r ->
  analysis_of rt r = Ret (dict [item "questions" (VJson questions)]) ->
  exists final,
    Clarify.run_clarify rt gateway answers st
    = (Ret (final, ["load"; "analyze"]%string), st)
    /\ get final "questions" = VJson questions
    /\ get final "specification" = VStr spec
    /\ get final "spec_path" = VPath p
    /\ get final "updated_spec" = VStr []
    /\ get final "error" = VNone.
Proof.
  intros Hans Hl Hf Hg Ha.
  unfold Clarify.run_clarify, Clarify.build_clarify_workflow.
  rewrite (run_chain_step _ _ _ _ _ _ _ _ _ (clarify_load_ok rt _ st p spec Hl Hf)).
  fold (loaded_state answers p spec).
  replace (Clarify.should_continue_after_load rt (loaded_state answers p spec))
    with true by reflexivity.
  assert (Clarify.analyze_and_generate_questions rt gateway (loaded_state answers p spec) st
          = (Ret (dict [item "questions" (VJson questions)]), st)) as E2.
  { rewrite <- Ha. apply (analyze_outcome rt gateway _ st (VStr spec) r);
      [reflexivity|reflexivity|exact Hg]. }
  rewrite (run_chain_step _ _ _ _ _ _ _ _ _ E2).
  set (s2 := merge _ (loaded_state answers p spec)).
  assert (Clarify.should_continue_after_analyze rt s2 = false) as ->.
  { unfold Clarify.should_continue_after_analyze.
    replace (truthy rt (get s2 "error")) with false by reflexivity.
    replace (truthy rt (get s2 "answers")) with false
      by (destruct Hans as [->| ->]; reflexivity).
    destruct (negb _); reflexivity. }
  exists s2. repeat split; reflexivity.
Qed.

Lemma clarify_returns_questions_witness :
  exists final,
    Clarify.run_clarify ascii_runtime (clarify_gateway one_question_payload (lit "NEW")) None
      spec_store
    = (Ret (final, ["load"; "analyze"]%string), spec_store)
    /\ get final "questions" = VJson (JList [question 1 "Q1"])
    /\ get final "specification" = VStr (lit "SPEC")
    /\ get final "spec_path" = VPath [specs; lit "001-export"]
    /\ get final "updated_spec" = VStr []
    /\ get final "error" = VNone.
Proof.
  apply (clarify_returns_questions ascii_runtime
           (clarify_gateway one_question_payload (lit "NEW")) None spec_store
           [specs; lit "001-export"] (lit "SPEC") one_question_payload
           (JList [question 1 "Q1"])).
  - left. reflexivity.
  - reflexivity.
  - reflexivity.
  - reflexivity.
  - vm_compute. reflexivity.
Defined.
